(** * nebula-client: batch collection and delivery pipeline

    Shallow embedding of the FastAPI organisation router
    ([app/routers/organization.py]), the Spring delivery client
    ([app/services/spring_integration.py]), the PARA classification of
    [to_organized_file_entry] and the page-size handling of the
    TypeScript front-end client ([frontend-client.ts]), followed by the
    properties established about them. *)

From Stdlib Require Import ZArith List Lia Bool String Ascii QArith Sorted.
From Stdlib Require Import Floats.SpecFloat.
From stdpp Require Import gmap strings.
Import ListNotations.

Local Open Scope Z_scope.

(** ** Python primitives used by the source *)

Module Py.

(** What a [SpringIntegrationError] reports; the source formats
    these data into its message. *)
Inductive SpringFailure : Type :=
| SpringHttpError (status_code : Z) (message : string)
| SpringTimeout (attempt : Z)
| SpringConnectionFailed
| SpringMaxRetriesExceeded.

(** Exceptions that the modelled code raises or catches. *)
Inductive Exn : Type :=
| ValueError
| DirectoryInspectionError
| HTTPException (status_code : Z)
| SpringIntegrationError (failure : SpringFailure)
| OtherException (what : string).

(** A computation either returns or raises. *)
Inductive Res (A : Type) : Type :=
| Ok (a : A)
| Raise (e : Exn).
Arguments Ok {A} a.
Arguments Raise {A} e.

Definition is_raise {A} (r : Res A) : bool :=
  match r with Ok _ => false | Raise _ => true end.

(** [range(start, stop, step)] for a positive step: the loop
    [i = start; while i < stop: yield i; i += step], bounded by [fuel]. *)
Fixpoint range_up (fuel : nat) (i stop step : Z) : list Z :=
  match fuel with
  | O => []
  | S fuel' =>
      if i <? stop then i :: range_up fuel' (i + step) stop step else []
  end.

(** The same for a negative step. *)
Fixpoint range_down (fuel : nat) (i stop step : Z) : list Z :=
  match fuel with
  | O => []
  | S fuel' =>
      if stop <? i then i :: range_down fuel' (i + step) stop step else []
  end.

(** [range(start, stop, step)]: a zero step raises [ValueError]. *)
Definition range3 (start stop step : Z) : Res (list Z) :=
  if step =? 0 then Raise ValueError
  else if 0 <? step then Ok (range_up (Z.to_nat (stop - start)) start stop step)
  else Ok (range_down (Z.to_nat (start - stop)) start stop step).

(** [range(n)]. *)
Definition range (n : Z) : list Z :=
  range_up (Z.to_nat n) 0 n 1.

(** Index normalisation of a slice bound against a list of length [len]. *)
Definition slice_index (len k : Z) : Z :=
  if k <? 0 then Z.max 0 (k + len) else Z.min k len.

(** [l[lo:hi]]. *)
Definition slice {A} (l : list A) (lo hi : Z) : list A :=
  let len := Z.of_nat (List.length l) in
  let lo' := Z.to_nat (slice_index len lo) in
  let hi' := Z.to_nat (slice_index len hi) in
  firstn (hi' - lo') (skipn lo' l).

(** [enumerate(l, start)]. *)
Fixpoint enumerate {A} (l : list A) (start : Z) : list (Z * A) :=
  match l with
  | [] => []
  | x :: l' => (start, x) :: enumerate l' (start + 1)
  end.

End Py.
Import Py.

(** ** app/schemas/organization.py *)

Inductive OrganizationStrategy : Type :=
| COST_EFFECTIVE
| BALANCED
| PREMIUM.

(** [FileEntry]: timestamps are seconds since the epoch, the
    confidence score is the rational value of its decimal literal. *)
Record FileEntry : Type := {
  relative_path : string;
  absolute_path : string;
  is_directory : bool;
  size_bytes : Z;
  modified_at : Z;
  is_development : bool;
  file_type : option string;
  keywords : list string;
  caption : option string;
  confidence : Q
}.

(** Field constraints of [FileEntry]: [size_bytes >= 0] and
    [0.0 <= confidence <= 1.0]. *)
Definition FileEntry_valid (e : FileEntry) : bool :=
  (0 <=? size_bytes e) && Qle_bool 0 (confidence e) && Qle_bool (confidence e) 1.

Definition FileEntry_new (e : FileEntry) : Res FileEntry :=
  if FileEntry_valid e then Ok e else Raise (OtherException "ValidationError").

Record SnapshotBatchRequest : Type := {
  task_id : string;
  batch_number : Z;
  total_batches : Z;
  directory : string;
  user_id : string;
  strategy : OrganizationStrategy;
  max_cost_budget : option Q;
  generated_at : Z;
  entries : list FileEntry
}.

(** Field constraints of [SnapshotBatchRequest]: [batch_number >= 1],
    [total_batches >= 1] and [max_cost_budget >= 0] when present. *)
Definition SnapshotBatchRequest_valid (r : SnapshotBatchRequest) : bool :=
  (1 <=? batch_number r) && (1 <=? total_batches r) &&
  match max_cost_budget r with
  | None => true
  | Some budget => Qle_bool 0 budget
  end.

Definition SnapshotBatchRequest_new (r : SnapshotBatchRequest)
  : Res SnapshotBatchRequest :=
  if SnapshotBatchRequest_valid r then Ok r
  else Raise (OtherException "ValidationError").

Record SnapshotBatchResponse : Type := {
  ack_task_id : string;
  ack_batch_number : Z;
  ack_total_batches : Z;
  ack_status : string;
  ack_message : string;
  received_at : Z;
  next_batch_expected_at : option Z
}.

Record OrganizationRequest : Type := {
  path : string;
  req_strategy : OrganizationStrategy;
  req_max_cost_budget : option Q
}.

(** ** The file system as the traversal sees it *)

Record Stat : Type := { st_size : N; st_mtime : Z }.

(** One path yielded by [directory.rglob("*")]: its [name] and
    [suffix], [str(path)], [str(path.relative_to(directory))], the
    answers of [is_file()] and [is_dir()], and the result of [stat()]
    ([None] when it raises [OSError], as for a dangling link). *)
Record Path : Type := {
  name : string;
  suffix : string;
  path_str : string;
  relative_str : string;
  is_file : bool;
  is_dir : bool;
  stat : option Stat
}.

(** A resolved directory: [str(directory)] and what [rglob] yields. *)
Record Directory : Type := {
  dir_str : string;
  rglob : list Path
}.

(** [str.lower()] on the ASCII letters. *)
Definition lower_ascii (c : ascii) : ascii :=
  let n := nat_of_ascii c in
  if ((65 <=? n) && (n <=? 90))%nat then ascii_of_nat (n + 32) else c.

Fixpoint lower (s : string) : string :=
  match s with
  | EmptyString => EmptyString
  | String c s' => String (lower_ascii c) (lower s')
  end.

(** [s.startswith(p)]. *)
Definition startswith (s p : string) : bool := String.prefix p s.

(** [_get_file_type]. *)
Definition type_mapping : gmap string string :=
  list_to_map
    [ (".pdf", "pdf"); (".png", "image"); (".jpg", "image");
      (".jpeg", "image"); (".webp", "image"); (".xlsx", "xlsx");
      (".xls", "xlsx"); (".csv", "csv"); (".md", "markdown");
      (".txt", "text"); (".py", "python"); (".js", "javascript");
      (".ts", "typescript") ].

Definition _get_file_type (p : Path) : option string :=
  type_mapping !! lower (suffix p).

(** Result of the image handler. *)
Record ImageHighlights : Type := {
  ocr_lines : list string;
  img_caption : option string
}.

(** Truth value of an optional string ([None] and the empty string are false). *)
Definition truthy (s : option string) : bool :=
  match s with
  | Some (String _ _) => true
  | _ => false
  end.

(** [file_type == tag]. *)
Definition type_is (file_type : option string) (tag : string) : bool :=
  match file_type with
  | Some t => String.eqb t tag
  | None => false
  end.

(** ** app/routers/organization.py: traversal and extraction *)

(** [datetime.fromtimestamp(t, tz=timezone.utc)]: the years of a
    [datetime] run from 1 to 9999, that is from
    [0001-01-01T00:00:00] to [9999-12-31T23:59:59] in seconds since the
    epoch; a time stamp outside them raises ([ValueError], or
    [OverflowError] or [OSError] where the platform refuses it
    first). *)
Definition datetime_min : Z := -62135596800.
Definition datetime_max : Z := 253402300799.

Definition fromtimestamp (t : Z) : Res Z :=
  if (datetime_min <=? t) && (t <=? datetime_max) then Ok t
  else Raise ValueError.

Section Traversal.
(** The content-extraction collaborators, each of which may raise. *)
Variable extract_pdf_keywords : string -> Res (list string).
Variable extract_image_highlights : string -> Res ImageHighlights.
Variable build_summary_text : string -> Res (option string * string).

(** The inner [try] of the loop body: the values of [keywords],
    [caption] and [confidence] when it is left.  A handler that raises
    leaves the three initial values in place. *)
Definition extract_insights (p : Path) (file_type : option string)
  : list string * option string * Q :=
  let initial := ([], None, 0%Q) in
  if is_file p then
    if type_is file_type "pdf" then
      match extract_pdf_keywords (path_str p) with
      | Ok kws => (kws, None, 9 # 10)
      | Raise _ => initial
      end
    else if type_is file_type "image" then
      match extract_image_highlights (path_str p) with
      | Ok result => (ocr_lines result, img_caption result, 85 # 100)
      | Raise _ => initial
      end
    else if type_is file_type "xlsx" || type_is file_type "csv" then
      match build_summary_text (path_str p) with
      | Ok (cap, _) =>
          ((if truthy cap then [default EmptyString cap] else []), cap, 8 # 10)
      | Raise _ => initial
      end
    else initial
  else initial.

(** The outer [try] of the loop body: the [FileEntry] appended for
    one path, or the exception that makes the loop [continue].  The
    arguments of [FileEntry] are evaluated first: [stat()] may raise,
    and so may the conversion of the modification time. *)
Definition build_entry (p : Path) : Res FileEntry :=
  let file_type := _get_file_type p in
  let '(kws, cap, conf) := extract_insights p file_type in
  match stat p with
  | None => Raise (OtherException "OSError")
  | Some st =>
      match fromtimestamp (st_mtime st) with
      | Raise e => Raise e
      | Ok modified =>
          FileEntry_new
            {| relative_path := relative_str p;
               absolute_path := path_str p;
               is_directory := is_dir p;
               size_bytes := Z.of_N (st_size st);
               modified_at := modified;
               is_development := false;
               file_type := file_type;
               keywords := slice kws 0 5;
               caption := cap;
               confidence := conf |}
      end
  end.

(** The loop of [_collect_and_extract_files] over the remaining
    paths, [files] being the list built so far. *)
Fixpoint collect_loop (paths : list Path) (files : list FileEntry)
  : list FileEntry :=
  match paths with
  | [] => files
  | p :: rest =>
      if startswith (name p) "." then collect_loop rest files
      else
        match build_entry p with
        | Ok entry => collect_loop rest (files ++ [entry])
        | Raise _ => collect_loop rest files
        end
  end.

Definition _collect_and_extract_files (dir : Directory) : list FileEntry :=
  collect_loop (rglob dir) [].

(** Whether the dispatch of [extract_insights] has a branch for the
    type tag, and whether the handler it selects raises on the path. *)
Definition has_handler (file_type : option string) : bool :=
  type_is file_type "pdf" || type_is file_type "image"
  || type_is file_type "xlsx" || type_is file_type "csv".

Definition handler_raises (p : Path) : bool :=
  let file_type := _get_file_type p in
  if type_is file_type "pdf" then is_raise (extract_pdf_keywords (path_str p))
  else if type_is file_type "image" then
    is_raise (extract_image_highlights (path_str p))
  else if type_is file_type "xlsx" || type_is file_type "csv" then
    is_raise (build_summary_text (path_str p))
  else false.

(** [_extract_file_keywords] of [app/services/folder_inspection.py].
    The source shows the [pdf] and [image] branches and elides the
    others, which are taken as [other_keywords]. *)
Variable other_keywords : option string -> Path -> Res (list string).

Definition _extract_file_keywords (file_path : Path) : Res (list string) :=
  let file_type := _get_file_type file_path in
  let extracted :=
    if type_is file_type "pdf" then extract_pdf_keywords (path_str file_path)
    else if type_is file_type "image" then
      match extract_image_highlights (path_str file_path) with
      | Ok highlights => Ok (ocr_lines highlights)
      | Raise e => Raise e
      end
    else other_keywords file_type file_path in
  match extracted with
  | Ok kws => Ok (slice kws 0 5)
  | Raise e => Raise e
  end.
End Traversal.

(** ** app/routers/organization.py: batch builder *)

Section BatchBuilder.
Context {A : Type}.

(** [_chunk_files]: one slice per index of
    [range(0, len(files), batch_size)].  It does not look inside the
    records, so it is stated for any element type. *)
Definition _chunk_files (files : list A) (batch_size : Z)
  : Res (list (list A)) :=
  match range3 0 (Z.of_nat (List.length files)) batch_size with
  | Raise e => Raise e
  | Ok indices =>
      Ok (map (fun i => slice files i (i + batch_size)) indices)
  end.
End BatchBuilder.

(** [_get_batch_size]: the lookup has an entry for every strategy, so
    the default [50] of [mapping.get] is never used. *)
Definition _get_batch_size (strategy : OrganizationStrategy) : Z :=
  match strategy with
  | COST_EFFECTIVE => 100
  | BALANCED => 50
  | PREMIUM => 20
  end.

(** ** app/services/spring_integration.py: the delivery client *)

(** The body of an HTTP response, as far as the client looks at it: a
    JSON object that validates as a [SnapshotBatchResponse], another
    JSON object (with its optional [message] and [retryAfter] fields),
    or anything else. *)
Inductive Body : Type :=
| JsonAck (ack : SnapshotBatchResponse)
| JsonObject (message : option string) (retryAfter : option Z)
| NotJsonObject.

(** What one [client.post] does: a response arrives, or httpx raises
    [TimeoutException], or another [RequestError] (connection refused,
    DNS failure). *)
Inductive NetOutcome : Type :=
| Responded (status_code : Z) (body : Body)
| TimedOut
| ConnectFailed.

(** A task's entry in [_task_storage]. *)
Record TaskRecord : Type := {
  status : string;
  task_directory : string;
  total_files : Z;
  task_total_batches : Z;
  created_at : Z
}.

(** Observable events.  [Post payload attempt] is one [client.post] of
    [payload], made by iteration [attempt] of the retry loop; [Sleep]
    is one [asyncio.sleep]; the others are the log lines of
    [_send_batches_to_spring]. *)
Inductive Event : Type :=
| Post (payload : SnapshotBatchRequest) (attempt : Z)
| Sleep (seconds : Z)
| LogSending (batch_num : Z)
| LogSent (batch_num : Z)
| LogSendFailed (batch_num : Z)
| LogUnexpected (batch_num : Z).

(** The state the code runs in: the number of requests made so far,
    the events so far (oldest first) and the module-level
    [_task_storage]. *)
Record World : Type := {
  requests : nat;
  trace : list Event;
  _task_storage : gmap string TaskRecord
}.

Definition emit (e : Event) (w : World) : World :=
  {| requests := requests w;
     trace := trace w ++ [e];
     _task_storage := _task_storage w |}.

Definition asyncio_sleep (seconds : Z) (w : World) : World :=
  emit (Sleep seconds) w.

Record SpringClient : Type := {
  base_url : string;
  api_key : string;
  timeout : Q;
  max_retries : Z
}.

(** [SpringClient(base_url, api_key)] with the default [timeout] and
    [max_retries]. *)
Definition SpringClient_default (url key : string) : SpringClient :=
  {| base_url := url; api_key := key; timeout := 30; max_retries := 3 |}.

(** How one iteration of the retry loop ends. *)
Inductive Step : Type :=
| Return (ack : SnapshotBatchResponse)
| Throw (e : Exn)
| Continue (sleep : option Z).

Section Delivery.
(** The remote endpoint: the outcome of the [n]-th request made. *)
Variable net : nat -> NetOutcome.

Definition client_post (payload : SnapshotBatchRequest) (attempt : Z)
    (w : World) : NetOutcome * World :=
  (net (requests w),
   {| requests := S (requests w);
      trace := trace w ++ [Post payload attempt];
      _task_storage := _task_storage w |}).

(** The body of the [for attempt in range(self.max_retries)] loop,
    after the request: the [if]/[elif] chain on the status code and
    the two [except] clauses. *)
Definition handle_outcome (self : SpringClient) (attempt : Z)
    (o : NetOutcome) : Step :=
  match o with
  | Responded code body =>
      if code =? 200 then
        match body with
        | JsonAck ack => Return ack
        | JsonObject _ _ => Throw (OtherException "ValidationError")
        | NotJsonObject => Throw (OtherException "JSONDecodeError")
        end
      else if code =? 429 then Continue (Some (2 ^ attempt))
      else if 400 <=? code then
        match body with
        | JsonAck ack =>
            Throw (SpringIntegrationError (SpringHttpError code (ack_message ack)))
        | JsonObject message _ =>
            Throw (SpringIntegrationError
                     (SpringHttpError code (default "Unknown error" message)))
        | NotJsonObject => Throw (OtherException "JSONDecodeError")
        end
      else Continue None
  | TimedOut =>
      if attempt =? max_retries self - 1
      then Throw (SpringIntegrationError (SpringTimeout (attempt + 1)))
      else Continue (Some (2 ^ attempt))
  | ConnectFailed =>
      if attempt =? max_retries self - 1
      then Throw (SpringIntegrationError SpringConnectionFailed)
      else Continue (Some (2 ^ attempt))
  end.

(** The retry loop over the remaining attempt numbers; leaving the
    loop without a return raises. *)
Fixpoint attempt_loop (self : SpringClient) (payload : SnapshotBatchRequest)
    (attempts : list Z) (w : World) : Res SnapshotBatchResponse * World :=
  match attempts with
  | [] => (Raise (SpringIntegrationError SpringMaxRetriesExceeded), w)
  | attempt :: rest =>
      let '(o, w1) := client_post payload attempt w in
      match handle_outcome self attempt o with
      | Return ack => (Ok ack, w1)
      | Throw e => (Raise e, w1)
      | Continue None => attempt_loop self payload rest w1
      | Continue (Some seconds) =>
          attempt_loop self payload rest (asyncio_sleep seconds w1)
      end
  end.

Definition send_snapshot_batch (self : SpringClient)
    (batch_request : SnapshotBatchRequest) (w : World)
  : Res SnapshotBatchResponse * World :=
  attempt_loop self batch_request (range (max_retries self)) w.

(** ** app/routers/organization.py: sequential delivery *)

(** The arguments of [_send_batches_to_spring] that every batch shares. *)
Record SendArgs : Type := {
  arg_task_id : string;
  arg_directory : string;
  arg_user_id : string;
  arg_strategy : OrganizationStrategy;
  arg_max_cost_budget : option Q;
  arg_spring_client : SpringClient
}.

(** The loop of [_send_batches_to_spring] over the remaining
    [(batch_num, batch_files)] pairs; [clock batch_num] is the time
    read for [generated_at] when the request of that batch is built.
    Either [except] clause logs and leaves the loop. *)
Fixpoint send_loop (a : SendArgs) (total : Z) (clock : Z -> Z)
    (items : list (Z * list FileEntry)) (w : World) : World :=
  match items with
  | [] => w
  | (batch_num, batch_files) :: rest =>
      let w1 := emit (LogSending batch_num) w in
      match SnapshotBatchRequest_new
              {| task_id := arg_task_id a;
                 batch_number := batch_num;
                 total_batches := total;
                 directory := arg_directory a;
                 user_id := arg_user_id a;
                 strategy := arg_strategy a;
                 max_cost_budget := arg_max_cost_budget a;
                 generated_at := clock batch_num;
                 entries := batch_files |} with
      | Raise _ => emit (LogUnexpected batch_num) w1
      | Ok batch_request =>
          match send_snapshot_batch (arg_spring_client a) batch_request w1 with
          | (Ok response, w2) =>
              send_loop a total clock rest (emit (LogSent batch_num) w2)
          | (Raise (SpringIntegrationError _), w2) => emit (LogSendFailed batch_num) w2
          | (Raise _, w2) => emit (LogUnexpected batch_num) w2
          end
      end
  end.

Definition _send_batches_to_spring (a : SendArgs) (clock : Z -> Z)
    (batches : list (list FileEntry)) (w : World) : World :=
  send_loop a (Z.of_nat (List.length batches)) clock (enumerate batches 1) w.
End Delivery.

(** ** app/routers/organization.py: the [/organize] route *)

(** The content of the [202] response. *)
Record Accepted : Type := {
  taskId : string;
  resp_status : string;
  totalFiles : Z;
  totalBatches : Z
}.

Section Router.
Variable extract_pdf_keywords : string -> Res (list string).
Variable extract_image_highlights : string -> Res ImageHighlights.
Variable build_summary_text : string -> Res (option string * string).
(** [resolve_directory] of [app/services/folder_inspection.py]; it
    raises [DirectoryInspectionError] for a bad path. *)
Variable resolve_directory : string -> Res Directory.
Variable net : nat -> NetOutcome.

(** [organize_folder]: [task_id] is the fresh [uuid4], [now] the time
    read for [created_at] and [clock] the later readings of the
    delivery.  The delivery coroutine is handed to
    [asyncio.create_task], so it has not started when the route stores
    the task and answers; it is returned here as the function still to
    be run. *)
Definition organize_folder (task_id : string) (now : Z) (clock : Z -> Z)
    (request : OrganizationRequest) (spring_client : SpringClient) (w : World)
  : Res (Accepted * (World -> World)) * World :=
  match resolve_directory (path request) with
  | Raise DirectoryInspectionError => (Raise (HTTPException 400), w)
  | Raise _ => (Raise (HTTPException 500), w)
  | Ok dir =>
      let files :=
        _collect_and_extract_files extract_pdf_keywords
          extract_image_highlights build_summary_text dir in
      let batch_size := _get_batch_size (req_strategy request) in
      match _chunk_files files batch_size with
      | Raise _ => (Raise (HTTPException 500), w)
      | Ok batches =>
          let background :=
            _send_batches_to_spring net
              {| arg_task_id := task_id;
                 arg_directory := dir_str dir;
                 arg_user_id := "user_" ++ substring 0 12 task_id;
                 arg_strategy := req_strategy request;
                 arg_max_cost_budget := req_max_cost_budget request;
                 arg_spring_client := spring_client |}
              clock batches in
          let w' :=
            {| requests := requests w;
               trace := trace w;
               _task_storage :=
                 <[ task_id :=
                      {| status := "PROCESSING";
                         task_directory := dir_str dir;
                         total_files := Z.of_nat (List.length files);
                         task_total_batches := Z.of_nat (List.length batches);
                         created_at := now |} ]> (_task_storage w) |} in
          (Ok ({| taskId := task_id;
                  resp_status := "PROCESSING";
                  totalFiles := Z.of_nat (List.length files);
                  totalBatches := Z.of_nat (List.length batches) |},
               background), w')
      end
  end.

(** A whole task: the route, then the delivery coroutine it scheduled. *)
Definition run_task (task_id : string) (now : Z) (clock : Z -> Z)
    (request : OrganizationRequest) (spring_client : SpringClient) (w : World)
  : World :=
  match organize_folder task_id now clock request spring_client w with
  | (Ok (_, background), w') => background w'
  | (Raise _, w') => w'
  end.

(** The local part of [get_organization_status]. *)
Definition local_status (task_id : string) (w : World) : option string :=
  status <$> (_task_storage w !! task_id).
End Router.

(** ** PARA classification of [to_organized_file_entry] *)

Inductive ParaBucket : Type :=
| PROJECTS
| AREAS
| RESOURCES
| ARCHIVE.

(** The attributes of a [DirectoryEntry] that the classification reads. *)
Record DirectoryEntry : Type := {
  entry_is_development : bool;
  entry_keywords : list string
}.

(** Truth value of a list. *)
Definition nonempty {A} (l : list A) : bool :=
  match l with [] => false | _ :: _ => true end.

Definition para_bucket (entry : DirectoryEntry) : ParaBucket :=
  if entry_is_development entry then PROJECTS
  else if nonempty (entry_keywords entry) then RESOURCES
  else ARCHIVE.

(** The classification as a function of the two attributes. *)
Definition classify (isDevelopment : bool) (kws : list string) : ParaBucket :=
  para_bucket {| entry_is_development := isDevelopment; entry_keywords := kws |}.

(** ** frontend-client.ts: page size of the inspect-and-organize calls *)

Module Js.

(** A JavaScript [number] is an IEEE 754 binary64 value. *)
Definition number : Type := spec_float.

Definition NaN : number := S754_nan.
Definition Infinity : number := S754_infinity false.
Definition NegInfinity : number := S754_infinity true.

(** The literals of the source, with their 53-bit mantissas. *)
Definition n10 : number := S754_finite false 5629499534213120 (-49).
Definition n100 : number := S754_finite false 7036874417766400 (-46).
Definition n500 : number := S754_finite false 8796093022208000 (-44).

Definition isNaN (x : number) : bool :=
  match x with S754_nan => true | _ => false end.

Definition is_neg_zero (x : number) : bool :=
  match x with S754_zero true => true | _ => false end.

Definition is_pos_zero (x : number) : bool :=
  match x with S754_zero false => true | _ => false end.

(** [Math.min(...values)]: [NaN] if any value is [NaN]; otherwise the
    running [lowest] starts at [+Infinity] and is replaced by a value
    that is smaller, [-0] counting as smaller than [+0]. *)
Definition Math_min (values : list number) : number :=
  if existsb isNaN values then NaN
  else
    fold_left
      (fun lowest x =>
         if is_neg_zero x && is_pos_zero lowest then x
         else if SFltb x lowest then x else lowest)
      values Infinity.

(** [Math.max(...values)], symmetrically from [-Infinity]. *)
Definition Math_max (values : list number) : number :=
  if existsb isNaN values then NaN
  else
    fold_left
      (fun highest x =>
         if is_pos_zero x && is_neg_zero highest then x
         else if SFltb highest x then x else highest)
      values NegInfinity.

(** [x <= y] and membership in the closed range [[lo, hi]]. *)
Definition le (x y : number) : bool := SFleb x y.

Definition in_range (lo hi x : number) : bool := le lo x && le x hi.

End Js.

(** The request that [fetch] receives, as far as the page size goes:
    the endpoint, the value that [toString] renders into the
    [page_size] query parameter, and the [path] of the JSON body. *)
Record FetchRequest : Type := {
  endpoint : string;
  page_size : Js.number;
  body_path : string
}.

(** A parameter with a default value takes it when the caller omits
    the argument. *)
Definition with_default {A} (dflt : A) (arg : option A) : A :=
  match arg with Some x => x | None => dflt end.

Definition inspectAndOrganizeFolder (path : string) (baseUrl : option string)
    (pageSize : option Js.number) : FetchRequest :=
  let baseUrl := with_default "http://localhost:8000" baseUrl in
  let pageSize := with_default Js.n100 pageSize in
  let validPageSize := Js.Math_max [Js.n10; Js.Math_min [pageSize; Js.n500]] in
  {| endpoint := baseUrl ++ "/api/folders/inspect-and-organize";
     page_size := validPageSize;
     body_path := path |}.

Definition inspectAndOrganizeWithGeneration (path : string)
    (baseUrl : option string) (pageSize : option Js.number) : FetchRequest :=
  let baseUrl := with_default "http://localhost:8000" baseUrl in
  let pageSize := with_default Js.n100 pageSize in
  let validPageSize := Js.Math_max [Js.n10; Js.Math_min [pageSize; Js.n500]] in
  {| endpoint := baseUrl ++ "/api/folders/inspect-and-organize-with-generation";
     page_size := validPageSize;
     body_path := path |}.

(** ** Vocabulary for traces *)

(** The events of one retry step that follow its request. *)
Definition sleep_events (sleep : option Z) : list Event :=
  match sleep with
  | Some seconds => [Sleep seconds]
  | None => []
  end.

(** The durations of the sleeps of a trace, in order. *)
Fixpoint sleeps (evs : list Event) : list Z :=
  match evs with
  | [] => []
  | Sleep seconds :: evs' => seconds :: sleeps evs'
  | _ :: evs' => sleeps evs'
  end.

(** The number of requests of a trace. *)
Fixpoint count_posts (evs : list Event) : nat :=
  match evs with
  | [] => O
  | Post _ _ :: evs' => S (count_posts evs')
  | _ :: evs' => count_posts evs'
  end.

(** The batch numbers of the requests of a trace, in order. *)
Fixpoint posted (evs : list Event) : list Z :=
  match evs with
  | [] => []
  | Post payload _ :: evs' => batch_number payload :: posted evs'
  | _ :: evs' => posted evs'
  end.

Definition is_transport_failure (o : NetOutcome) : bool :=
  match o with
  | TimedOut | ConnectFailed => true
  | Responded _ _ => false
  end.

(** The trace of a delivery whose every attempt meets a transport
    failure: [n] requests from attempt [a] on, a sleep of [2 ^ attempt]
    seconds after each but the last. *)
Fixpoint backoff_events (payload : SnapshotBatchRequest) (a n : nat)
  : list Event :=
  match n with
  | O => []
  | S O => [Post payload (Z.of_nat a)]
  | S n' =>
      Post payload (Z.of_nat a) :: Sleep (2 ^ Z.of_nat a)
        :: backoff_events payload (S a) n'
  end.

Section Runs.
Variable net : nat -> NetOutcome.
Variable self : SpringClient.

(** [attempts_run payload base a n evs r]: the retry loop, entered
    with [n] attempts left of which the first has number [a], emits
    [evs] and ends with [r], request [base + k] being the one of
    attempt [k]. *)
Inductive attempts_run (payload : SnapshotBatchRequest) (base : nat)
  : nat -> nat -> list Event -> Res SnapshotBatchResponse -> Prop :=
| run_exhausted a :
    attempts_run payload base a 0 []
      (Raise (SpringIntegrationError SpringMaxRetriesExceeded))
| run_return a n ack :
    handle_outcome self (Z.of_nat a) (net (base + a)) = Return ack ->
    attempts_run payload base a (S n) [Post payload (Z.of_nat a)] (Ok ack)
| run_throw a n e :
    handle_outcome self (Z.of_nat a) (net (base + a)) = Throw e ->
    attempts_run payload base a (S n) [Post payload (Z.of_nat a)] (Raise e)
| run_continue a n sleep evs r :
    handle_outcome self (Z.of_nat a) (net (base + a)) = Continue sleep ->
    attempts_run payload base (S a) n evs r ->
    attempts_run payload base a (S n)
      (Post payload (Z.of_nat a) :: sleep_events sleep ++ evs) r.

(** The log line that closes a failed batch. *)
Definition failure_log (batch_num : Z) (e : Event) : Prop :=
  e = LogSendFailed batch_num \/ e = LogUnexpected batch_num.

(** [batches_run base n batches evs]: the delivery loop, entered at
    batch number [n] with [batches] left and [base] requests made,
    emits [evs]. *)
Inductive batches_run
  : nat -> Z -> list (list FileEntry) -> list Event -> Prop :=
| batches_done base n :
    batches_run base n [] []
| batches_invalid base n b rest :
    batches_run base n (b :: rest) [LogSending n; LogUnexpected n]
| batches_sent base n b rest payload seg ack evs :
    batch_number payload = n -> entries payload = b ->
    attempts_run payload base 0 (Z.to_nat (max_retries self)) seg (Ok ack) ->
    batches_run (base + count_posts seg) (n + 1) rest evs ->
    batches_run base n (b :: rest) (LogSending n :: seg ++ LogSent n :: evs)
| batches_failed base n b rest payload seg exn e :
    batch_number payload = n -> entries payload = b ->
    attempts_run payload base 0 (Z.to_nat (max_retries self)) seg (Raise exn) ->
    failure_log n e ->
    batches_run base n (b :: rest) (LogSending n :: seg ++ [e]).
End Runs.

(** ** The statements of the specification that the code does not meet *)

(** "Completed if and only if every batch was delivered": the stored
    status reads [COMPLETED] exactly when each of the [total] batches
    was logged as sent. *)
Definition all_batches_sent (total : Z) (evs : list Event) : Prop :=
  forall n, 1 <= n <= total -> In (LogSent n) evs.

Definition completed_iff_all_sent (task : string) (total : Z) (w : World) : Prop :=
  local_status task w = Some "COMPLETED" <-> all_batches_sent total (trace w).

(** "After a rate-limited response carrying [retryAfter = r] the client
    waits at least [r] before the next attempt": in the trace [evs] of a
    delivery that started at request [base], a request answered by 429
    with [retryAfter = r] and followed by anything is followed by a
    sleep of at least [r]. *)
Definition honours_retry_after (net : nat -> NetOutcome) (base : nat)
    (evs : list Event) : Prop :=
  forall pre p k e post message r,
    evs = pre ++ Post p (Z.of_nat k) :: e :: post ->
    net (base + k)%nat = Responded 429 (JsonObject message (Some r)) ->
    exists seconds, e = Sleep seconds /\ r <= seconds.

(** "The back-off delays are capped": no delivery, whatever the
    client and the endpoint, sleeps longer than [cap] at once. *)
Definition delays_capped (cap : Z) : Prop :=
  forall (net : nat -> NetOutcome) self payload w seconds,
    In seconds
       (sleeps (skipn (List.length (trace w))
                  (trace (snd (send_snapshot_batch net self payload w))))) ->
    seconds <= cap.

(** "For every file without a matching handler a record is produced". *)
Definition record_produced (p : Path) (files : list FileEntry) : Prop :=
  exists entry, In entry files /\ absolute_path entry = path_str p.

(** "The page size sent is always within 10 and 500". *)
Definition page_size_in_bounds (r : FetchRequest) : bool :=
  Js.in_range Js.n10 Js.n500 (page_size r).

(** ** Concrete scenarios *)

Module Scenario.

Definition client : SpringClient :=
  SpringClient_default "http://localhost:8080" EmptyString.

Definition world0 : World :=
  {| requests := 0; trace := []; _task_storage := ∅ |}.

Definition ack : SnapshotBatchResponse :=
  {| ack_task_id := "task-1"; ack_batch_number := 1; ack_total_batches := 1;
     ack_status := "RECEIVED"; ack_message := "ok"; received_at := 0;
     next_batch_expected_at := None |}.

Definition payload : SnapshotBatchRequest :=
  {| task_id := "task-1"; batch_number := 1; total_batches := 1;
     directory := "/data"; user_id := "user_task-1"; strategy := BALANCED;
     max_cost_budget := None; generated_at := 0; entries := [] |}.

(** Endpoints: one that accepts everything, one that answers the
    first request with 429 and [retryAfter = 5], one that rejects
    everything with 400, one that never answers in time, and one that
    accepts the first request only. *)
Definition accepting : nat -> NetOutcome :=
  fun _ => Responded 200 (JsonAck ack).

Definition rate_limited_once : nat -> NetOutcome :=
  fun i =>
    match i with
    | O => Responded 429 (JsonObject (Some "RATE_LIMITED") (Some 5))
    | S _ => Responded 200 (JsonAck ack)
    end.

Definition rejecting : nat -> NetOutcome :=
  fun _ => Responded 400 (JsonObject (Some "INVALID_REQUEST") None).

Definition unreachable : nat -> NetOutcome :=
  fun _ => TimedOut.

Definition accepting_first_only : nat -> NetOutcome :=
  fun i =>
    match i with
    | O => Responded 200 (JsonAck ack)
    | S _ => ConnectFailed
    end.

(** Handlers: a PDF handler that raises, the others returning results. *)
Definition pdf_raises : string -> Res (list string) :=
  fun _ => Raise (OtherException "PdfReadError").

Definition pdf_many : string -> Res (list string) :=
  fun _ => Ok ["a"; "b"; "c"; "d"; "e"; "f"; "g"].

Definition image_ok : string -> Res ImageHighlights :=
  fun _ => Ok {| ocr_lines := ["line"]; img_caption := Some "photo" |}.

Definition sheet_ok : string -> Res (option string * string) :=
  fun _ => Ok (Some "Sales", "table").

Definition file (nm sfx : string) : Path :=
  {| name := nm; suffix := sfx; path_str := "/data/" ++ nm;
     relative_str := nm; is_file := true; is_dir := false;
     stat := Some {| st_size := 10; st_mtime := 0 |} |}.

Definition notes : Path := file "notes.txt" ".txt".
Definition report : Path := file "report.pdf" ".pdf".
Definition hidden : Path := file ".notes" EmptyString.

(** A link whose target is gone: not a file, and [stat] raises. *)
Definition dangling : Path :=
  {| name := "link.dat"; suffix := ".dat"; path_str := "/data/link.dat";
     relative_str := "link.dat"; is_file := false; is_dir := false;
     stat := None |}.

Definition folder : Directory :=
  {| dir_str := "/data"; rglob := [report; notes] |}.

Definition hidden_folder : Directory :=
  {| dir_str := "/data"; rglob := [hidden] |}.

Definition dangling_folder : Directory :=
  {| dir_str := "/data"; rglob := [dangling; notes] |}.

Definition resolve : string -> Res Directory := fun _ => Ok folder.

Definition request : OrganizationRequest :=
  {| path := "/data"; req_strategy := BALANCED; req_max_cost_budget := None |}.

Definition args : SendArgs :=
  {| arg_task_id := "task-1"; arg_directory := "/data";
     arg_user_id := "user_task-1"; arg_strategy := COST_EFFECTIVE;
     arg_max_cost_budget := None; arg_spring_client := client |}.

Definition entry (n : nat) : FileEntry :=
  {| relative_path := "f"; absolute_path := "/data/f"; is_directory := false;
     size_bytes := Z.of_nat n; modified_at := 0; is_development := false;
     file_type := None; keywords := []; caption := None; confidence := 0 |}.

(** The time read when the request of batch [n] is built. *)
Definition clock : Z -> Z := fun n => 1000 + n.

(** 250 records. *)
Definition many_files : list FileEntry := map entry (seq 0 250).

End Scenario.

(** ** Vocabulary for the properties of the traversal and of the retries *)

(** The paths for which the loop of [_collect_and_extract_files]
    appends a record: not hidden, [stat] succeeds and the modification
    time converts to a [datetime]. *)
Definition is_processed (p : Path) : bool :=
  negb (startswith (name p) ".")
  && match stat p with
     | Some st => negb (is_raise (fromtimestamp (st_mtime st)))
     | None => false
     end.

(** The metadata of a record agree with the path it was built from. *)
Definition describes (p : Path) (e : FileEntry) : Prop :=
  absolute_path e = path_str p /\
  relative_path e = relative_str p /\
  is_directory e = is_dir p /\
  file_type e = _get_file_type p /\
  is_development e = false /\
  exists st, stat p = Some st /\
             size_bytes e = Z.of_N (st_size st) /\
             modified_at e = st_mtime st.

(** The lower-case suffixes for which the traversal calls a handler. *)
Definition extracted_suffixes : list string :=
  [".pdf"; ".png"; ".jpg"; ".jpeg"; ".webp"; ".xlsx"; ".xls"; ".csv"].

(** The type tags of [type_mapping]. *)
Definition type_tags : list string :=
  ["pdf"; "image"; "xlsx"; "csv"; "markdown"; "text"; "python";
   "javascript"; "typescript"].

(** Sum of a list of integers. *)
Fixpoint sum_Z (l : list Z) : Z :=
  match l with
  | [] => 0
  | x :: l' => x + sum_Z l'
  end.

(** A response that makes the retry loop go on at once: a status code
    below 400 other than 200. *)
Definition is_other_status (o : NetOutcome) : bool :=
  match o with
  | Responded code _ => negb (code =? 200) && (code <? 400)
  | _ => false
  end.

Definition is_rate_limited (o : NetOutcome) : bool :=
  match o with
  | Responded code _ => code =? 429
  | _ => false
  end.

(** An outcome after which the retry loop moves to the next attempt,
    if one is left. *)
Definition is_retried (o : NetOutcome) : bool :=
  is_transport_failure o || is_rate_limited o || is_other_status o.

(** The trace of a delivery whose every attempt is answered by 429:
    a sleep follows every request, the last one too. *)
Fixpoint rate_limited_events (payload : SnapshotBatchRequest) (a n : nat)
  : list Event :=
  match n with
  | O => []
  | S n' =>
      Post payload (Z.of_nat a) :: Sleep (2 ^ Z.of_nat a)
        :: rate_limited_events payload (S a) n'
  end.

(** The trace of a delivery whose every attempt is answered by a
    status below 400 other than 200: requests without any sleep. *)
Fixpoint unslept_events (payload : SnapshotBatchRequest) (a n : nat)
  : list Event :=
  match n with
  | O => []
  | S n' => Post payload (Z.of_nat a) :: unslept_events payload (S a) n'
  end.

(** The request that [_send_batches_to_spring] builds for a batch. *)
Definition batch_request (a : SendArgs) (total : Z) (clock : Z -> Z)
    (batch_num : Z) (batch_files : list FileEntry) : SnapshotBatchRequest :=
  {| task_id := arg_task_id a;
     batch_number := batch_num;
     total_batches := total;
     directory := arg_directory a;
     user_id := arg_user_id a;
     strategy := arg_strategy a;
     max_cost_budget := arg_max_cost_budget a;
     generated_at := clock batch_num;
     entries := batch_files |}.

(** The trace of a run in which every batch is accepted at its first
    request, from batch number [n] on. *)
Fixpoint accepted_events (a : SendArgs) (total : Z) (clock : Z -> Z)
    (n : Z) (batches : list (list FileEntry)) : list Event :=
  match batches with
  | [] => []
  | b :: rest =>
      LogSending n :: Post (batch_request a total clock n b) 0 :: LogSent n
        :: accepted_events a total clock (n + 1) rest
  end.

(** Whether [SnapshotBatchRequest] accepts the budget. *)
Definition budget_ok (budget : option Q) : bool :=
  match budget with
  | None => true
  | Some b => Qle_bool 0 b
  end.

(** The confidence that the traversal records after the handler of a
    type tag returned. *)
Definition handler_confidence (file_type : option string) : Q :=
  if type_is file_type "pdf" then 9 # 10
  else if type_is file_type "image" then 85 # 100
  else if type_is file_type "xlsx" || type_is file_type "csv" then 8 # 10
  else 0.

(** The pairs of [type_mapping]. *)
Definition type_pairs : list (string * string) :=
  [ (".pdf", "pdf"); (".png", "image"); (".jpg", "image");
    (".jpeg", "image"); (".webp", "image"); (".xlsx", "xlsx");
    (".xls", "xlsx"); (".csv", "csv"); (".md", "markdown");
    (".txt", "text"); (".py", "python"); (".js", "javascript");
    (".ts", "typescript") ].

(** ** app/services/spring_integration.py: construction and the single-request calls *)

(** [s.rstrip("/")]. *)
Fixpoint rstrip_slash (s : string) : string :=
  match s with
  | EmptyString => EmptyString
  | String c s' =>
      match rstrip_slash s' with
      | EmptyString => if Ascii.eqb c "/" then EmptyString else String c EmptyString
      | rest => String c rest
      end
  end.

(** Whether the last character of a string is a slash. *)
Fixpoint ends_with_slash (s : string) : bool :=
  match s with
  | EmptyString => false
  | String c EmptyString => Ascii.eqb c "/"
  | String _ s' => ends_with_slash s'
  end.

(** A string of [n] slashes. *)
Fixpoint slashes (n : nat) : string :=
  match n with
  | O => EmptyString
  | S n' => String "/" (slashes n')
  end.

(** [SpringClient.__init__]; an omitted [timeout] or [max_retries]
    takes its default. *)
Definition SpringClient_init (url key : string) (timeout_arg : option Q)
    (max_retries_arg : option Z) : SpringClient :=
  {| base_url := rstrip_slash url;
     api_key := key;
     timeout := with_default 30%Q timeout_arg;
     max_retries := with_default 3 max_retries_arg |}.

(** [os.getenv(key, default)] on the environment [env]. *)
Definition getenv (env : gmap string string) (key dflt : string) : string :=
  default dflt (env !! key).

(** [get_spring_client]. *)
Definition get_spring_client (env : gmap string string) : SpringClient :=
  SpringClient_init
    (getenv env "SPRING_SERVER_URL" "http://localhost:8080")
    (getenv env "SPRING_API_KEY" EmptyString)
    None None.

(** The URLs that the methods of the client format. *)
Definition batch_url (self : SpringClient) : string :=
  base_url self ++ "/api/snapshots/batch".

Definition task_url (self : SpringClient) (task : string) : string :=
  base_url self ++ "/api/snapshots/tasks/" ++ task.

Definition result_url (self : SpringClient) (task : string) : string :=
  base_url self ++ "/api/snapshots/tasks/" ++ task ++ "/result".

Definition execution_result_url (self : SpringClient) (task : string) : string :=
  base_url self ++ "/api/snapshots/tasks/" ++ task ++ "/execution-result".

(** [_build_headers]. *)
Definition _build_headers (self : SpringClient) : gmap string string :=
  <[ "Content-Type" := "application/json" ]>
    (<[ "X-API-Key" := api_key self ]> ∅).

(** JSON values; the members of an object have distinct keys, as
    after parsing. *)
#[local] Unset Elimination Schemes.
Inductive Json : Type :=
| JNull
| JBool (b : bool)
| JNumber (n : Q)
| JString (s : string)
| JArray (items : list Json)
| JObject (members : list (string * Json)).
#[local] Set Elimination Schemes.

Inductive HttpMethod : Type := GET | POST.

(** One request of the single-request calls. *)
Record HttpRequest : Type := {
  http_method : HttpMethod;
  http_url : string;
  http_headers : gmap string string;
  http_json : option Json
}.

(** What the request meets: a response with its status code and its
    body ([None] when the body is not JSON), a [TimeoutException], or
    another [RequestError]. *)
Inductive HttpOutcome : Type :=
| HttpResponded (status_code : Z) (json : option Json)
| HttpTimedOut
| HttpRequestFailed.

Section Calls.
(** The remote endpoint for these calls: the outcome of the [n]-th
    request overall, given the request. *)
Variable http : nat -> HttpRequest -> HttpOutcome.

(** The body that [get_task_status], [get_organization_result] and
    [report_execution_result] share: one request; its JSON on 200, a
    [SpringIntegrationError] on any other status and on a
    [RequestError].  [label] stands for the words of the message.  The
    request is counted in [requests]; [trace] keeps to the delivery. *)
Definition request_once (label : string) (request : HttpRequest) (w : World)
  : Res Json * World :=
  let w' := {| requests := S (requests w);
               trace := trace w;
               _task_storage := _task_storage w |} in
  match http (requests w) request with
  | HttpResponded code body =>
      if code =? 200 then
        match body with
        | Some json => (Ok json, w')
        | None => (Raise (OtherException "JSONDecodeError"), w')
        end
      else (Raise (SpringIntegrationError (SpringHttpError code label)), w')
  | HttpTimedOut | HttpRequestFailed =>
      (Raise (SpringIntegrationError SpringConnectionFailed), w')
  end.

Definition get_task_status (self : SpringClient) (task : string) (w : World)
  : Res Json * World :=
  request_once "status query failed"
    {| http_method := GET; http_url := task_url self task;
       http_headers := _build_headers self; http_json := None |} w.

Definition get_organization_result (self : SpringClient) (task : string)
    (w : World) : Res Json * World :=
  request_once "result query failed"
    {| http_method := GET; http_url := result_url self task;
       http_headers := _build_headers self; http_json := None |} w.

(** [report_execution_result]; [executed_at] is the clock, rendered. *)
Definition report_execution_result (self : SpringClient) (task : string)
    (execution_summary : Json) (executed_at : string) (w : World)
  : Res Json * World :=
  request_once "completion report failed"
    {| http_method := POST; http_url := execution_result_url self task;
       http_headers := _build_headers self;
       http_json :=
         Some (JObject [ ("taskId", JString task);
                         ("status", JString "SUCCESS");
                         ("executionSummary", execution_summary);
                         ("executedAt", JString executed_at) ]) |} w.

(** ** app/routers/organization.py: the status route *)

(** The content of the response of [get_organization_status]. *)
Record StatusContent : Type := {
  status_taskId : string;
  localStatus : option TaskRecord;
  springStatus : Json
}.

(** [get_organization_status]: only [SpringIntegrationError] is
    caught, and answered by 503. *)
Definition get_organization_status (task : string) (spring_client : SpringClient)
    (w : World) : Res StatusContent * World :=
  let local_status := _task_storage w !! task in
  match get_task_status spring_client task w with
  | (Ok spring_status, w') =>
      (Ok {| status_taskId := task;
             localStatus := local_status;
             springStatus := spring_status |}, w')
  | (Raise (SpringIntegrationError _), w') => (Raise (HTTPException 503), w')
  | (Raise e, w') => (Raise e, w')
  end.
End Calls.

(** ** app/routers/organization.py: the [/reorganize/execute] route *)

(** [len(v)] of a parsed JSON value: defined for strings, lists and
    dictionaries. *)
Definition py_len (v : Json) : Res Z :=
  match v with
  | JString s => Ok (Z.of_nat (String.length s))
  | JArray items => Ok (Z.of_nat (List.length items))
  | JObject members => Ok (Z.of_nat (List.length members))
  | JNull | JBool _ | JNumber _ => Raise (OtherException "TypeError")
  end.

(** The content of the [202] response of [execute_reorganization]. *)
Record Executing : Type := {
  exec_taskId : option Json;
  exec_status : string
}.

(** [execute_reorganization]: [request] is the dictionary of the
    body.  The summary it builds is not used afterwards; building it
    calls [len] on the file operations. *)
Definition execute_reorganization (request : gmap string Json) : Res Executing :=
  let task := request !! "taskId" in
  match py_len (default (JArray []) (request !! "fileOperations")) with
  | Raise _ => Raise (HTTPException 500)
  | Ok total_operations =>
      Ok {| exec_taskId := task; exec_status := "EXECUTING" |}
  end.

(** ** app/services/message_queue.py: [RabbitMQPublisher] *)

(** The calls made to the message-queue library, with the connection
    or channel they are made on. *)
Inductive BrokerCall : Type :=
| ConnectRobust (url : string)
| OpenChannel (conn : nat)
| DeclareExchange (chan : nat) (exchange kind : string) (durable : bool)
| PublishMessage (chan : nat) (routing_key body content_type : string)
    (persistent : bool)
| CloseConnection (conn : nat).

(** The fields of a [RabbitMQPublisher]; a connection or channel is
    named by the number of the call that created it. *)
Record Publisher : Type := {
  pub_url : string;
  pub_connection : option nat;
  pub_channel : option nat
}.

(** [RabbitMQPublisher(url)]. *)
Definition Publisher_init (url : string) : Publisher :=
  {| pub_url := url; pub_connection := None; pub_channel := None |}.

Section MessageQueue.
(** Whether the [n]-th call to the library returns (it raises
    otherwise). *)
Variable broker_ok : nat -> bool.

(** One library call: it is logged, and returns its own number. *)
Definition broker_call (c : BrokerCall) (log : list BrokerCall)
  : Res nat * list BrokerCall :=
  (if broker_ok (List.length log) then Ok (List.length log)
   else Raise (OtherException "AMQPError"),
   log ++ [c]).

(** [connect]: the connection is stored before the channel is opened. *)
Definition publisher_connect (self : Publisher) (log : list BrokerCall)
  : Res unit * Publisher * list BrokerCall :=
  match broker_call (ConnectRobust (pub_url self)) log with
  | (Raise e, log1) => (Raise e, self, log1)
  | (Ok conn, log1) =>
      let self1 := {| pub_url := pub_url self;
                      pub_connection := Some conn;
                      pub_channel := pub_channel self |} in
      match broker_call (OpenChannel conn) log1 with
      | (Raise e, log2) => (Raise e, self1, log2)
      | (Ok chan, log2) =>
          (Ok tt,
           {| pub_url := pub_url self;
              pub_connection := Some conn;
              pub_channel := Some chan |}, log2)
      end
  end.

(** The part of [publish] after the connection test; [body] is the
    serialised message. *)
Definition publish_on (chan : nat) (topic body : string) (self : Publisher)
    (log : list BrokerCall) : Res unit * Publisher * list BrokerCall :=
  match broker_call (DeclareExchange chan "nebula_events" "topic" true) log with
  | (Raise e, log1) => (Raise e, self, log1)
  | (Ok _, log1) =>
      match broker_call
              (PublishMessage chan topic body "application/json" true) log1 with
      | (Raise e, log2) => (Raise e, self, log2)
      | (Ok _, log2) => (Ok tt, self, log2)
      end
  end.

(** [publish]: connects first when there is no channel yet. *)
Definition publisher_publish (topic body : string) (self : Publisher)
    (log : list BrokerCall) : Res unit * Publisher * list BrokerCall :=
  match pub_channel self with
  | Some chan => publish_on chan topic body self log
  | None =>
      match publisher_connect self log with
      | (Raise e, self1, log1) => (Raise e, self1, log1)
      | (Ok _, self1, log1) =>
          match pub_channel self1 with
          | Some chan => publish_on chan topic body self1 log1
          | None => (Raise (OtherException "AttributeError"), self1, log1)
          end
      end
  end.

(** [close]: closes the stored connection, if any, and clears no field. *)
Definition publisher_close (self : Publisher) (log : list BrokerCall)
  : Res unit * Publisher * list BrokerCall :=
  match pub_connection self with
  | None => (Ok tt, self, log)
  | Some conn =>
      match broker_call (CloseConnection conn) log with
      | (Raise e, log1) => (Raise e, self, log1)
      | (Ok _, log1) => (Ok tt, self, log1)
      end
  end.

(** Publishing the messages of a list one after the other, stopping at
    the first that raises. *)
Fixpoint publish_all (messages : list (string * string)) (self : Publisher)
    (log : list BrokerCall) : Res unit * Publisher * list BrokerCall :=
  match messages with
  | [] => (Ok tt, self, log)
  | (topic, body) :: rest =>
      match publisher_publish topic body self log with
      | (Raise e, self1, log1) => (Raise e, self1, log1)
      | (Ok _, self1, log1) => publish_all rest self1 log1
      end
  end.
End MessageQueue.

(** The number of connections opened in a log of library calls. *)
Fixpoint count_connects (log : list BrokerCall) : nat :=
  match log with
  | [] => O
  | ConnectRobust _ :: log' => S (count_connects log')
  | _ :: log' => count_connects log'
  end.

(** The calls of one message published on a channel. *)
Definition message_calls (chan : nat) (message : string * string)
  : list BrokerCall :=
  [ DeclareExchange chan "nebula_events" "topic" true;
    PublishMessage chan (fst message) (snd message) "application/json" true ].

(** Whether [len] is defined for the value found under a key of the
    body, the empty list standing for an absent key. *)
Definition is_sized (value : option Json) : bool :=
  match value with
  | None => true
  | Some (JString _ | JArray _ | JObject _) => true
  | Some (JNull | JBool _ | JNumber _) => false
  end.

(** The request that [get_task_status] makes. *)
Definition status_request (self : SpringClient) (task : string) : HttpRequest :=
  {| http_method := GET; http_url := task_url self task;
     http_headers := _build_headers self; http_json := None |}.

(** Whether a library call opens a connection, or closes one. *)
Definition is_connect (c : BrokerCall) : bool :=
  match c with ConnectRobust _ => true | _ => false end.

Definition closed_connections (log : list BrokerCall) : list nat :=
  flat_map (fun c => match c with CloseConnection conn => [conn] | _ => [] end)
           log.

(** ** frontend-client.ts: [inspectAndOrganizeBatch] *)

(** The request that [fetch] receives from [inspectAndOrganizeBatch]:
    it has no query parameter. *)
Record BatchFetchRequest : Type := {
  batch_endpoint : string;
  batch_body_path : string
}.

Definition inspectAndOrganizeBatch (path : string) (baseUrl : option string)
  : BatchFetchRequest :=
  let baseUrl := with_default "http://localhost:8000" baseUrl in
  {| batch_endpoint := baseUrl ++ "/api/folders/inspect-and-organize/batch";
     batch_body_path := path |}.

(** ** OrganizedFilesComponent.tsx: the two handlers *)

Module Component.

(** Skipping the white space and the line terminators of ECMAScript at
    the start of a string held in UTF-8: TAB, LF, VT, FF, CR, SP,
    U+00A0, U+1680, U+2000 to U+200A, U+2028, U+2029, U+202F, U+205F,
    U+3000 and U+FEFF. *)
Fixpoint skip_white_space (bytes : list N) : list N :=
  match bytes with
  | (9%N | 10%N | 11%N | 12%N | 13%N | 32%N) :: rest => skip_white_space rest
  | 194%N :: 160%N :: rest => skip_white_space rest
  | 225%N :: 154%N :: 128%N :: rest => skip_white_space rest
  | 226%N :: 128%N :: b :: rest =>
      if ((128 <=? b) && (b <=? 138) || (b =? 168) || (b =? 169) || (b =? 175))%N
      then skip_white_space rest
      else bytes
  | 226%N :: 129%N :: 159%N :: rest => skip_white_space rest
  | 227%N :: 128%N :: 128%N :: rest => skip_white_space rest
  | 239%N :: 187%N :: 191%N :: rest => skip_white_space rest
  | _ => bytes
  end.

(** [!folderPath.trim()]: the trimmed string is empty exactly when
    nothing is left after the leading white space. *)
Definition trims_to_empty (s : string) : bool :=
  match skip_white_space (map N_of_ascii (list_ascii_of_string s)) with
  | [] => true
  | _ :: _ => false
  end.

(** The [result] field of [OrganizeState]. *)
Record ResultView : Type := {
  directory : string;
  totalFiles : Js.number;
  savedCount : Js.number;
  updatedCount : Js.number;
  failedCount : Js.number
}.

Record OrganizeState : Type := {
  loading : bool;
  error : option string;
  success : bool;
  result : option ResultView
}.

(** The state that [useState] starts from. *)
Definition initial_state : OrganizeState :=
  {| loading := false; error := None; success := false; result := None |}.

(** [OrganizedFilesResponse] and [BatchProcessResponse], with the
    fields that the handlers read. *)
Record OrganizedFilesResponse : Type := {
  response_status : string;
  response_message : string;
  response_directory : string;
  response_totalFiles : Js.number;
  response_savedCount : Js.number;
  response_updatedCount : Js.number;
  response_failedCount : Js.number
}.

Record BatchProcessResponse : Type := {
  batch_directory : string;
  batch_totalFiles : Js.number;
  batch_totalBatches : Js.number
}.

(** The number [0]. *)
Definition zero : Js.number := S754_zero false.

(** What a [catch] clause receives: an [Error] with its message, or
    another value. *)
Inductive Thrown : Type :=
| ErrorObject (message : string)
| OtherValue.

(** How an awaited promise settles. *)
Inductive Settled (A : Type) : Type :=
| Resolved (value : A)
| Rejected (reason : Thrown).
Arguments Resolved {A} value.
Arguments Rejected {A} reason.

(** What a handler does, in order: the states it sets, the requests
    that its call of the client sends, and the alert it raises with the
    two numbers of its text. *)
Inductive UiEvent : Type :=
| SetState (s : OrganizeState)
| Fetch (request : FetchRequest)
| FetchBatch (request : BatchFetchRequest)
| Alert (files batches : Js.number).

(** The [catch] clause that both handlers share. *)
Definition failed (err : Thrown) : OrganizeState :=
  {| loading := false;
     error := Some match err with
                   | ErrorObject message => message
                   | OtherValue => "알 수 없는 에러가 발생했습니다"
                   end;
     success := false;
     result := None |}.

(** The first branch of both handlers: the functional update keeps
    every field of the previous state but [error]. *)
Definition path_missing (prev : OrganizeState) : OrganizeState :=
  {| loading := loading prev;
     error := Some "폴더 경로를 입력해주세요";
     success := success prev;
     result := result prev |}.

Definition started : OrganizeState :=
  {| loading := true; error := None; success := false; result := None |}.

(** [handleOrganize]: [api] gives how the call of
    [inspectAndOrganizeFolder] settles, given the request it sends;
    the result is the last state set and the events in order. *)
Definition handleOrganize (api : FetchRequest -> Settled OrganizedFilesResponse)
    (folderPath : string) (state : OrganizeState)
  : OrganizeState * list UiEvent :=
  if trims_to_empty folderPath then
    (path_missing state, [SetState (path_missing state)])
  else
    let request := inspectAndOrganizeFolder folderPath None None in
    let final :=
      match api request with
      | Resolved r =>
          if String.eqb (response_status r) "success" then
            {| loading := false;
               error := None;
               success := true;
               result :=
                 Some {| directory := response_directory r;
                         totalFiles := response_totalFiles r;
                         savedCount := response_savedCount r;
                         updatedCount := response_updatedCount r;
                         failedCount := response_failedCount r |} |}
          else
            {| loading := false;
               error := Some (response_message r);
               success := false;
               result := None |}
      | Rejected err => failed err
      end in
    (final, [SetState started; Fetch request; SetState final]).

(** [handleOrganizeBatch]. *)
Definition handleOrganizeBatch
    (api : BatchFetchRequest -> Settled BatchProcessResponse)
    (folderPath : string) (state : OrganizeState)
  : OrganizeState * list UiEvent :=
  if trims_to_empty folderPath then
    (path_missing state, [SetState (path_missing state)])
  else
    let request := inspectAndOrganizeBatch folderPath None in
    match api request with
    | Resolved r =>
        let final :=
          {| loading := false;
             error := None;
             success := true;
             result :=
               Some {| directory := batch_directory r;
                       totalFiles := batch_totalFiles r;
                       savedCount := zero;
                       updatedCount := zero;
                       failedCount := zero |} |} in
        (final,
         [SetState started; FetchBatch request; SetState final;
          Alert (batch_totalFiles r) (batch_totalBatches r)])
    | Rejected err =>
        (failed err, [SetState started; FetchBatch request; SetState (failed err)])
    end.

(** What the component renders of a state: the error box for a
    non-empty [error], the success box for [success] with a [result],
    and the disabled controls while [loading]. *)
Definition shows_error (s : OrganizeState) : bool := truthy (error s).

Definition shows_success (s : OrganizeState) : bool :=
  success s && match result s with Some _ => true | None => false end.

(** The requests among the events of a handler. *)
Definition is_request (e : UiEvent) : bool :=
  match e with
  | Fetch _ | FetchBatch _ => true
  | SetState _ | Alert _ _ => false
  end.

End Component.

(** ** Further scenarios *)

Module Cases.

(** Endpoints: one that answers every request by 201, one that
    answers every request by 429. *)
Definition created : nat -> NetOutcome :=
  fun _ => Responded 201 NotJsonObject.

Definition throttled : nat -> NetOutcome :=
  fun _ => Responded 429 (JsonObject None None).

(** A client that is configured for twelve attempts. *)
Definition patient : SpringClient :=
  {| base_url := "http://localhost:8080"; api_key := EmptyString;
     timeout := 30; max_retries := 12 |}.

(** A file whose modification time lies beyond the year 9999, and a
    directory that holds it before a text file. *)
Definition far : Path :=
  {| name := "far.txt"; suffix := ".txt"; path_str := "/data/far.txt";
     relative_str := "far.txt"; is_file := true; is_dir := false;
     stat := Some {| st_size := 10; st_mtime := 1000000000000 |} |}.

Definition far_folder : Directory :=
  {| dir_str := "/data"; rglob := [far; Scenario.notes] |}.

(** Two batches of one record each. *)
Definition two_batches : list (list FileEntry) :=
  [[Scenario.entry 0]; [Scenario.entry 1]].

(** A request whose budget is negative. *)
Definition overdrawn : OrganizationRequest :=
  {| path := "/data"; req_strategy := BALANCED;
     req_max_cost_budget := Some (-1 # 1)%Q |}.

(** The status endpoint answering 200 with a JSON object. *)
Definition task_status : Json :=
  JObject [("status", JString "RECEIVED")].

Definition status_endpoint : nat -> HttpRequest -> HttpOutcome :=
  fun _ _ => HttpResponded 200 (Some task_status).

(** Brokers: one that accepts every call, one that refuses the second
    call only. *)
Definition broker_up : nat -> bool := fun _ => true.

Definition channel_refused : nat -> bool :=
  fun i => negb (i =? 1)%nat.

(** A publisher that has connected. *)
Definition connected : Publisher :=
  {| pub_url := "amqp://localhost/";
     pub_connection := Some O;
     pub_channel := Some 1%nat |}.

(** The two calls of the front end resolving. *)
Definition organized : FetchRequest -> Component.Settled Component.OrganizedFilesResponse :=
  fun _ =>
    Component.Resolved
      {| Component.response_status := "success";
         Component.response_message := "done";
         Component.response_directory := "/data";
         Component.response_totalFiles := Js.n10;
         Component.response_savedCount := Js.n10;
         Component.response_updatedCount := Component.zero;
         Component.response_failedCount := Component.zero |}.

Definition batched
  : BatchFetchRequest -> Component.Settled Component.BatchProcessResponse :=
  fun _ =>
    Component.Resolved
      {| Component.batch_directory := "/data";
         Component.batch_totalFiles := Js.n500;
         Component.batch_totalBatches := Js.n10 |}.

End Cases.

(** * Properties *)

(** ** Sanity checks of the embedding *)

Example chunk_7_3 :
  _chunk_files [1;2;3;4;5;6;7] 3 = Ok [[1;2;3];[4;5;6];[7]].
Proof. reflexivity. Qed.

Example chunk_zero_step : _chunk_files [1;2;3] 0 = Raise ValueError.
Proof. reflexivity. Qed.

Example chunk_negative_step : _chunk_files [1;2;3] (-2) = Ok [].
Proof. reflexivity. Qed.

Example file_type_upper :
  _get_file_type {| name := "A.PDF"; suffix := ".PDF"; path_str := "/r/A.PDF";
                    relative_str := "A.PDF"; is_file := true; is_dir := false;
                    stat := None |} = Some "pdf".
Proof. vm_compute. reflexivity. Qed.

Example page_size_default :
  page_size (inspectAndOrganizeFolder "/d" None None) = Js.n100.
Proof. reflexivity. Qed.

Example page_size_nan :
  page_size (inspectAndOrganizeFolder "/d" None (Some Js.NaN)) = Js.NaN.
Proof. reflexivity. Qed.

Example literals_normalised :
  Js.n10 = binary_normalize 53 1024 10 0 false /\
  Js.n100 = binary_normalize 53 1024 100 0 false /\
  Js.n500 = binary_normalize 53 1024 500 0 false.
Proof. repeat split; reflexivity. Qed.

Example page_size_clamps :
  page_size (inspectAndOrganizeFolder "/d" None
               (Some (binary_normalize 53 1024 3 0 false))) = Js.n10 /\
  page_size (inspectAndOrganizeFolder "/d" None
               (Some (binary_normalize 53 1024 9000 0 false))) = Js.n500 /\
  page_size (inspectAndOrganizeFolder "/d" None
               (Some (binary_normalize 53 1024 200 0 false)))
    = binary_normalize 53 1024 200 0 false.
Proof. repeat split; reflexivity. Qed.

(** ** Batch builder *)

Section BatchBuilderFacts.
Context {A : Type}.
Implicit Types (l files : list A).

Lemma slice_window l (i b : Z) :
  0 <= i -> 0 < b ->
  slice l i (i + b) = firstn (Z.to_nat b) (skipn (Z.to_nat i) l).
Proof.
  intros Hi Hb. unfold slice, slice_index.
  destruct (Z.ltb_spec i 0) as [?|_]; [lia|].
  destruct (Z.ltb_spec (i + b) 0) as [?|_]; [lia|].
  set (len := Z.of_nat (List.length l)).
  destruct (Z.le_gt_cases i len) as [Hle|Hgt].
  - rewrite (Z.min_l i len) by lia.
    destruct (Z.le_gt_cases (i + b) len) as [Hle'|Hgt'].
    + rewrite (Z.min_l (i + b) len) by lia.
      f_equal. lia.
    + rewrite (Z.min_r (i + b) len) by lia.
      rewrite !firstn_all2; [reflexivity| |]; rewrite length_skipn; subst len; lia.
  - rewrite (Z.min_r i len), (Z.min_r (i + b) len) by lia.
    rewrite !skipn_all2 by (subst len; lia).
    now rewrite !firstn_nil.
Qed.

Lemma range_up_nth fuel : forall i stop step k x,
  nth_error (range_up fuel i stop step) k = Some x ->
  x = i + Z.of_nat k * step /\ x < stop.
Proof.
  induction fuel as [|fuel IH]; intros i stop step k x; cbn [range_up].
  - destruct k; discriminate.
  - destruct (Z.ltb_spec i stop) as [Hlt|Hge]; [|destruct k; discriminate].
    destruct k as [|k]; cbn [nth_error].
    + intros [= <-]. lia.
    + intros Hk. apply IH in Hk. lia.
Qed.

Lemma range_up_length fuel : forall i stop step,
  0 < step -> (Z.to_nat (stop - i) <= fuel)%nat ->
  Z.of_nat (List.length (range_up fuel i stop step)) = Z.max 0 ((stop - i + step - 1) / step).
Proof.
  induction fuel as [|fuel IH]; intros i stop step Hstep Hfuel; cbn [range_up].
  - cbn [List.length]. 
    assert ((stop - i + step - 1) / step <= 0); [|lia].
    apply Z.lt_succ_r, Z.div_lt_upper_bound; lia.
  - destruct (Z.ltb_spec i stop) as [Hlt|Hge].
    + cbn [List.length]. rewrite Nat2Z.inj_succ, IH by lia.
      replace (stop - i + step - 1) with (stop - (i + step) + step - 1 + 1 * step) by lia.
      rewrite Z.div_add by lia.
      assert (0 <= (stop - (i + step) + step - 1) / step)
        by (apply Z.div_pos; lia).
      lia.
    + cbn [List.length].
      assert ((stop - i + step - 1) / step <= 0); [|lia].
      apply Z.lt_succ_r, Z.div_lt_upper_bound; lia.
Qed.

Lemma chunks_concat l (b : Z) fuel : forall i,
  0 < b -> 0 <= i ->
  (Z.to_nat (Z.of_nat (List.length l) - i) <= fuel)%nat ->
  concat (map (fun j => slice l j (j + b))
            (range_up fuel i (Z.of_nat (List.length l)) b))
  = skipn (Z.to_nat i) l.
Proof.
  induction fuel as [|fuel IH]; intros i Hb Hi Hfuel; cbn [range_up].
  - cbn. symmetry. apply skipn_all2. lia.
  - destruct (Z.ltb_spec i (Z.of_nat (List.length l))) as [Hlt|Hge].
    + cbn [map concat]. rewrite IH by lia.
      rewrite slice_window by lia.
      replace (Z.to_nat (i + b)) with (Z.to_nat b + Z.to_nat i)%nat by lia.
      rewrite <- skipn_skipn. apply firstn_skipn.
    + cbn. symmetry. apply skipn_all2. lia.
Qed.

(** The batches of a successful [_chunk_files] call, for a positive size. *)
Lemma chunk_files_ok files (b : Z) :
  0 < b ->
  _chunk_files files b =
    Ok (map (fun i => slice files i (i + b))
          (range_up (List.length files) 0 (Z.of_nat (List.length files)) b)).
Proof.
  intros Hb. unfold _chunk_files, range3.
  destruct (Z.eqb_spec b 0) as [?|_]; [lia|].
  destruct (Z.ltb_spec 0 b) as [_|?]; [|lia].
  now rewrite Z.sub_0_r, Nat2Z.id.
Qed.

(** C1.  For a list of [N] records and a batch size [B > 0],
    [_chunk_files] returns without error; the number of batches is
    [ceil(N/B)], written [(N + B - 1) / B] and characterised by
    [N <= count * B < N + B]; the batches concatenated in order are
    the input list, so their sizes sum to [N]; every batch holds
    between [1] and [B] records and every batch but the last exactly
    [B]; and an empty input gives no batch. *)
Theorem chunk_files_partition files (B : Z) :
  0 < B ->
  let N := Z.of_nat (List.length files) in
  exists batches : list (list A),
    _chunk_files files B = Ok batches /\
    Z.of_nat (List.length batches) = (N + B - 1) / B /\
    N <= Z.of_nat (List.length batches) * B < N + B /\
    concat batches = files /\
    list_sum (map (@List.length A) batches) = List.length files /\
    (forall k batch, nth_error batches k = Some batch ->
       1 <= Z.of_nat (List.length batch) <= B /\
       ((S k < List.length batches)%nat -> Z.of_nat (List.length batch) = B)) /\
    (files = [] -> batches = []).
Proof.
  intros HB N.
  set (idx := range_up (List.length files) 0 N B).
  exists (map (fun i => slice files i (i + B)) idx).
  split; [apply chunk_files_ok; exact HB|].
  assert (Hlen : Z.of_nat (List.length idx) = (N + B - 1) / B).
  { subst idx. rewrite range_up_length by lia.
    rewrite Z.sub_0_r. apply Z.max_r, Z.div_pos; lia. }
  assert (Hcat : concat (map (fun i => slice files i (i + B)) idx) = files).
  { subst idx N. rewrite chunks_concat by lia. reflexivity. }
  rewrite length_map.
  split; [exact Hlen|]. split.
  { rewrite Hlen.
    pose proof (Z.div_mod (N + B - 1) B ltac:(lia)) as Hdm.
    pose proof (Z.mod_pos_bound (N + B - 1) B HB) as Hm. lia. }
  split; [exact Hcat|]. split.
  { rewrite <- length_concat, Hcat. reflexivity. }
  split.
  - intros k batch Hk.
    rewrite nth_error_map in Hk.
    destruct (nth_error idx k) as [i|] eqn:Hi; [|discriminate].
    injection Hk as <-.
    pose proof (range_up_nth _ _ _ _ _ _ Hi) as [Hieq HiN].
    rewrite slice_window by lia.
    rewrite length_firstn, length_skipn. split; [subst N; lia|].
    intros Hnext.
    destruct (nth_error idx (S k)) as [i'|] eqn:Hi'.
    + pose proof (range_up_nth _ _ _ _ _ _ Hi') as [Hi'eq Hi'N].
      subst N. lia.
    + apply nth_error_None in Hi'. lia.
  - intros ->. reflexivity.
Qed.
End BatchBuilderFacts.

(** The theorem at a list of seven records and batch size three. *)
Lemma chunk_files_partition_witness :
  0 < 3 /\
  exists batches : list (list Z),
    _chunk_files [1;2;3;4;5;6;7] 3 = Ok batches /\
    Z.of_nat (List.length batches) = (7 + 3 - 1) / 3 /\
    7 <= Z.of_nat (List.length batches) * 3 < 7 + 3 /\
    concat batches = [1;2;3;4;5;6;7] /\
    list_sum (map (@List.length Z) batches) = 7%nat /\
    (forall k batch, nth_error batches k = Some batch ->
       1 <= Z.of_nat (List.length batch) <= 3 /\
       ((S k < List.length batches)%nat -> Z.of_nat (List.length batch) = 3)) /\
    ([1;2;3;4;5;6;7] = [] -> batches = []).
Proof.
  split; [lia|].
  exact (chunk_files_partition [1;2;3;4;5;6;7] 3 ltac:(lia)).
Defined.

(** ** Delivery client *)

Lemma sleeps_app evs1 evs2 : sleeps (evs1 ++ evs2) = sleeps evs1 ++ sleeps evs2.
Proof.
  induction evs1 as [|e evs1 IH]; [reflexivity|].
  destruct e; cbn [sleeps app]; rewrite IH; reflexivity.
Qed.

Lemma count_posts_app evs1 evs2 :
  count_posts (evs1 ++ evs2) = (count_posts evs1 + count_posts evs2)%nat.
Proof.
  induction evs1 as [|e evs1 IH]; [reflexivity|].
  destruct e; cbn [count_posts app]; rewrite IH; reflexivity.
Qed.

Lemma posted_app evs1 evs2 : posted (evs1 ++ evs2) = posted evs1 ++ posted evs2.
Proof.
  induction evs1 as [|e evs1 IH]; [reflexivity|].
  destruct e; cbn [posted app]; rewrite IH; reflexivity.
Qed.

Lemma range_up_seq fuel : forall i,
  0 <= i ->
  range_up fuel i (i + Z.of_nat fuel) 1 = map Z.of_nat (seq (Z.to_nat i) fuel).
Proof.
  induction fuel as [|fuel IH]; intros i Hi; [reflexivity|].
  cbn [range_up seq map].
  destruct (Z.ltb_spec i (i + Z.of_nat (S fuel))) as [_|?]; [|lia].
  rewrite Z2Nat.id by lia. f_equal.
  replace (i + Z.of_nat (S fuel)) with ((i + 1) + Z.of_nat fuel) by lia.
  rewrite IH by lia. f_equal. f_equal. lia.
Qed.

Lemma range_seq n : range n = map Z.of_nat (seq 0 (Z.to_nat n)).
Proof.
  unfold range. destruct (Z.le_gt_cases n 0) as [Hle|Hgt].
  - replace (Z.to_nat n) with O by lia. reflexivity.
  - change (seq 0 (Z.to_nat n)) with (seq (Z.to_nat 0) (Z.to_nat n)).
    rewrite <- (range_up_seq (Z.to_nat n) 0) by lia.
    f_equal. lia.
Qed.

Section DeliveryFacts.
Variable net : nat -> NetOutcome.
Variable self : SpringClient.

(** A step that sleeps does so for [2 ^ attempt] seconds. *)
Lemma handle_outcome_sleep attempt o seconds :
  handle_outcome self attempt o = Continue (Some seconds) ->
  seconds = 2 ^ attempt.
Proof.
  unfold handle_outcome. intros H.
  repeat match type of H with
         | (if ?c then _ else _) = _ => destruct c
         | match ?x with _ => _ end = _ => destruct x
         end; congruence.
Qed.

(** The retry loop follows [attempts_run]; it only adds to the trace
    and leaves [_task_storage] alone. *)
Lemma attempt_loop_run payload base : forall n a w,
  requests w = (base + a)%nat ->
  exists evs,
    trace (snd (attempt_loop net self payload (map Z.of_nat (seq a n)) w))
      = trace w ++ evs /\
    requests (snd (attempt_loop net self payload (map Z.of_nat (seq a n)) w))
      = (requests w + count_posts evs)%nat /\
    _task_storage (snd (attempt_loop net self payload (map Z.of_nat (seq a n)) w))
      = _task_storage w /\
    attempts_run net self payload base a n evs
      (fst (attempt_loop net self payload (map Z.of_nat (seq a n)) w)).
Proof.
  induction n as [|n IH]; intros a w Hreq.
  - exists []. cbn. rewrite app_nil_r, Nat.add_0_r. repeat split. constructor.
  - cbn [seq map attempt_loop client_post]. rewrite Hreq.
    destruct (handle_outcome self (Z.of_nat a) (net (base + a))) as [ack|e|sleep] eqn:Hstep.
    + exists [Post payload (Z.of_nat a)]. cbn. repeat split; [lia|].
      now constructor.
    + exists [Post payload (Z.of_nat a)]. cbn. repeat split; [lia|].
      now constructor.
    + set (w1 := {| requests := S (base + a);
                    trace := trace w ++ [Post payload (Z.of_nat a)];
                    _task_storage := _task_storage w |}).
      destruct sleep as [seconds|].
      * destruct (IH (S a) (asyncio_sleep seconds w1)) as (evs & Htr & Hrq & Hst & Hrun);
          [cbn; lia|].
        exists (Post payload (Z.of_nat a) :: sleep_events (Some seconds) ++ evs).
        rewrite Htr, Hrq, Hst. cbn. rewrite <- !app_assoc. cbn.
        repeat split; [lia|].
        apply (run_continue net self payload base a n (Some seconds) evs _ Hstep Hrun).
      * destruct (IH (S a) w1) as (evs & Htr & Hrq & Hst & Hrun); [cbn; lia|].
        exists (Post payload (Z.of_nat a) :: sleep_events None ++ evs).
        rewrite Htr, Hrq, Hst. cbn. rewrite <- !app_assoc. cbn.
        repeat split; [lia|].
        apply (run_continue net self payload base a n None evs _ Hstep Hrun).
Qed.

Lemma send_snapshot_batch_run payload w :
  exists evs,
    trace (snd (send_snapshot_batch net self payload w)) = trace w ++ evs /\
    requests (snd (send_snapshot_batch net self payload w))
      = (requests w + count_posts evs)%nat /\
    _task_storage (snd (send_snapshot_batch net self payload w))
      = _task_storage w /\
    attempts_run net self payload (requests w) 0 (Z.to_nat (max_retries self)) evs
      (fst (send_snapshot_batch net self payload w)).
Proof.
  unfold send_snapshot_batch. rewrite range_seq.
  apply attempt_loop_run. lia.
Qed.

(** A run with an attempt left starts with its request. *)
Lemma run_head payload base a n evs r :
  attempts_run net self payload base a n evs r ->
  (n = O /\ evs = [] /\
     r = Raise (SpringIntegrationError SpringMaxRetriesExceeded)) \/
  exists evs', evs = Post payload (Z.of_nat a) :: evs'.
Proof. intros H. destruct H; eauto. Qed.

(** Every request of a run is an attempt of the run's payload, and
    what follows it is the run from that attempt on. *)
Lemma run_split payload base a n evs r :
  attempts_run net self payload base a n evs r ->
  forall pre p k post, evs = pre ++ Post p k :: post ->
  exists j m,
    p = payload /\ k = Z.of_nat j /\ (a <= j)%nat /\ (j + S m = a + n)%nat /\
    attempts_run net self payload base j (S m) (Post payload k :: post) r.
Proof.
  induction 1 as [a|a n ack Hstep|a n e Hstep|a n sleep evs r Hstep Hrun IH];
    intros pre p k post Heq.
  - destruct pre; discriminate.
  - destruct pre as [|e' pre]; [|destruct pre; discriminate].
    injection Heq as <- <- <-. exists a, n. repeat split; try lia.
    now constructor.
  - destruct pre as [|e' pre]; [|destruct pre; discriminate].
    injection Heq as <- <- <-. exists a, n. repeat split; try lia.
    now constructor.
  - destruct pre as [|e' pre].
    + injection Heq as <- <- <-. exists a, n. repeat split; try lia.
      now apply run_continue.
    + injection Heq as _ Heq.
      assert (Htail : exists pre', evs = pre' ++ Post p k :: post).
      { destruct sleep as [seconds|]; cbn in Heq.
        - destruct pre as [|e'' pre]; [discriminate|].
          injection Heq as _ Heq. eauto.
        - eauto. }
      destruct Htail as [pre' Hevs].
      destruct (IH _ _ _ _ Hevs) as (j & m & ? & ? & ? & ? & ?).
      exists j, m. repeat split; try assumption; lia.
Qed.

(** The attempt number of a request is the number of requests that
    the run made before it. *)
Lemma run_index payload base a n evs r :
  attempts_run net self payload base a n evs r ->
  forall pre p k post, evs = pre ++ Post p k :: post ->
  k = Z.of_nat (a + count_posts pre).
Proof.
  induction 1 as [a|a n ack Hstep|a n e Hstep|a n sleep evs r Hstep Hrun IH];
    intros pre p k post Heq.
  - destruct pre; discriminate.
  - destruct pre as [|e' pre]; [|destruct pre; discriminate].
    injection Heq as _ <-. cbn [count_posts]. f_equal. lia.
  - destruct pre as [|e' pre]; [|destruct pre; discriminate].
    injection Heq as _ <-. cbn [count_posts]. f_equal. lia.
  - destruct pre as [|e' pre].
    + injection Heq as _ <- _. cbn [count_posts]. f_equal. lia.
    + injection Heq as <- Heq.
      destruct sleep as [seconds|]; cbn [sleep_events app] in Heq.
      * destruct pre as [|e'' pre]; [discriminate|].
        injection Heq as <- Heq.
        rewrite (IH _ _ _ _ Heq). cbn [count_posts]. f_equal. lia.
      * rewrite (IH _ _ _ _ Heq). cbn [count_posts]. f_equal. lia.
Qed.

(** What follows the request of one attempt. *)
Lemma run_step payload base j m k post r :
  attempts_run net self payload base j (S m) (Post payload k :: post) r ->
  match handle_outcome self (Z.of_nat j) (net (base + j)) with
  | Return ack => post = [] /\ r = Ok ack
  | Throw e => post = [] /\ r = Raise e
  | Continue sleep =>
      exists evs, post = sleep_events sleep ++ evs /\
                  attempts_run net self payload base (S j) m evs r
  end.
Proof.
  intros H. inversion H; subst;
    match goal with
    | Hs : handle_outcome _ _ _ = _ |- _ => rewrite Hs
    end; eauto.
Qed.
End DeliveryFacts.

(** The sleeps of the full back-off sequence are the powers of two. *)
Lemma sleeps_backoff payload n : forall a,
  sleeps (backoff_events payload a (S n))
  = map (fun k => 2 ^ Z.of_nat k) (seq a n).
Proof.
  induction n as [|n IH]; intros a; [reflexivity|].
  change (backoff_events payload a (S (S n)))
    with (Post payload (Z.of_nat a) :: Sleep (2 ^ Z.of_nat a)
            :: backoff_events payload (S a) (S n)).
  cbn [sleeps seq map]. now rewrite IH.
Qed.

Section DeliveryTheorems.
Variable net : nat -> NetOutcome.
Variable self : SpringClient.

(** A run makes at most as many requests as it has attempts left. *)
Lemma run_posts_le payload base a n evs r :
  attempts_run net self payload base a n evs r ->
  (count_posts evs <= n)%nat.
Proof.
  induction 1 as [a|a n ack Hstep|a n e Hstep|a n sleep evs r Hstep Hrun IH];
    cbn [count_posts]; try lia.
  rewrite count_posts_app. destruct sleep; cbn; lia.
Qed.

(** The sleeps of a run grow strictly and lie between [2 ^ a] and
    [2 ^ (a + n - 1)]. *)
Lemma run_sleeps payload base a n evs r :
  attempts_run net self payload base a n evs r ->
  StronglySorted Z.lt (sleeps evs) /\
  Forall (fun s => 2 ^ Z.of_nat a <= s <= 2 ^ (Z.of_nat a + Z.of_nat n - 1))
    (sleeps evs).
Proof.
  induction 1 as [a|a n ack Hstep|a n e Hstep|a n sleep evs r Hstep Hrun [IHs IHb]];
    cbn [sleeps]; try (split; constructor).
  rewrite sleeps_app.
  assert (Hweak : Forall (fun s => 2 ^ Z.of_nat a < s
                                   <= 2 ^ (Z.of_nat a + Z.of_nat (S n) - 1))
                    (sleeps evs)).
  { eapply List.Forall_impl; [|exact IHb]. cbn beta. intros s [Hlo Hhi].
    replace (Z.of_nat a + Z.of_nat (S n) - 1)
      with (Z.of_nat (S a) + Z.of_nat n - 1) by lia.
    split; [|exact Hhi].
    eapply Z.lt_le_trans; [|exact Hlo].
    apply Z.pow_lt_mono_r; lia. }
  destruct sleep as [seconds|]; cbn [sleep_events sleeps app].
  - apply handle_outcome_sleep in Hstep. subst seconds. split.
    + constructor; [exact IHs|].
      eapply List.Forall_impl; [|exact Hweak]. cbn beta. lia.
    + constructor.
      * split; [lia|]. apply Z.pow_le_mono_r; lia.
      * eapply List.Forall_impl; [|exact Hweak]. cbn beta. lia.
  - split; [exact IHs|].
    eapply List.Forall_impl; [|exact Hweak]. cbn beta. lia.
Qed.

(** When every remaining attempt meets a transport failure the run
    is the full back-off sequence and ends in a
    [SpringIntegrationError]. *)
Lemma run_all_fail payload base a n evs r :
  attempts_run net self payload base a n evs r ->
  (a + n)%nat = Z.to_nat (max_retries self) ->
  (forall k, (a <= k < a + n)%nat ->
             is_transport_failure (net (base + k)) = true) ->
  evs = backoff_events payload a n /\
  exists failure, r = Raise (SpringIntegrationError failure).
Proof.
  induction 1 as [a|a n ack Hstep|a n e Hstep|a n sleep evs r Hstep Hrun IH];
    intros Hmax Hfail.
  - split; eauto.
  - specialize (Hfail a ltac:(lia)). unfold handle_outcome in Hstep.
    destruct (net (base + a)); [discriminate| |];
      destruct (Z.of_nat a =? max_retries self - 1); discriminate.
  - specialize (Hfail a ltac:(lia)). unfold handle_outcome in Hstep.
    destruct (net (base + a)); [discriminate| |];
      (destruct (Z.eqb_spec (Z.of_nat a) (max_retries self - 1)) as [Hlast|?];
       [|discriminate]);
      (assert (n = O) by lia; subst n);
      injection Hstep as <-; split; eauto.
  - pose proof (Hfail a ltac:(lia)) as Ha. unfold handle_outcome in Hstep.
    destruct (IH ltac:(lia) ltac:(intros; apply Hfail; lia)) as [-> Hr].
    destruct (net (base + a)); [discriminate| |];
      (destruct (Z.eqb_spec (Z.of_nat a) (max_retries self - 1)) as [?|Hnotlast];
       [discriminate|]);
      injection Hstep as <-;
      (destruct n as [|n]; [lia|]);
      split; [reflexivity|exact Hr|reflexivity|exact Hr].
Qed.

(** C7.  A response with a status code of 400 or more other than
    429 ends the delivery at once: the request that received it is
    the last event of the call (no sleep and no further attempt on
    the batch follows) and the call raises; it raises
    [SpringIntegrationError] with that status code whenever the body
    is a JSON object. *)
Theorem rejection_not_retried payload w pre p k post code body :
  trace (snd (send_snapshot_batch net self payload w))
    = trace w ++ pre ++ Post p (Z.of_nat k) :: post ->
  net (requests w + k) = Responded code body ->
  400 <= code -> code <> 429 ->
  post = [] /\
  is_raise (fst (send_snapshot_batch net self payload w)) = true /\
  (body <> NotJsonObject ->
   exists message,
     fst (send_snapshot_batch net self payload w)
     = Raise (SpringIntegrationError (SpringHttpError code message))).
Proof.
  intros Htrace Hnet H400 H429.
  destruct (send_snapshot_batch_run net self payload w)
    as (evs & Htr & _ & _ & Hrun).
  rewrite Htr in Htrace. apply app_inv_head in Htrace.
  destruct (run_split net self _ _ _ _ _ _ Hrun _ _ _ _ Htrace)
    as (j & m & -> & Hk & _ & _ & Hrun').
  apply Nat2Z.inj in Hk. subst j.
  apply run_step in Hrun'. rewrite Hnet in Hrun'. unfold handle_outcome in Hrun'.
  destruct (Z.eqb_spec code 200) as [?|_]; [lia|].
  destruct (Z.eqb_spec code 429) as [?|_]; [lia|].
  destruct (Z.leb_spec 400 code) as [_|?]; [|lia].
  destruct body; destruct Hrun' as [-> ->]; cbn [is_raise];
    (split; [reflexivity|split; [reflexivity|]]); intros Hbody; eauto.
  contradiction.
Qed.

(** One call of [send_snapshot_batch]: after a 429 response to
    attempt [k] the client sleeps [2 ^ k] seconds, whatever
    [retryAfter] the body carries, and then makes attempt [k + 1] with
    the same payload, unless [k] was the last attempt, in which case
    the call raises. *)
Lemma rate_limited_attempt payload w pre p k post body :
  trace (snd (send_snapshot_batch net self payload w))
    = trace w ++ pre ++ Post p (Z.of_nat k) :: post ->
  net (requests w + k) = Responded 429 body ->
  p = payload /\
  exists post',
    post = Sleep (2 ^ Z.of_nat k) :: post' /\
    ((post' = [] /\ Z.of_nat k = max_retries self - 1 /\
      fst (send_snapshot_batch net self payload w)
      = Raise (SpringIntegrationError SpringMaxRetriesExceeded)) \/
     (exists post'', post' = Post payload (Z.of_nat k + 1) :: post'')).
Proof.
  intros Htrace Hnet.
  destruct (send_snapshot_batch_run net self payload w)
    as (evs & Htr & _ & _ & Hrun).
  rewrite Htr in Htrace. apply app_inv_head in Htrace.
  destruct (run_split net self _ _ _ _ _ _ Hrun _ _ _ _ Htrace)
    as (j & m & -> & Hk & _ & Hm & Hrun').
  apply Nat2Z.inj in Hk. subst j. split; [reflexivity|].
  apply run_step in Hrun'. rewrite Hnet in Hrun'. cbn in Hrun'.
  destruct Hrun' as (evs' & -> & Hrest).
  exists evs'. split; [reflexivity|].
  destruct (run_head net self _ _ _ _ _ _ Hrest) as [(-> & -> & ->)|[evs'' ->]].
  - left. repeat split. lia.
  - right. exists evs''. do 2 f_equal. lia.
Qed.

(** The same in terms of the run of one call, the request being
    found by the number of requests before it. *)
Lemma run_rate_limited_at payload base evs r pre p k post body :
  attempts_run net self payload base 0 (Z.to_nat (max_retries self)) evs r ->
  evs = pre ++ Post p k :: post ->
  net (base + count_posts pre) = Responded 429 body ->
  p = payload /\ 0 <= k /\
  exists post',
    post = Sleep (2 ^ k) :: post' /\
    ((post' = [] /\ k = max_retries self - 1 /\
      r = Raise (SpringIntegrationError SpringMaxRetriesExceeded)) \/
     (k < max_retries self - 1 /\
      exists post'', post' = Post payload (k + 1) :: post'')).
Proof.
  intros Hrun Hevs Hnet.
  pose proof (run_index net self _ _ _ _ _ _ Hrun _ _ _ _ Hevs) as Hk.
  cbn [Nat.add] in Hk.
  destruct (run_split net self _ _ _ _ _ _ Hrun _ _ _ _ Hevs)
    as (j & m & -> & Hj & _ & Hm & Hrun').
  rewrite Hk in Hj. apply Nat2Z.inj in Hj. subst j.
  split; [reflexivity|]. split; [lia|].
  apply run_step in Hrun'. rewrite Hnet in Hrun'. cbn in Hrun'.
  destruct Hrun' as (evs' & -> & Hrest).
  exists evs'. rewrite Hk. split; [reflexivity|].
  destruct (run_head net self _ _ _ _ _ _ Hrest) as [(-> & -> & ->)|[evs'' ->]].
  - left. repeat split. lia.
  - right. split.
    + destruct m as [|m]; [inversion Hrest|]. lia.
    + exists evs''. do 2 f_equal. lia.
Qed.

Lemma strictly_sorted_le (l : list Z) :
  StronglySorted Z.lt l -> StronglySorted Z.le l.
Proof.
  induction 1 as [|x l Hs IH Hx]; constructor; [exact IH|].
  eapply List.Forall_impl; [|exact Hx]. cbn beta. lia.
Qed.

(** C6, as the code has it.  Whatever the endpoint answers, one
    delivery makes at most [max_retries] requests, and the delays it
    sleeps are non-decreasing (indeed strictly increasing), each at
    least one second and at most [2 ^ (max_retries - 1)]: the only
    bound is the one that the number of attempts gives, no cap being
    applied.  An attempt [k] that meets a transport failure (timeout
    or other request error) is followed by a sleep of exactly [2 ^ k]
    seconds and attempt [k + 1] on the same payload, unless it is the
    last attempt, which raises [SpringIntegrationError].  If every
    attempt meets a transport failure, exactly [max_retries] requests
    are made, the delays are 1, 2, 4, ... up to
    [2 ^ (max_retries - 2)], and the delivery raises
    [SpringIntegrationError]. *)
Theorem transport_failure_backoff payload w evs :
  trace (snd (send_snapshot_batch net self payload w)) = trace w ++ evs ->
  Z.of_nat (count_posts evs) <= Z.max 0 (max_retries self) /\
  StronglySorted Z.le (sleeps evs) /\
  StronglySorted Z.lt (sleeps evs) /\
  Forall (fun s => 1 <= s <= 2 ^ (max_retries self - 1)) (sleeps evs) /\
  (forall pre p k post,
     evs = pre ++ Post p (Z.of_nat k) :: post ->
     is_transport_failure (net (requests w + k)) = true ->
     p = payload /\
     ((Z.of_nat k = max_retries self - 1 /\ post = [] /\
       exists failure,
         fst (send_snapshot_batch net self payload w)
         = Raise (SpringIntegrationError failure)) \/
      (Z.of_nat k < max_retries self - 1 /\
       exists post',
         post = Sleep (2 ^ Z.of_nat k)
                  :: Post payload (Z.of_nat k + 1) :: post'))) /\
  ((forall k, Z.of_nat k < max_retries self ->
              is_transport_failure (net (requests w + k)) = true) ->
   evs = backoff_events payload 0 (Z.to_nat (max_retries self)) /\
   sleeps evs
   = map (fun k => 2 ^ Z.of_nat k) (seq 0 (Z.to_nat (max_retries self) - 1)) /\
   count_posts evs = Z.to_nat (max_retries self) /\
   exists failure,
     fst (send_snapshot_batch net self payload w)
     = Raise (SpringIntegrationError failure)).
Proof.
  intros Htrace.
  destruct (send_snapshot_batch_run net self payload w)
    as (evs0 & Htr & _ & _ & Hrun).
  rewrite Htr in Htrace. apply app_inv_head in Htrace. subst evs0.
  pose proof (run_posts_le _ _ _ _ _ _ Hrun) as Hposts.
  pose proof (run_sleeps _ _ _ _ _ _ Hrun) as [Hsorted Hbound].
  split; [lia|]. split; [now apply strictly_sorted_le|].
  split; [exact Hsorted|]. split.
  { eapply List.Forall_impl; [|exact Hbound]. cbn beta.
    intros s [Hlo Hhi]. split; [exact Hlo|].
    eapply Z.le_trans; [exact Hhi|].
    destruct (Z.le_gt_cases (max_retries self) 0) as [Hle|Hgt].
    - replace (Z.to_nat (max_retries self)) with O in Hhi by lia.
      cbn in Hhi. cbn in Hlo. lia.
    - apply Z.eq_le_incl. f_equal. lia. }
  split.
  - intros pre p k post Hevs Hfail.
    destruct (run_split net self _ _ _ _ _ _ Hrun _ _ _ _ Hevs)
      as (j & m & -> & Hk & _ & Hm & Hrun').
    apply Nat2Z.inj in Hk. subst j. split; [reflexivity|].
    apply run_step in Hrun'. unfold handle_outcome in Hrun'.
    destruct (net (requests w + k)); [discriminate| |];
      (destruct (Z.eqb_spec (Z.of_nat k) (max_retries self - 1)) as [Hlast|Hnot];
       [ left; destruct Hrun' as [-> ->]; eauto
       | right; destruct Hrun' as (evs' & -> & Hrest);
         split; [lia|];
         destruct (run_head net self _ _ _ _ _ _ Hrest) as [(-> & _)|[evs'' ->]];
         [lia|];
         exists evs''; cbn [sleep_events app]; do 3 f_equal; lia ]).
  - intros Hall.
    destruct (run_all_fail _ _ _ _ _ _ Hrun eq_refl) as [Hevs Hr].
    { intros k Hk. apply Hall. lia. }
    split; [exact Hevs|]. split.
    { rewrite Hevs. clear.
      destruct (Z.to_nat (max_retries self)) as [|n]; [reflexivity|].
      rewrite sleeps_backoff. cbn [Nat.sub]. now rewrite Nat.sub_0_r. }
    split; [|exact Hr].
    rewrite Hevs. clear.
    generalize 0%nat. induction (Z.to_nat (max_retries self)) as [|n IH];
      intros a; [reflexivity|].
    destruct n as [|n]; [reflexivity|].
    change (backoff_events payload a (S (S n)))
      with (Post payload (Z.of_nat a) :: Sleep (2 ^ Z.of_nat a)
              :: backoff_events payload (S a) (S n)).
    cbn [count_posts]. now rewrite IH.
Qed.
End DeliveryTheorems.

(** The bound on the delays comes from [max_retries] alone: the code
    takes no minimum with a fixed cap, so for any bound there is a
    configuration whose delivery to an endpoint that never answers in
    time sleeps longer. *)
Lemma backoff_delay_exceeds_any_bound (bound : Z) payload w :
  exists self seconds,
    In seconds
      (sleeps (skipn (List.length (trace w))
                 (trace (snd (send_snapshot_batch (fun _ => TimedOut) self
                                payload w))))) /\
    bound < seconds.
Proof.
  set (k := Z.to_nat (Z.max bound 0)).
  set (self := {| base_url := EmptyString; api_key := EmptyString;
                  timeout := 30; max_retries := Z.of_nat (S (S k)) |}).
  exists self, (2 ^ Z.of_nat k).
  destruct (send_snapshot_batch_run (fun _ => TimedOut) self payload w)
    as (evs & -> & _ & _ & Hrun).
  destruct (run_all_fail _ _ _ _ _ _ _ _ Hrun eq_refl) as [-> _];
    [reflexivity|].
  rewrite skipn_app, skipn_all, Nat.sub_diag. cbn [app].
  replace (Z.to_nat (max_retries self)) with (S (S k))
    by (cbn [max_retries self]; lia).
  change (skipn 0 (backoff_events payload 0 (S (S k))))
    with (backoff_events payload 0 (S (S k))).
  rewrite sleeps_backoff. split.
  - apply in_map_iff. exists k. split; [reflexivity|].
    apply in_seq. lia.
  - assert (Z.of_nat k < 2 ^ Z.of_nat k) by (apply Z.pow_gt_lin_r; lia).
    lia.
Qed.

(** ** Sequential delivery of the batches *)

Lemma app_cons_split {A} (pre : list A) : forall e post l1 l2,
  pre ++ e :: post = l1 ++ l2 ->
  (exists mid, l1 = pre ++ e :: mid /\ post = mid ++ l2) \/
  (exists mid, pre = l1 ++ mid /\ l2 = mid ++ e :: post).
Proof.
  induction pre as [|x pre IH]; intros e post l1 l2 Heq.
  - destruct l1 as [|y l1]; cbn in Heq.
    + right. exists []. auto.
    + injection Heq as <- ->. left. exists l1. auto.
  - destruct l1 as [|y l1]; cbn in Heq.
    + right. exists (x :: pre). subst l2. auto.
    + injection Heq as <- Heq.
      destruct (IH _ _ _ _ Heq) as [(mid & -> & ->)|(mid & -> & ->)].
      * left. exists mid. auto.
      * right. exists mid. auto.
Qed.

Lemma sorted_after_constant (n : Z) (l1 l2 : list Z) :
  Forall (fun x => x = n) l1 -> Forall (fun x => n <= x) l2 ->
  StronglySorted Z.le l2 -> StronglySorted Z.le (l1 ++ l2).
Proof.
  intros H1 H2 Hs. induction H1 as [|x l1 -> Hl1 IH]; [exact Hs|].
  cbn [app]. constructor; [exact IH|].
  apply Forall_app. split; [|exact H2].
  eapply List.Forall_impl; [|exact Hl1]. cbn beta. lia.
Qed.

Section SequentialFacts.
Variable net : nat -> NetOutcome.

(** The events of one delivery are requests of its payload and sleeps. *)
Lemma run_events self payload base a n evs r :
  attempts_run net self payload base a n evs r ->
  Forall (fun e => (exists k, e = Post payload k) \/ (exists s, e = Sleep s)) evs.
Proof.
  induction 1 as [a|a n ack Hstep|a n e Hstep|a n sleep evs r Hstep Hrun IH].
  - constructor.
  - constructor; [eauto|constructor].
  - constructor; [eauto|constructor].
  - constructor; [eauto|].
    apply Forall_app. split; [|exact IH].
    destruct sleep; cbn [sleep_events]; constructor; eauto.
Qed.

Lemma run_posted self payload base a n evs r :
  attempts_run net self payload base a n evs r ->
  Forall (fun x => x = batch_number payload) (posted evs).
Proof.
  intros H. apply run_events in H.
  induction H as [|e evs [[k ->]|[s ->]] _ IH]; cbn [posted]; auto.
Qed.

(** A delivery that returns does so on a 200 response whose body
    validates, received by its last request. *)
Lemma run_returned self payload base a n evs ack :
  attempts_run net self payload base a n evs (Ok ack) ->
  exists pre k,
    evs = pre ++ [Post payload (Z.of_nat k)] /\
    k = (a + count_posts pre)%nat /\
    net (base + k) = Responded 200 (JsonAck ack).
Proof.
  remember (Ok ack) as r eqn:Hr.
  induction 1 as [a|a n ack' Hstep|a n e Hstep|a n sleep evs r Hstep Hrun IH];
    try discriminate.
  - injection Hr as ->. exists [], a. cbn [app count_posts].
    split; [reflexivity|]. split; [lia|].
    unfold handle_outcome in Hstep.
    destruct (net (base + a)) as [code body| |];
      [|destruct (Z.of_nat a =? max_retries self - 1); discriminate..].
    destruct (Z.eqb_spec code 200) as [->|?].
    + destruct body; congruence.
    + destruct (code =? 429); [discriminate|].
      destruct (400 <=? code); [destruct body|]; discriminate.
  - destruct (IH Hr) as (pre & k & -> & Hk & Hnet).
    exists (Post payload (Z.of_nat a) :: sleep_events sleep ++ pre), k.
    split; [cbn [app]; now rewrite <- app_assoc|].
    split; [|exact Hnet].
    cbn [count_posts]. rewrite count_posts_app.
    destruct sleep; cbn [sleep_events count_posts]; lia.
Qed.

(** The delivery loop follows [batches_run]; it only adds to the
    trace and leaves [_task_storage] alone. *)
Lemma send_loop_run a total clock : forall batches n w,
  exists evs,
    trace (send_loop net a total clock (enumerate batches n) w) = trace w ++ evs /\
    _task_storage (send_loop net a total clock (enumerate batches n) w)
      = _task_storage w /\
    batches_run net (arg_spring_client a) (requests w) n batches evs.
Proof.
  induction batches as [|b rest IH]; intros n w.
  - exists []. cbn. rewrite app_nil_r. repeat split. constructor.
  - cbn [enumerate send_loop].
    set (w1 := emit (LogSending n) w).
    match goal with
    | |- context [SnapshotBatchRequest_new ?r] => set (request := r)
    end.
    unfold SnapshotBatchRequest_new.
    destruct (SnapshotBatchRequest_valid request).
    2:{ exists [LogSending n; LogUnexpected n]. cbn.
        rewrite <- app_assoc. repeat split. constructor. }
    destruct (send_snapshot_batch_run net (arg_spring_client a) request w1)
      as (seg & Htr & Hreq & Hst & Hrun).
    destruct (send_snapshot_batch net (arg_spring_client a) request w1)
      as [r w2].
    cbn [fst snd] in Htr, Hreq, Hst, Hrun.
    destruct r as [ack|exn].
    + destruct (IH (n + 1) (emit (LogSent n) w2)) as (evs & Htr' & Hst' & Hrun').
      exists (LogSending n :: seg ++ LogSent n :: evs).
      rewrite Htr', Hst'. cbn [emit trace _task_storage requests] in *.
      rewrite Htr, Hst. cbn. rewrite <- !app_assoc. cbn.
      repeat split.
      rewrite Hreq in Hrun'.
      apply (batches_sent net _ _ _ _ _ request seg ack evs);
        [reflexivity|reflexivity|exact Hrun|exact Hrun'].
    + assert (Hlog : exists e,
                 failure_log n e /\
                 match exn with
                 | SpringIntegrationError _ => emit (LogSendFailed n) w2
                 | _ => emit (LogUnexpected n) w2
                 end = emit e w2).
      { destruct exn; eexists; (split; [|reflexivity]);
          unfold failure_log; auto. }
      destruct Hlog as (e & He & Hemit).
      exists (LogSending n :: seg ++ [e]).
      replace (match exn with
               | SpringIntegrationError _ => emit (LogSendFailed n) w2
               | _ => emit (LogUnexpected n) w2
               end) with (emit e w2)
        by (symmetry; destruct exn; exact Hemit).
      cbn [emit trace _task_storage]. rewrite Htr, Hst. cbn.
      rewrite <- !app_assoc. cbn. repeat split.
      apply (batches_failed net _ _ _ _ _ request seg exn e);
        [reflexivity|reflexivity|exact Hrun|exact He].
Qed.
End SequentialFacts.

Section SequentialTheorems.
Variable net : nat -> NetOutcome.
Variable self : SpringClient.

(** The batch numbers requested by the loop never decrease and stay
    within the batches it was given. *)
Lemma batches_posted base n bs evs :
  batches_run net self base n bs evs ->
  Forall (fun x => n <= x < n + Z.of_nat (List.length bs)) (posted evs) /\
  StronglySorted Z.le (posted evs).
Proof.
  induction 1 as [base n|base n b rest
                 |base n b rest payload seg ack evs Hn Hb Hrun Hrest [IHr IHs]
                 |base n b rest payload seg exn e Hn Hb Hrun He].
  - split; constructor.
  - split; constructor.
  - pose proof (run_posted net _ _ _ _ _ _ _ Hrun) as Hseg. rewrite Hn in Hseg.
    cbn [posted]. rewrite posted_app. cbn [posted]. split.
    + apply Forall_app. split.
      * eapply List.Forall_impl; [|exact Hseg]. cbn beta. cbn [List.length]. lia.
      * eapply List.Forall_impl; [|exact IHr]. cbn beta. cbn [List.length]. lia.
    + apply (sorted_after_constant n); [exact Hseg| |exact IHs].
      eapply List.Forall_impl; [|exact IHr]. cbn beta. lia.
  - pose proof (run_posted net _ _ _ _ _ _ _ Hrun) as Hseg. rewrite Hn in Hseg.
    assert (Hnil : posted [e] = []) by (destruct He as [-> | ->]; reflexivity).
    cbn [posted]. rewrite posted_app, Hnil, app_nil_r. split.
    + eapply List.Forall_impl; [|exact Hseg]. cbn beta. cbn [List.length]. lia.
    + rewrite <- (app_nil_r (posted seg)).
      apply (sorted_after_constant n); [exact Hseg|constructor|constructor].
Qed.

(** Where an event of the loop's trace lies: in the turn of batch
    [n + i], every earlier batch having been logged as sent before it. *)
Lemma batches_locate base n bs evs :
  batches_run net self base n bs evs ->
  forall pre e post, evs = pre ++ e :: post ->
  exists i b,
    nth_error bs i = Some b /\
    (forall x, n <= x < n + Z.of_nat i -> In (LogSent x) pre) /\
    (e = LogSending (n + Z.of_nat i)
     \/ (e = LogSent (n + Z.of_nat i) /\
         exists earlier p k ack,
           pre = earlier ++ [Post p k] /\ batch_number p = n + Z.of_nat i /\
           net (base + count_posts earlier) = Responded 200 (JsonAck ack))
     \/ (failure_log (n + Z.of_nat i) e /\ post = [])
     \/ (exists p k, e = Post p k /\ batch_number p = n + Z.of_nat i /\
                     entries p = b)
     \/ (exists s, e = Sleep s)).
Proof.
  induction 1 as [base n|base n b rest
                 |base n b rest payload seg ack evs Hn Hb Hrun Hrest IH
                 |base n b rest payload seg exn e0 Hn Hb Hrun He];
    intros pre e post Heq.
  - destruct pre; discriminate.
  - exists O, b. split; [reflexivity|]. split; [intros; lia|].
    rewrite Z.add_0_r.
    destruct pre as [|x [|y pre]].
    + injection Heq as <- _. auto.
    + injection Heq as _ <- <-. right. right. left. unfold failure_log. auto.
    + destruct pre; discriminate.
  - destruct pre as [|x pre1].
    { injection Heq as <- _. exists O, b. rewrite Z.add_0_r.
      split; [reflexivity|]. split; [intros; lia|]. auto. }
    injection Heq as <- Heq. symmetry in Heq.
    destruct (app_cons_split _ _ _ _ _ Heq)
      as [(mid & Hseg & _)|(mid & -> & Hmid)].
    + exists O, b. rewrite Z.add_0_r.
      split; [reflexivity|]. split; [intros; lia|].
      pose proof (run_events net _ _ _ _ _ _ _ Hrun) as Hev.
      rewrite Hseg in Hev. apply Forall_app in Hev as [_ Hev].
      apply Forall_inv in Hev. destruct Hev as [[k ->]|[s ->]]; eauto 10.
    + destruct mid as [|y mid'].
      * injection Hmid as <- _. exists O, b. rewrite Z.add_0_r.
        split; [reflexivity|]. split; [intros; lia|].
        right. left. split; [reflexivity|].
        destruct (run_returned net _ _ _ _ _ _ _ Hrun) as (ps & k & -> & Hk & Hnet).
        exists (LogSending n :: ps), payload, (Z.of_nat k), ack.
        rewrite app_nil_r. split; [reflexivity|]. split; [exact Hn|].
        cbn [count_posts]. rewrite Hk in Hnet. exact Hnet.
      * injection Hmid as <- Hevs.
        destruct (IH _ _ _ Hevs) as (i & b' & Hnth & Hsent & Hcase).
        exists (S i), b'. split; [exact Hnth|].
        replace (n + Z.of_nat (S i)) with (n + 1 + Z.of_nat i) by lia.
        split.
        { intros x Hx. cbn [In]. right. rewrite !in_app_iff. cbn [In].
          destruct (Z.eq_dec x n) as [->|Hne]; [auto|].
          right. right. apply Hsent. lia. }
        destruct Hcase as [->|[[-> Hack]|[Hfail|[Hpost|Hsleep]]]]; auto.
        right. left. split; [reflexivity|].
        destruct Hack as (earlier & p & k & ack' & -> & Hp & Hnet').
        exists (LogSending n :: seg ++ LogSent n :: earlier), p, k, ack'.
        split; [cbn [app]; rewrite <- app_assoc; reflexivity|].
        split; [exact Hp|].
        cbn [count_posts]. rewrite count_posts_app. cbn [count_posts].
        rewrite Nat.add_assoc. exact Hnet'.
  - destruct pre as [|x pre1].
    { injection Heq as <- _. exists O, b. rewrite Z.add_0_r.
      split; [reflexivity|]. split; [intros; lia|]. auto. }
    injection Heq as <- Heq. symmetry in Heq.
    exists O, b. rewrite Z.add_0_r.
    split; [reflexivity|]. split; [intros; lia|].
    destruct (app_cons_split _ _ _ _ _ Heq)
      as [(mid & Hseg & _)|(mid & -> & Hmid)].
    + pose proof (run_events net _ _ _ _ _ _ _ Hrun) as Hev.
      rewrite Hseg in Hev. apply Forall_app in Hev as [_ Hev].
      apply Forall_inv in Hev. destruct Hev as [[k ->]|[s ->]]; eauto 10.
    + destruct mid as [|y mid'].
      * injection Hmid as <- <-. auto.
      * injection Hmid as _ Hnil. destruct mid'; discriminate.
Qed.

(** Without a failure line, every batch is logged as sent. *)
Lemma batches_complete base n bs evs :
  batches_run net self base n bs evs ->
  (forall e m, In e evs -> ~ failure_log m e) ->
  forall x, n <= x < n + Z.of_nat (List.length bs) -> In (LogSent x) evs.
Proof.
  induction 1 as [base n|base n b rest
                 |base n b rest payload seg ack evs Hn Hb Hrun Hrest IH
                 |base n b rest payload seg exn e0 Hn Hb Hrun He];
    intros Hclean x Hx.
  - cbn [List.length] in Hx. lia.
  - exfalso. apply (Hclean (LogUnexpected n) n); [cbn; auto|].
    unfold failure_log. auto.
  - cbn [In]. right. rewrite in_app_iff. cbn [In].
    destruct (Z.eq_dec x n) as [->|Hne]; [auto|].
    right. right. apply IH.
    + intros e m Hin. apply Hclean. cbn [In]. right.
      rewrite in_app_iff. cbn [In]. auto.
    + cbn [List.length] in Hx. lia.
  - exfalso. apply (Hclean e0 n); [|exact He].
    cbn [In]. right. rewrite in_app_iff. cbn [In]. auto.
Qed.
End SequentialTheorems.

Section OrchestratorTheorems.
Variable net : nat -> NetOutcome.

Lemma send_batches_run a clock batches w :
  exists evs,
    trace (_send_batches_to_spring net a clock batches w) = trace w ++ evs /\
    _task_storage (_send_batches_to_spring net a clock batches w)
      = _task_storage w /\
    batches_run net (arg_spring_client a) (requests w) 1 batches evs.
Proof. apply send_loop_run. Qed.

(** C2.  In the trace of one [_send_batches_to_spring] run the batch
    numbers of the requests never decrease and lie in
    [1 .. totalBatches]; a request of batch [n] carries the [n]-th
    batch and comes only after every batch below [n] was logged as
    sent; a batch is logged as sent only right after a request of it
    that received a 200 response with a valid body; after the line
    that logs a failed batch nothing follows, so no later batch is
    attempted; and when no batch fails every batch is sent. *)
Theorem batches_sent_in_order a clock batches w evs :
  trace (_send_batches_to_spring net a clock batches w) = trace w ++ evs ->
  StronglySorted Z.le (posted evs) /\
  Forall (fun n => 1 <= n <= Z.of_nat (List.length batches)) (posted evs) /\
  (forall pre p k post,
     evs = pre ++ Post p k :: post ->
     nth_error batches (Z.to_nat (batch_number p - 1)) = Some (entries p) /\
     forall n, 1 <= n < batch_number p -> In (LogSent n) pre) /\
  (forall pre n post,
     evs = pre ++ LogSent n :: post ->
     exists earlier p k ack,
       pre = earlier ++ [Post p k] /\ batch_number p = n /\
       net (requests w + count_posts earlier) = Responded 200 (JsonAck ack)) /\
  (forall pre n e post,
     evs = pre ++ e :: post -> failure_log n e -> post = []) /\
  ((forall e n, In e evs -> ~ failure_log n e) ->
   forall n, 1 <= n <= Z.of_nat (List.length batches) -> In (LogSent n) evs).
Proof.
  intros Htrace.
  destruct (send_batches_run a clock batches w) as (evs0 & Htr & _ & Hrun).
  rewrite Htr in Htrace. apply app_inv_head in Htrace. subst evs0.
  pose proof (batches_posted _ _ _ _ _ _ Hrun) as [Hrange Hsorted].
  split; [exact Hsorted|]. split.
  { eapply List.Forall_impl; [|exact Hrange]. cbn beta. lia. }
  split.
  { intros pre p k post Heq.
    destruct (batches_locate _ _ _ _ _ _ Hrun _ _ _ Heq)
      as (i & b & Hnth & Hsent & Hcase).
    destruct Hcase as [?|[[? _]|[[[?|?] _]|[(p' & k' & Hp & Hbn & Hb)|[s ?]]]]];
      try discriminate.
    injection Hp as <- <-. rewrite Hbn, Hb.
    replace (Z.to_nat (1 + Z.of_nat i - 1)) with i by lia.
    split; [exact Hnth|exact Hsent]. }
  split.
  { intros pre n post Heq.
    destruct (batches_locate _ _ _ _ _ _ Hrun _ _ _ Heq)
      as (i & b & _ & _ & Hcase).
    destruct Hcase as [?|[[Hn Hack]|[[[?|?] _]|[(p' & k' & ? & _)|[s ?]]]]];
      try discriminate.
    injection Hn as ->.
    destruct Hack as (earlier & p & k & ack & ? & ? & ?). eauto 10. }
  split.
  { intros pre n e post Heq He.
    destruct (batches_locate _ _ _ _ _ _ Hrun _ _ _ Heq)
      as (i & b & _ & _ & Hcase).
    destruct Hcase as [->|[[-> _]|[[_ ?]|[(p' & k' & -> & _)|[s ->]]]]];
      try assumption; destruct He; discriminate. }
  intros Hclean n Hn.
  apply (batches_complete _ _ _ _ _ _ Hrun Hclean). lia.
Qed.

Variable extract_pdf_keywords : string -> Res (list string).
Variable extract_image_highlights : string -> Res ImageHighlights.
Variable build_summary_text : string -> Res (option string * string).
Variable resolve_directory : string -> Res Directory.

(** C3, as the code has it.  When the route accepts a task it
    stores the status [PROCESSING], and the delivery run never
    writes to [_task_storage]: after the run the stored status is
    still [PROCESSING], whatever the endpoint answered, whether every
    batch was sent or one failed. *)
Theorem task_status_stays_processing task_id now clock request client w :
  is_raise (fst (organize_folder extract_pdf_keywords extract_image_highlights
                   build_summary_text resolve_directory net
                   task_id now clock request client w)) = false ->
  local_status task_id
    (snd (organize_folder extract_pdf_keywords extract_image_highlights
            build_summary_text resolve_directory net
            task_id now clock request client w)) = Some "PROCESSING" /\
  local_status task_id
    (run_task extract_pdf_keywords extract_image_highlights
       build_summary_text resolve_directory net
       task_id now clock request client w) = Some "PROCESSING".
Proof.
  unfold run_task, organize_folder.
  destruct (resolve_directory (path request)) as [dir|[]]; try discriminate.
  destruct (_chunk_files _ _) as [batches|]; [|discriminate].
  intros _. cbn [fst snd]. unfold local_status.
  match goal with
  | |- context [_send_batches_to_spring net ?a clock batches ?w'] =>
      destruct (send_batches_run a clock batches w') as (evs & _ & -> & _)
  end.
  cbn [_task_storage]. rewrite lookup_insert_eq. auto.
Qed.
End OrchestratorTheorems.

(** ** Traversal and extraction *)

Lemma slice_prefix {A} (l : list A) : slice l 0 5 = firstn 5 l.
Proof.
  unfold slice, slice_index. cbn [Z.ltb Z.compare].
  set (len := Z.of_nat (List.length l)).
  rewrite (Z.min_l 0 len) by lia.
  change (Z.to_nat 0) with O. rewrite Nat.sub_0_r.
  change (skipn 0 l) with l.
  destruct (Z.le_gt_cases 5 len) as [Hle|Hgt].
  - now rewrite (Z.min_l 5 len) by lia.
  - rewrite (Z.min_r 5 len) by lia. subst len. rewrite Nat2Z.id.
    now rewrite !firstn_all2 by lia.
Qed.

Section TraversalTheorems.
Variable extract_pdf_keywords : string -> Res (list string).
Variable extract_image_highlights : string -> Res ImageHighlights.
Variable build_summary_text : string -> Res (option string * string).

Local Abbreviation insights :=
  (extract_insights extract_pdf_keywords extract_image_highlights build_summary_text).
Local Abbreviation entry_of :=
  (build_entry extract_pdf_keywords extract_image_highlights build_summary_text).
Local Abbreviation collect :=
  (collect_loop extract_pdf_keywords extract_image_highlights build_summary_text).
Local Abbreviation collect_files :=
  (_collect_and_extract_files extract_pdf_keywords extract_image_highlights
     build_summary_text).
Local Abbreviation raises :=
  (handler_raises extract_pdf_keywords extract_image_highlights build_summary_text).

(** The confidence chosen by the dispatch always passes validation. *)
Lemma extract_insights_confidence p file_type :
  let conf := snd (insights p file_type) in
  Qle_bool 0 conf = true /\ Qle_bool conf 1 = true.
Proof.
  unfold extract_insights.
  repeat match goal with
         | |- context [if ?c then _ else _] => destruct c
         | |- context [match ?x with Ok _ => _ | Raise _ => _ end] => destruct x
         | |- context [let '(_, _) := ?x in _] => destruct x
         end; cbn; auto.
Qed.

(** A path whose [stat] succeeds and whose modification time
    converts always yields an entry. *)
Lemma build_entry_stat p st :
  stat p = Some st ->
  is_raise (fromtimestamp (st_mtime st)) = false ->
  exists entry,
    entry_of p = Ok entry /\
    absolute_path entry = path_str p /\
    relative_path entry = relative_str p /\
    file_type entry = _get_file_type p /\
    keywords entry
      = firstn 5 (fst (fst (insights p (_get_file_type p)))) /\
    caption entry = snd (fst (insights p (_get_file_type p))) /\
    confidence entry = snd (insights p (_get_file_type p)).
Proof.
  intros Hstat Htime. unfold build_entry.
  pose proof (extract_insights_confidence p (_get_file_type p)) as [Hlo Hhi].
  destruct (insights p (_get_file_type p)) as [[kws cap] conf].
  cbn [fst snd] in *. rewrite Hstat.
  destruct (fromtimestamp (st_mtime st)) as [modified|]; [|discriminate].
  unfold FileEntry_new, FileEntry_valid. cbn [size_bytes confidence].
  rewrite Hlo, Hhi.
  destruct (Z.leb_spec 0 (Z.of_N (st_size st))) as [_|?]; [|lia].
  cbn [andb]. eexists. split; [reflexivity|]. cbn.
  rewrite slice_prefix. repeat split.
Qed.

Lemma build_entry_keywords p entry :
  entry_of p = Ok entry -> (List.length (keywords entry) <= 5)%nat.
Proof.
  unfold build_entry.
  destruct (insights p (_get_file_type p)) as [[kws cap] conf].
  destruct (stat p) as [st|]; [|discriminate].
  destruct (fromtimestamp (st_mtime st)) as [modified|]; [|discriminate].
  unfold FileEntry_new. destruct (FileEntry_valid _); [|discriminate].
  intros [= <-]. cbn [keywords]. rewrite slice_prefix. apply firstn_le_length.
Qed.

(** A path whose [stat] raises, or whose modification time does not
    convert, yields no entry. *)
Lemma build_entry_dropped p :
  stat p = None
  \/ (exists st, stat p = Some st /\
                 is_raise (fromtimestamp (st_mtime st)) = true) ->
  is_raise (entry_of p) = true.
Proof.
  unfold build_entry.
  destruct (insights p (_get_file_type p)) as [[kws cap] conf].
  intros [->|(st & -> & Htime)]; [reflexivity|].
  destruct (fromtimestamp (st_mtime st)); [discriminate|reflexivity].
Qed.

(** Without a handler, or with a handler that raises, the dispatch
    leaves the initial values. *)
Lemma extract_insights_initial p :
  has_handler (_get_file_type p) = false \/ raises p = true ->
  insights p (_get_file_type p) = ([], None, 0%Q).
Proof.
  unfold has_handler, handler_raises, extract_insights.
  destruct (is_file p); [|reflexivity].
  destruct (type_is (_get_file_type p) "pdf").
  { intros [?|Hr]; [discriminate|].
    destruct (extract_pdf_keywords (path_str p)); [discriminate|reflexivity]. }
  destruct (type_is (_get_file_type p) "image").
  { intros [?|Hr]; [discriminate|].
    destruct (extract_image_highlights (path_str p)); [discriminate|reflexivity]. }
  destruct (type_is (_get_file_type p) "xlsx" || type_is (_get_file_type p) "csv") eqn:Hx.
  { intros [Hh|Hr].
    - cbn [orb] in Hh. rewrite Hh in Hx. discriminate.
    - destruct (build_summary_text (path_str p)); [discriminate|reflexivity]. }
  reflexivity.
Qed.

(** The loop appends to the list it was given, path by path. *)
Lemma collect_loop_acc paths : forall files,
  collect paths files = files ++ collect paths [].
Proof.
  induction paths as [|p rest IH]; intros files; cbn [collect_loop].
  - now rewrite app_nil_r.
  - destruct (startswith (name p) "."); [apply IH|].
    destruct (entry_of p) as [entry|]; [|apply IH].
    rewrite (IH (files ++ [entry])), (IH ([] ++ [entry])).
    now rewrite <- app_assoc.
Qed.

Lemma collect_loop_app l1 l2 :
  collect (l1 ++ l2) [] = collect l1 [] ++ collect l2 [].
Proof.
  induction l1 as [|p l1 IH]; [reflexivity|].
  cbn [app collect_loop].
  destruct (startswith (name p) "."); [exact IH|].
  destruct (entry_of p) as [entry|]; [|exact IH].
  rewrite (collect_loop_acc (l1 ++ l2)), (collect_loop_acc l1), IH.
  now rewrite <- app_assoc.
Qed.

Lemma collect_loop_in paths entry :
  In entry (collect paths []) ->
  exists p, In p paths /\ startswith (name p) "." = false /\
            entry_of p = Ok entry.
Proof.
  induction paths as [|p rest IH]; cbn [collect_loop]; [intros []|].
  destruct (startswith (name p) ".") eqn:Hdot.
  { intros Hin. destruct (IH Hin) as (q & ? & ? & ?). exists q. cbn; auto. }
  destruct (entry_of p) as [e|] eqn:Hp.
  - rewrite collect_loop_acc. cbn [app In]. intros [<-|Hin].
    + exists p. cbn; auto.
    + destruct (IH Hin) as (q & ? & ? & ?). exists q. cbn; auto.
  - intros Hin. destruct (IH Hin) as (q & ? & ? & ?). exists q. cbn; auto.
Qed.

(** C8, as the code has it.  For a path that the traversal does not
    skip as hidden (its name does not start with a dot), whose [stat]
    succeeds and whose modification time converts to a [datetime], if
    its type tag has no extraction handler or its handler raises, a
    record is still appended, with an empty keyword list, no caption
    and confidence 0; the records of the paths before and after it are
    what they would be without it, so the failure does not propagate
    and the traversal goes on.  A path that is hidden, whose [stat]
    raises or whose modification time does not convert yields no
    record, and the traversal goes on as well: its result is the one
    it has without that path. *)
Theorem extraction_failure_isolated dir before p after :
  rglob dir = before ++ p :: after ->
  (forall st,
     startswith (name p) "." = false ->
     stat p = Some st ->
     is_raise (fromtimestamp (st_mtime st)) = false ->
     has_handler (_get_file_type p) = false \/ raises p = true ->
     exists entry,
       absolute_path entry = path_str p /\
       keywords entry = [] /\
       caption entry = None /\
       confidence entry = 0%Q /\
       collect_files dir
       = collect before [] ++ entry :: collect after []) /\
  (startswith (name p) "." = true
   \/ stat p = None
   \/ (exists st, stat p = Some st /\
                  is_raise (fromtimestamp (st_mtime st)) = true) ->
   collect_files dir = collect before [] ++ collect after []).
Proof.
  intros Hdir. unfold _collect_and_extract_files.
  rewrite Hdir, collect_loop_app. split.
  - intros st Hdot Hstat Htime Hfail.
    destruct (build_entry_stat p st Hstat Htime)
      as (entry & Hentry & Habs & _ & _ & Hkw & Hcap & Hconf).
    rewrite (extract_insights_initial p Hfail) in Hkw, Hcap, Hconf.
    exists entry. repeat split; try assumption.
    f_equal. cbn [collect_loop]. rewrite Hdot, Hentry.
    apply collect_loop_acc.
  - intros Hdrop. f_equal. cbn [collect_loop].
    destruct (startswith (name p) ".") eqn:Hdot; [reflexivity|].
    destruct Hdrop as [?|Hdrop]; [discriminate|].
    apply build_entry_dropped in Hdrop.
    destruct (entry_of p); [discriminate|reflexivity].
Qed.

(** C9.  Every record that [_collect_and_extract_files] returns has
    at most five keywords: they are the first five that the dispatch
    produced for the path the record describes. *)
Theorem keywords_at_most_five dir entry :
  In entry (collect_files dir) ->
  (List.length (keywords entry) <= 5)%nat /\
  exists p,
    In p (rglob dir) /\ absolute_path entry = path_str p /\
    keywords entry = firstn 5 (fst (fst (insights p (_get_file_type p)))).
Proof.
  intros Hin.
  apply collect_loop_in in Hin as (p & Hp & _ & Hentry).
  split; [exact (build_entry_keywords p entry Hentry)|].
  exists p. split; [exact Hp|].
  destruct (stat p) as [st|] eqn:Hstat.
  - destruct (is_raise (fromtimestamp (st_mtime st))) eqn:Htime.
    + assert (Hdrop : is_raise (entry_of p) = true)
        by (apply build_entry_dropped; eauto).
      rewrite Hentry in Hdrop. discriminate.
    + destruct (build_entry_stat p st Hstat Htime)
        as (entry' & Hentry' & Habs & _ & _ & Hkw & _).
      rewrite Hentry in Hentry'. injection Hentry' as <-. auto.
  - assert (Hdrop : is_raise (entry_of p) = true)
      by (apply build_entry_dropped; auto).
    rewrite Hentry in Hdrop. discriminate.
Qed.

Variable other_keywords : option string -> Path -> Res (list string).

(** [_extract_file_keywords] returns at most five keywords too. *)
Lemma extract_file_keywords_bounded file_path kws :
  _extract_file_keywords extract_pdf_keywords extract_image_highlights
    other_keywords file_path = Ok kws ->
  (List.length kws <= 5)%nat.
Proof.
  unfold _extract_file_keywords.
  match goal with
  | |- match ?x with Ok _ => _ | Raise _ => _ end = _ -> _ => destruct x
  end; [|discriminate].
  intros [= <-]. rewrite slice_prefix. apply firstn_le_length.
Qed.
End TraversalTheorems.

(** ** PARA classification *)

(** C4.  The classification is a total function of the two
    attributes: [Projects] for a development entry, otherwise
    [Resources] for a non-empty keyword list, otherwise [Archive]; it
    yields exactly one bucket, never [Areas], and the bucket of an
    entry is the classification of its two attributes. *)
Theorem classify_total_pure (isDevelopment : bool) (kws : list string)
    (entry : DirectoryEntry) :
  classify isDevelopment kws
  = (if isDevelopment then PROJECTS
     else match kws with [] => ARCHIVE | _ :: _ => RESOURCES end) /\
  classify isDevelopment kws <> AREAS /\
  (exists! bucket, classify isDevelopment kws = bucket) /\
  para_bucket entry
  = classify (entry_is_development entry) (entry_keywords entry).
Proof.
  unfold classify, para_bucket. cbn [entry_is_development entry_keywords].
  split; [destruct isDevelopment, kws; reflexivity|].
  split; [destruct isDevelopment, kws; discriminate|].
  split; [|reflexivity].
  eexists. split; [reflexivity|]. auto.
Qed.

(** ** Page size of the front-end client *)

Lemma SFltb_leb x y : SFltb x y = true -> SFleb x y = true.
Proof. unfold SFltb, SFleb. destruct (SFcompare x y) as [[]|]; congruence. Qed.

Lemma SFcompare_antisym x y :
  SFcompare y x = option_map CompOpp (SFcompare x y).
Proof.
  destruct x as [[]|[]| |[] m1 e1], y as [[]|[]| |[] m2 e2];
    cbn [SFcompare option_map CompOpp]; try reflexivity;
    change (Pos.compare_cont Eq m2 m1) with (Pos.compare m2 m1);
    change (Pos.compare_cont Eq m1 m2) with (Pos.compare m1 m2);
    rewrite (Z.compare_antisym e1 e2), (Pos.compare_antisym m1 m2);
    destruct (e1 ?= e2); cbn [CompOpp]; try reflexivity;
    destruct (m1 ?= m2)%positive; reflexivity.
Qed.

Lemma SFleb_of_not_ltb x y :
  Js.isNaN x = false -> Js.isNaN y = false ->
  SFltb y x = false -> SFleb x y = true.
Proof.
  unfold SFltb, SFleb. rewrite (SFcompare_antisym x y).
  destruct x as [?|?| |? ? ?], y as [?|?| |? ? ?]; try discriminate; intros _ _;
    destruct (SFcompare _ _) as [[]|] eqn:Hc; cbn [option_map CompOpp];
    try congruence; cbn in Hc; discriminate.
Qed.

(** The value computed for [validPageSize] from a number other than [NaN]. *)
Lemma valid_page_size_value (x : Js.number) :
  Js.isNaN x = false ->
  Js.Math_max [Js.n10; Js.Math_min [x; Js.n500]]
  = if SFltb Js.n500 x then Js.n500 else if SFltb Js.n10 x then x else Js.n10.
Proof.
  intros Hx.
  assert (Hmin : Js.Math_min [x; Js.n500] = if SFltb Js.n500 x then Js.n500 else x).
  { destruct x as [[]|[]| |[] m e]; try discriminate; reflexivity. }
  rewrite Hmin. destruct (SFltb Js.n500 x); [reflexivity|].
  destruct x as [[]|[]| |[] m e]; try discriminate; reflexivity.
Qed.

(** For every argument other than [NaN], and when the argument is
    omitted, both calls send a page size within 10 and 500: the
    argument itself when it lies in that range, the nearer bound when
    it does not, and 100 by default. *)
Lemma page_size_clamped path baseUrl (x : Js.number) :
  Js.isNaN x = false ->
  page_size (inspectAndOrganizeFolder path baseUrl (Some x))
  = (if SFltb Js.n500 x then Js.n500 else if SFltb Js.n10 x then x else Js.n10) /\
  page_size (inspectAndOrganizeWithGeneration path baseUrl (Some x))
  = page_size (inspectAndOrganizeFolder path baseUrl (Some x)) /\
  page_size_in_bounds (inspectAndOrganizeFolder path baseUrl (Some x)) = true /\
  page_size (inspectAndOrganizeFolder path baseUrl None) = Js.n100 /\
  page_size (inspectAndOrganizeWithGeneration path baseUrl None) = Js.n100.
Proof.
  intros Hx. unfold page_size_in_bounds, inspectAndOrganizeFolder,
    inspectAndOrganizeWithGeneration.
  cbn [page_size with_default]. rewrite (valid_page_size_value x Hx).
  split; [reflexivity|]. split; [reflexivity|]. split; [|split; reflexivity].
  unfold Js.in_range, Js.le.
  destruct (SFltb Js.n500 x) eqn:H500; [reflexivity|].
  destruct (SFltb Js.n10 x) eqn:H10; [|reflexivity].
  rewrite (SFltb_leb _ _ H10), (SFleb_of_not_ltb x Js.n500 Hx eq_refl H500).
  reflexivity.
Qed.

(** C10, where the code departs from it.  With [NaN] as the page size
    both calls send [NaN]: [Math.min] and [Math.max] return [NaN] as
    soon as one argument is [NaN], so the value is not brought into
    the range from 10 to 500. *)
Theorem page_size_nan_not_clamped path baseUrl :
  page_size (inspectAndOrganizeFolder path baseUrl (Some Js.NaN)) = Js.NaN /\
  page_size (inspectAndOrganizeWithGeneration path baseUrl (Some Js.NaN)) = Js.NaN /\
  page_size_in_bounds (inspectAndOrganizeFolder path baseUrl (Some Js.NaN)) = false /\
  page_size_in_bounds (inspectAndOrganizeWithGeneration path baseUrl (Some Js.NaN))
  = false.
Proof. repeat split. Qed.

(** ** The theorems at concrete scenarios *)

Import Scenario.

(** The specification's scenario of 250 files with batch size 100:
    three batches of 100, 100 and 50 records; when the endpoint accepts
    the first request only, batch 2 is tried three times, batch 3 is
    never requested and the stored status is untouched. *)
Example scenario_250_files :
  (exists batches,
     _chunk_files many_files (_get_batch_size COST_EFFECTIVE) = Ok batches /\
     map (@List.length FileEntry) batches = [100; 100; 50]%nat /\
     posted (trace (_send_batches_to_spring accepting_first_only args clock
                      batches world0)) = [1; 2; 2; 2]) /\
  _chunk_files (@nil FileEntry) (_get_batch_size BALANCED) = Ok [].
Proof.
  split; [|reflexivity].
  eexists. split; [vm_compute; reflexivity|].
  split; vm_compute; reflexivity.
Qed.

(** Three batches, the endpoint accepting the first request only. *)
Lemma batches_sent_in_order_witness :
  let batches := [[entry 0]; [entry 1]; [entry 2]] in
  let w := _send_batches_to_spring accepting_first_only args clock batches world0 in
  trace w = trace world0 ++ trace w /\
  StronglySorted Z.le (posted (trace w)) /\
  Forall (fun n => 1 <= n <= 3) (posted (trace w)) /\
  posted (trace w) = [1; 2; 2; 2] /\
  (forall pre n e post,
     trace w = pre ++ e :: post -> failure_log n e -> post = []).
Proof.
  intros batches w.
  pose proof (batches_sent_in_order accepting_first_only args clock batches world0
                (trace w) eq_refl) as (Hsorted & Hrange & _ & _ & Habort & _).
  split; [reflexivity|]. split; [exact Hsorted|]. split; [exact Hrange|].
  split; [vm_compute; reflexivity|exact Habort].
Defined.

(** A folder of two files whose only batch is accepted. *)
Lemma task_status_stays_processing_witness :
  is_raise (fst (organize_folder pdf_raises image_ok sheet_ok resolve accepting
                   "task-1" 0 clock request client world0)) = false /\
  local_status "task-1"
    (run_task pdf_raises image_ok sheet_ok resolve accepting
       "task-1" 0 clock request client world0) = Some "PROCESSING".
Proof.
  split; [reflexivity|].
  exact (proj2 (task_status_stays_processing accepting pdf_raises image_ok
                  sheet_ok resolve "task-1" 0 clock request client world0 eq_refl)).
Defined.

(** C3 as stated fails.  Every batch of the task is accepted and
    logged as sent, yet the stored status is [PROCESSING] and not
    [COMPLETED]; and when the only batch is rejected the stored status
    is [PROCESSING] as well, no failure status being recorded. *)
Lemma completed_iff_all_sent_counterexample :
  let done := run_task pdf_raises image_ok sheet_ok resolve accepting
                "task-1" 0 clock request client world0 in
  let failed := run_task pdf_raises image_ok sheet_ok resolve rejecting
                  "task-1" 0 clock request client world0 in
  all_batches_sent 1 (trace done) /\
  local_status "task-1" done = Some "PROCESSING" /\
  ~ completed_iff_all_sent "task-1" 1 done /\
  In (LogSendFailed 1) (trace failed) /\
  local_status "task-1" failed = Some "PROCESSING".
Proof.
  intros done failed.
  assert (Hall : all_batches_sent 1 (trace done)).
  { intros n Hn. assert (n = 1) as -> by lia. vm_compute. auto. }
  assert (Hstatus : local_status "task-1" done = Some "PROCESSING")
    by (vm_compute; reflexivity).
  split; [exact Hall|]. split; [exact Hstatus|]. split.
  - intros [_ Hcompleted]. specialize (Hcompleted Hall).
    rewrite Hstatus in Hcompleted. discriminate.
  - split; [vm_compute; auto|vm_compute; reflexivity].
Qed.

(** C5 as stated fails.  The response to the first request is 429
    with [retryAfter = 5]; the client sleeps one second and sends the
    second request. *)
Lemma honours_retry_after_counterexample :
  let run := send_snapshot_batch rate_limited_once client payload world0 in
  trace (snd run) = [Post payload 0; Sleep 1; Post payload 1] /\
  ~ honours_retry_after rate_limited_once 0 (trace (snd run)).
Proof.
  intros run. split; [reflexivity|].
  intros Hclaim.
  destruct (Hclaim [] payload O (Sleep 1) [Post payload 1]
              (Some "RATE_LIMITED") 5 eq_refl eq_refl)
    as (seconds & Hsleep & Hwait).
  injection Hsleep as <-. lia.
Qed.

(** An endpoint that never answers in time. *)
Lemma transport_failure_backoff_witness :
  let run := send_snapshot_batch unreachable client payload world0 in
  trace (snd run) = trace world0 ++ trace (snd run) /\
  (forall k, Z.of_nat k < max_retries client ->
             is_transport_failure (unreachable (requests world0 + k)) = true) /\
  trace (snd run) = backoff_events payload 0 3 /\
  sleeps (trace (snd run)) = [1; 2] /\
  count_posts (trace (snd run)) = 3%nat /\
  StronglySorted Z.le (sleeps (trace (snd run))) /\
  exists failure, fst run = Raise (SpringIntegrationError failure).
Proof.
  intros run.
  pose proof (transport_failure_backoff unreachable client payload world0
                (trace (snd run)) eq_refl)
    as (_ & Hsorted & _ & _ & _ & Hall).
  assert (Hfail : forall k, Z.of_nat k < max_retries client ->
            is_transport_failure (unreachable (requests world0 + k)) = true)
    by (intros; reflexivity).
  destruct (Hall Hfail) as (Hevs & _ & Hcount & Hraise).
  split; [reflexivity|]. split; [exact Hfail|]. split; [exact Hevs|].
  split; [reflexivity|]. split; [exact Hcount|]. split; [exact Hsorted|exact Hraise].
Defined.

(** C6 as stated fails.  The claim has the delays capped; the code
    sleeps [2 ** attempt] and takes no minimum with a bound.  A client
    configured for twelve attempts, whose endpoint never answers in
    time, sleeps 1, 2, 4, ... and at last 1024 seconds; and for every
    bound there is a configuration that sleeps longer. *)
Lemma backoff_cap_counterexample :
  sleeps (trace (snd (send_snapshot_batch unreachable Cases.patient payload
                        world0)))
  = [1; 2; 4; 8; 16; 32; 64; 128; 256; 512; 1024] /\
  ~ exists cap, delays_capped cap.
Proof.
  split; [vm_compute; reflexivity|].
  intros [cap Hcap].
  destruct (backoff_delay_exceeds_any_bound cap payload world0)
    as (self & seconds & Hin & Hlt).
  apply Hcap in Hin. lia.
Qed.

(** An endpoint that answers 400. *)
Lemma rejection_not_retried_witness :
  let run := send_snapshot_batch rejecting client payload world0 in
  trace (snd run) = trace world0 ++ [] ++ Post payload (Z.of_nat 0) :: [] /\
  rejecting (requests world0 + 0)
  = Responded 400 (JsonObject (Some "INVALID_REQUEST") None) /\
  400 <= 400 /\ 400 <> 429 /\
  is_raise (fst run) = true /\
  count_posts (trace (snd run)) = 1%nat.
Proof.
  intros run.
  pose proof (rejection_not_retried rejecting client payload world0 []
                payload 0 [] 400 (JsonObject (Some "INVALID_REQUEST") None)
                eq_refl eq_refl ltac:(lia) ltac:(lia)) as (_ & Hraise & _).
  split; [reflexivity|]. split; [reflexivity|]. split; [lia|]. split; [lia|].
  split; [exact Hraise|reflexivity].
Defined.

(** A PDF whose handler raises, followed by a text file; and a file
    whose modification time lies beyond the year 9999, followed by the
    same text file. *)
Lemma extraction_failure_isolated_witness :
  rglob folder = [] ++ report :: [notes] /\
  startswith (name report) "." = false /\
  stat report = Some {| st_size := 10; st_mtime := 0 |} /\
  is_raise (fromtimestamp 0) = false /\
  handler_raises pdf_raises image_ok sheet_ok report = true /\
  (exists entry,
     absolute_path entry = path_str report /\
     keywords entry = [] /\
     confidence entry = 0%Q /\
     List.length (_collect_and_extract_files pdf_raises image_ok sheet_ok folder)
     = 2%nat) /\
  rglob Cases.far_folder = [] ++ Cases.far :: [notes] /\
  is_raise (fromtimestamp (1000000000000)) = true /\
  _collect_and_extract_files pdf_raises image_ok sheet_ok Cases.far_folder
  = collect_loop pdf_raises image_ok sheet_ok [] []
    ++ collect_loop pdf_raises image_ok sheet_ok [notes] [].
Proof.
  split; [reflexivity|]. split; [reflexivity|]. split; [reflexivity|].
  split; [reflexivity|]. split; [vm_compute; reflexivity|].
  split.
  - destruct (proj1 (extraction_failure_isolated pdf_raises image_ok sheet_ok
                       folder [] report [notes] eq_refl)
                {| st_size := 10; st_mtime := 0 |} eq_refl eq_refl eq_refl)
      as (entry & Habs & Hkw & _ & Hconf & _).
    { right. vm_compute. reflexivity. }
    exists entry. split; [exact Habs|]. split; [exact Hkw|].
    split; [exact Hconf|]. vm_compute. reflexivity.
  - split; [reflexivity|]. split; [reflexivity|].
    apply (proj2 (extraction_failure_isolated pdf_raises image_ok sheet_ok
                    Cases.far_folder [] Cases.far [notes] eq_refl)).
    right. right. eexists. split; reflexivity.
Defined.

(** C8 as stated fails.  A file named [.notes] has no extraction
    handler, and the traversal skips it: no record is produced.  Nor
    is one produced for a path whose [stat] raises, while the next
    path still gets its record. *)
Lemma hidden_file_counterexample :
  is_file hidden = true /\
  has_handler (_get_file_type hidden) = false /\
  _collect_and_extract_files pdf_raises image_ok sheet_ok hidden_folder = [] /\
  ~ record_produced hidden
      (_collect_and_extract_files pdf_raises image_ok sheet_ok hidden_folder) /\
  has_handler (_get_file_type dangling) = false /\
  map absolute_path
    (_collect_and_extract_files pdf_raises image_ok sheet_ok dangling_folder)
  = [path_str notes].
Proof.
  split; [reflexivity|]. split; [vm_compute; reflexivity|].
  split; [reflexivity|]. split.
  - intros (entry & Hin & _). exact Hin.
  - split; vm_compute; reflexivity.
Qed.

(** A PDF whose handler returns seven keywords. *)
Lemma keywords_at_most_five_witness :
  let files := _collect_and_extract_files pdf_many image_ok sheet_ok folder in
  exists entry,
    In entry files /\
    keywords entry = ["a"; "b"; "c"; "d"; "e"] /\
    (List.length (keywords entry) <= 5)%nat.
Proof.
  intros files.
  assert (Hin : In (nth 0 files (entry 0)) files) by (vm_compute; auto).
  exists (nth 0 files (entry 0)). split; [exact Hin|].
  split; [vm_compute; reflexivity|].
  exact (proj1 (keywords_at_most_five pdf_many image_ok sheet_ok folder _ Hin)).
Defined.

(** * Further properties of the code *)

(** ** Batch builder: where a record lands, and non-positive sizes *)

Section BatchIndexFacts.
Context {A : Type}.

Lemma range_up_nth_exists fuel : forall i stop step k,
  0 < step -> i + Z.of_nat k * step < stop ->
  (Z.to_nat (stop - i) <= fuel)%nat ->
  nth_error (range_up fuel i stop step) k = Some (i + Z.of_nat k * step).
Proof.
  induction fuel as [|fuel IH]; intros i stop step k Hstep Hk Hfuel.
  - assert (0 <= Z.of_nat k * step) by (apply Z.mul_nonneg_nonneg; lia). lia.
  - cbn [range_up].
    assert (0 <= Z.of_nat k * step) by (apply Z.mul_nonneg_nonneg; lia).
    destruct (Z.ltb_spec i stop) as [_|?]; [|lia].
    destruct k as [|k]; cbn [nth_error]; [f_equal; lia|].
    rewrite IH by lia. f_equal. lia.
Qed.

(** X1.  For a positive batch size [B], the record at index [i] of
    the input is the record at index [i mod B] of batch number
    [i / B] (counted from 0). *)
Theorem chunk_files_index (files : list A) (B : Z) (i : nat) (x : A) :
  0 < B ->
  nth_error files i = Some x ->
  exists batches batch,
    _chunk_files files B = Ok batches /\
    nth_error batches (i / Z.to_nat B) = Some batch /\
    nth_error batch (i mod Z.to_nat B) = Some x.
Proof.
  intros HB Hx.
  set (b := Z.to_nat B). assert (Hb : b <> O) by lia.
  pose proof (Nat.div_mod i b Hb) as Hi.
  pose proof (Nat.mod_upper_bound i b Hb) as Hj.
  assert (Hlen : (i < List.length files)%nat)
    by (apply nth_error_Some; congruence).
  set (k := (i / b)%nat) in *. set (j := (i mod b)%nat) in *.
  exists (map (fun i => slice files i (i + B))
            (range_up (List.length files) 0 (Z.of_nat (List.length files)) B)),
    (slice files (Z.of_nat k * B) (Z.of_nat k * B + B)).
  split; [apply chunk_files_ok; exact HB|].
  assert (HkB : Z.of_nat k * B = Z.of_nat (b * k)) by (subst b; lia).
  split.
  - rewrite nth_error_map, (range_up_nth_exists _ 0 _ B k) by lia.
    reflexivity.
  - rewrite slice_window by lia.
    rewrite nth_error_firstn.
    destruct (Nat.ltb_spec j (Z.to_nat B)) as [_|?]; [|subst b; lia].
    rewrite nth_error_skipn, HkB, Nat2Z.id, <- Hi. exact Hx.
Qed.

(** X2.  A batch size of zero makes [_chunk_files] raise
    [ValueError]; a negative one makes it return no batch at all,
    without error, whatever the input. *)
Theorem chunk_files_nonpositive (files : list A) (B : Z) :
  B <= 0 ->
  _chunk_files files B = if B =? 0 then Raise ValueError else Ok [].
Proof.
  intros HB. unfold _chunk_files, range3.
  destruct (Z.eqb_spec B 0) as [_|Hne]; [reflexivity|].
  destruct (Z.ltb_spec 0 B) as [?|_]; [lia|].
  replace (Z.to_nat (0 - Z.of_nat (List.length files))) with O by lia.
  reflexivity.
Qed.
End BatchIndexFacts.

Lemma chunk_files_index_witness :
  0 < 3 /\ nth_error [10; 11; 12; 13; 14; 15; 16] 4 = Some 14 /\
  exists batches batch,
    _chunk_files [10; 11; 12; 13; 14; 15; 16] 3 = Ok batches /\
    nth_error batches (4 / Z.to_nat 3) = Some batch /\
    nth_error batch (4 mod Z.to_nat 3) = Some 14.
Proof.
  split; [lia|]. split; [reflexivity|].
  exact (chunk_files_index [10; 11; 12; 13; 14; 15; 16] 3 4 14
           ltac:(lia) eq_refl).
Defined.

Lemma chunk_files_nonpositive_witness :
  -5 <= 0 /\ _chunk_files [10; 11; 12] (-5) = Ok [].
Proof.
  split; [lia|].
  exact (chunk_files_nonpositive [10; 11; 12] (-5) ltac:(lia)).
Defined.

(** ** Traversal: which paths yield a record, and with what *)

Lemma lower_ascii_idempotent c : lower_ascii (lower_ascii c) = lower_ascii c.
Proof.
  destruct c as [[] [] [] [] [] [] [] []]; reflexivity.
Qed.

Lemma lower_idempotent s : lower (lower s) = lower s.
Proof.
  induction s as [|c s IH]; [reflexivity|].
  cbn [lower]. now rewrite lower_ascii_idempotent, IH.
Qed.

Lemma type_mapping_pairs : type_mapping = list_to_map type_pairs.
Proof. reflexivity. Qed.

Lemma type_pairs_lookup (k v : string) :
  type_mapping !! k = Some v <-> In (k, v) type_pairs.
Proof.
  rewrite type_mapping_pairs, <- list_elem_of_In.
  symmetry. apply elem_of_list_to_map.
  apply (bool_decide_unpack _). vm_compute. reflexivity.
Qed.

(** X3.  The type tag depends on the suffix only through its
    lower-case form, it is one of the nine tags of the mapping, and the
    traversal has an extraction handler for it exactly when the
    lower-case suffix is one of [.pdf], [.png], [.jpg], [.jpeg],
    [.webp], [.xlsx], [.xls] and [.csv]: Markdown, text and source
    files are tagged but never extracted. *)
Theorem handled_suffixes (p : Path) :
  _get_file_type p = type_mapping !! lower (lower (suffix p)) /\
  (forall tag, _get_file_type p = Some tag -> In tag type_tags) /\
  (has_handler (_get_file_type p) = true
   <-> In (lower (suffix p)) extracted_suffixes).
Proof.
  unfold _get_file_type. rewrite lower_idempotent.
  split; [reflexivity|]. split.
  - intros tag Htag. apply type_pairs_lookup in Htag.
    cbn [In type_pairs] in Htag.
    repeat (destruct Htag as [Htag|Htag];
            [injection Htag as _ <-; cbn; auto 10|]).
    contradiction.
  - split.
    + destruct (type_mapping !! lower (suffix p)) as [tag|] eqn:Htag;
        [|discriminate].
      apply type_pairs_lookup in Htag. cbn [In type_pairs] in Htag.
      repeat (destruct Htag as [Htag|Htag];
              [injection Htag as <- <-; cbn; auto 10; discriminate|]).
      contradiction.
    + intros Hin. cbn [In extracted_suffixes] in Hin.
      repeat (destruct Hin as [<-|Hin]; [reflexivity|]).
      contradiction.
Qed.

Section TraversalCoverage.
Variable extract_pdf_keywords : string -> Res (list string).
Variable extract_image_highlights : string -> Res ImageHighlights.
Variable build_summary_text : string -> Res (option string * string).

Local Abbreviation insights :=
  (extract_insights extract_pdf_keywords extract_image_highlights build_summary_text).
Local Abbreviation entry_of :=
  (build_entry extract_pdf_keywords extract_image_highlights build_summary_text).
Local Abbreviation collect :=
  (collect_loop extract_pdf_keywords extract_image_highlights build_summary_text).
Local Abbreviation collect_files :=
  (_collect_and_extract_files extract_pdf_keywords extract_image_highlights
     build_summary_text).
Local Abbreviation raises :=
  (handler_raises extract_pdf_keywords extract_image_highlights build_summary_text).

(** The record built for a path carries the metadata of the path. *)
Lemma build_entry_describes p e :
  entry_of p = Ok e -> describes p e.
Proof.
  unfold build_entry.
  destruct (insights p (_get_file_type p)) as [[kws cap] conf].
  destruct (stat p) as [st|] eqn:Hstat; [|discriminate].
  unfold fromtimestamp.
  destruct ((datetime_min <=? st_mtime st) && (st_mtime st <=? datetime_max));
    [|discriminate].
  unfold FileEntry_new. destruct (FileEntry_valid _); [|discriminate].
  intros [= <-]. unfold describes. cbn. repeat split. eauto.
Qed.

Lemma build_entry_processed p :
  startswith (name p) "." = false ->
  is_processed p = negb (is_raise (entry_of p)).
Proof.
  intros Hdot. unfold is_processed. rewrite Hdot. cbn [negb andb].
  destruct (stat p) as [st|] eqn:Hstat.
  - destruct (is_raise (fromtimestamp (st_mtime st))) eqn:Htime.
    + rewrite (build_entry_dropped extract_pdf_keywords
                 extract_image_highlights build_summary_text p) by eauto.
      reflexivity.
    + destruct (build_entry_stat extract_pdf_keywords extract_image_highlights
                  build_summary_text p st Hstat Htime) as (e & -> & _).
      reflexivity.
  - rewrite (build_entry_dropped extract_pdf_keywords
               extract_image_highlights build_summary_text p) by auto.
    reflexivity.
Qed.

Lemma collect_describes (paths : list Path) :
  Forall2 describes (List.filter is_processed paths) (collect paths []).
Proof.
  induction paths as [|p rest IH]; [constructor|].
  cbn [collect_loop List.filter].
  destruct (startswith (name p) ".") eqn:Hdot.
  { unfold is_processed at 1. rewrite Hdot. exact IH. }
  rewrite (build_entry_processed p Hdot).
  destruct (entry_of p) as [e|] eqn:He; cbn [is_raise negb]; [|exact IH].
  rewrite (collect_loop_acc extract_pdf_keywords extract_image_highlights
             build_summary_text). cbn [app].
  constructor; [exact (build_entry_describes p e He)|exact IH].
Qed.

Lemma collect_length (dir : Directory) :
  List.length (collect_files dir)
  = List.length (List.filter is_processed (rglob dir)).
Proof.
  unfold _collect_and_extract_files.
  pose proof (collect_describes (rglob dir)) as H.
  induction H; cbn [List.length]; congruence.
Qed.

(** X4.  [_collect_and_extract_files] returns one record for each
    path that is not hidden, whose [stat] succeeds and whose
    modification time converts to a [datetime], in the order of the
    traversal, and none for any other path; each record carries the
    paths, the directory flag, the size, the modification time and the
    type tag of its path, and is never marked as a development file. *)
Theorem collected_records_follow_paths (dir : Directory) :
  Forall2 describes (List.filter is_processed (rglob dir)) (collect_files dir).
Proof. apply collect_describes. Qed.

(** What the inner [try] leaves for a path. *)
Lemma extract_insights_cases p :
  let '(kws, cap, conf) := insights p (_get_file_type p) in
  conf = (if is_file p && negb (raises p)
          then handler_confidence (_get_file_type p) else 0%Q) /\
  ((is_file p && has_handler (_get_file_type p) && negb (raises p)) = false ->
   kws = [] /\ cap = None) /\
  ((type_is (_get_file_type p) "xlsx" || type_is (_get_file_type p) "csv") = true ->
   type_is (_get_file_type p) "pdf" = false ->
   type_is (_get_file_type p) "image" = false ->
   kws = [] \/ exists c, cap = Some c /\ kws = [c]).
Proof.
  unfold extract_insights, handler_raises, handler_confidence, has_handler.
  destruct (is_file p); cbn [andb];
    [|repeat split; auto; destruct (type_is _ "pdf"), (type_is _ "image"),
        (type_is _ "xlsx" || type_is _ "csv"); reflexivity].
  destruct (type_is (_get_file_type p) "pdf"); cbn [orb andb negb].
  { destruct (extract_pdf_keywords (path_str p)); cbn [is_raise negb];
      repeat split; auto; discriminate. }
  destruct (type_is (_get_file_type p) "image"); cbn [orb andb negb].
  { destruct (extract_image_highlights (path_str p)); cbn [is_raise negb];
      repeat split; auto; discriminate. }
  destruct (type_is (_get_file_type p) "xlsx" || type_is (_get_file_type p) "csv");
    cbn [orb andb negb]; [|repeat split; auto; discriminate].
  destruct (build_summary_text (path_str p)) as [[cap other]|];
    cbn [is_raise negb]; [|repeat split; auto; discriminate].
  repeat split; try discriminate.
  intros _ _ _. destruct cap as [[|c s]|]; cbn [truthy]; eauto.
Qed.

(** X5.  The confidence of a record tells whether a handler ran: it
    is the fixed value of the type tag (0.9 for [pdf], 0.85 for
    [image], 0.8 for [xlsx] and [csv]) when the path is a file and its
    handler returned, whatever the handler found, and 0 otherwise.  In
    the second case, and for every path without a handler, the record
    has no keyword and no caption; a spreadsheet record has at most one
    keyword, which is its caption. *)
Theorem confidence_reflects_handler (dir : Directory) (e : FileEntry) :
  In e (collect_files dir) ->
  exists p,
    In p (rglob dir) /\ describes p e /\
    confidence e = (if is_file p && negb (raises p)
                    then handler_confidence (file_type e) else 0%Q) /\
    ((is_file p && has_handler (file_type e) && negb (raises p)) = false ->
     keywords e = [] /\ caption e = None) /\
    ((type_is (file_type e) "xlsx" || type_is (file_type e) "csv") = true ->
     type_is (file_type e) "pdf" = false ->
     type_is (file_type e) "image" = false ->
     keywords e = [] \/ exists c, caption e = Some c /\ keywords e = [c]).
Proof.
  intros Hin.
  apply (collect_loop_in extract_pdf_keywords extract_image_highlights
           build_summary_text) in Hin as (p & Hp & _ & He).
  exists p. split; [exact Hp|].
  pose proof (build_entry_describes p e He) as Hd.
  split; [exact Hd|].
  destruct Hd as (_ & _ & _ & Hft & _ & st & Hstat & _).
  assert (Htime : is_raise (fromtimestamp (st_mtime st)) = false).
  { destruct (is_raise (fromtimestamp (st_mtime st))) eqn:Htime; [|reflexivity].
    assert (Hdrop : is_raise (entry_of p) = true)
      by (apply build_entry_dropped; eauto).
    rewrite He in Hdrop. discriminate. }
  destruct (build_entry_stat extract_pdf_keywords extract_image_highlights
              build_summary_text p st Hstat Htime)
    as (e' & He' & _ & _ & _ & Hkw & Hcap & Hconf).
  rewrite He in He'. injection He' as <-.
  pose proof (extract_insights_cases p) as Hcases.
  destruct (insights p (_get_file_type p)) as [[kws cap] conf].
  cbn [fst snd] in Hkw, Hcap, Hconf.
  destruct Hcases as (Hc & Hnone & Hsheet).
  rewrite Hft, Hkw, Hcap, Hconf. split; [exact Hc|]. split.
  - intros Hno. destruct (Hnone Hno) as [-> ->]. auto.
  - intros H1 H2 H3.
    destruct (Hsheet H1 H2 H3) as [->|(c & -> & ->)]; [auto|].
    right. exists c. auto.
Qed.
End TraversalCoverage.

(** A PDF whose handler raises and a text file. *)
Lemma confidence_reflects_handler_witness :
  exists e,
    In e (_collect_and_extract_files pdf_raises image_ok sheet_ok folder) /\
    absolute_path e = path_str report /\
    confidence e = 0%Q.
Proof.
  set (files := _collect_and_extract_files pdf_raises image_ok sheet_ok folder).
  assert (Hin : In (nth 0 files (entry 0)) files) by (vm_compute; auto).
  exists (nth 0 files (entry 0)). split; [exact Hin|].
  split; [reflexivity|].
  destruct (confidence_reflects_handler pdf_raises image_ok sheet_ok folder
              _ Hin) as (p & _ & _ & _ & Hnone & _).
  reflexivity.
Defined.

(** ** Delivery client: acceptance, exhaustion and the time slept *)

Lemma sum_Z_app l1 l2 : sum_Z (l1 ++ l2) = sum_Z l1 + sum_Z l2.
Proof. induction l1 as [|x l1 IH]; cbn [sum_Z app]; lia. Qed.

Section DeliveryOutcomes.
Variable net : nat -> NetOutcome.
Variable self : SpringClient.

(** An outcome that is retried makes the loop continue, unless it is a
    transport failure of the last attempt. *)
Lemma retried_continues attempt o :
  is_retried o = true ->
  attempt <> max_retries self - 1 ->
  exists sleep, handle_outcome self attempt o = Continue sleep.
Proof.
  unfold is_retried, handle_outcome. intros Ho Hlast.
  destruct o as [code body| |]; cbn in Ho.
  - destruct (Z.eqb_spec code 200) as [->|H200]; [discriminate|].
    destruct (Z.eqb_spec code 429) as [->|H429]; [eauto|].
    cbn in Ho. destruct (Z.ltb_spec code 400) as [Hlt|?]; [|discriminate].
    destruct (Z.leb_spec 400 code) as [?|_]; [lia|]. eauto.
  - destruct (Z.eqb_spec attempt (max_retries self - 1)); [contradiction|eauto].
  - destruct (Z.eqb_spec attempt (max_retries self - 1)); [contradiction|eauto].
Qed.

Lemma run_first_acceptance payload base a n evs r :
  attempts_run net self payload base a n evs r ->
  forall k ack,
    (a <= k < a + n)%nat ->
    (a + n)%nat = Z.to_nat (max_retries self) ->
    (forall j, (a <= j < k)%nat -> is_retried (net (base + j)) = true) ->
    net (base + k) = Responded 200 (JsonAck ack) ->
    r = Ok ack /\ (count_posts evs + a)%nat = S k /\
    exists pre, evs = pre ++ [Post payload (Z.of_nat k)].
Proof.
  induction 1 as [a|a n ack' Hstep|a n e Hstep|a n sleep evs r Hstep Hrun IH];
    intros k ack Hk Hmax Hretried Hnet.
  - lia.
  - destruct (Nat.eq_dec a k) as [->|Hne].
    + rewrite Hnet in Hstep. cbn in Hstep. injection Hstep as <-.
      split; [reflexivity|]. split; [cbn; lia|]. exists []. reflexivity.
    + destruct (retried_continues (Z.of_nat a) (net (base + a)))
        as [s Hs]; [apply Hretried; lia|lia|congruence].
  - destruct (Nat.eq_dec a k) as [->|Hne].
    + rewrite Hnet in Hstep. discriminate.
    + destruct (retried_continues (Z.of_nat a) (net (base + a)))
        as [s Hs]; [apply Hretried; lia|lia|congruence].
  - destruct (Nat.eq_dec a k) as [->|Hne].
    + rewrite Hnet in Hstep. discriminate.
    + destruct (IH k ack) as (-> & Hcount & pre & ->);
        [lia|lia|intros; apply Hretried; lia|exact Hnet|].
      split; [reflexivity|]. split.
      * cbn [count_posts]. rewrite count_posts_app.
        destruct sleep; cbn [sleep_events count_posts]; lia.
      * exists (Post payload (Z.of_nat a) :: sleep_events sleep ++ pre).
        cbn [app]. now rewrite <- app_assoc.
Qed.

(** X6.  If attempt [k] is answered by 200 with a valid body and
    every earlier attempt met an outcome that is retried (a transport
    failure, a 429 or a status below 400 other than 200), the delivery
    returns that acknowledgement, and the request of attempt [k] is the
    last of exactly [k + 1] requests. *)
Theorem delivery_returns_first_acceptance payload w k ack :
  Z.of_nat k < max_retries self ->
  (forall j, (j < k)%nat -> is_retried (net (requests w + j)) = true) ->
  net (requests w + k) = Responded 200 (JsonAck ack) ->
  fst (send_snapshot_batch net self payload w) = Ok ack /\
  requests (snd (send_snapshot_batch net self payload w))
  = (requests w + S k)%nat /\
  exists pre,
    trace (snd (send_snapshot_batch net self payload w))
    = trace w ++ pre ++ [Post payload (Z.of_nat k)] /\
    count_posts pre = k.
Proof.
  intros Hk Hretried Hnet.
  destruct (send_snapshot_batch_run net self payload w)
    as (evs & Htr & Hreq & _ & Hrun).
  destruct (run_first_acceptance _ _ _ _ _ _ Hrun k ack)
    as (Hr & Hcount & pre & ->);
    [lia|lia|intros; apply Hretried; lia|exact Hnet|].
  split; [exact Hr|]. rewrite Hreq, Htr. split; [lia|].
  exists pre. split; [reflexivity|].
  rewrite count_posts_app in Hcount. cbn in Hcount. lia.
Qed.

Lemma run_unslept payload base a n evs r :
  attempts_run net self payload base a n evs r ->
  (forall j, (a <= j < a + n)%nat -> is_other_status (net (base + j)) = true) ->
  evs = unslept_events payload a n /\
  r = Raise (SpringIntegrationError SpringMaxRetriesExceeded).
Proof.
  assert (Hother : forall attempt o,
             is_other_status o = true ->
             handle_outcome self attempt o = Continue None).
  { intros attempt [code body| |] Ho; try discriminate. cbn in Ho.
    unfold handle_outcome.
    destruct (Z.eqb_spec code 200) as [->|H200]; [discriminate|].
    cbn in Ho. destruct (Z.ltb_spec code 400) as [Hlt|?]; [|discriminate].
    destruct (Z.eqb_spec code 429) as [->|H429]; [lia|].
    destruct (Z.leb_spec 400 code) as [?|_]; [lia|]. reflexivity. }
  induction 1 as [a|a n ack' Hstep|a n e Hstep|a n sleep evs r Hstep Hrun IH];
    intros Hall.
  - auto.
  - rewrite (Hother _ _ (Hall a ltac:(lia))) in Hstep. discriminate.
  - rewrite (Hother _ _ (Hall a ltac:(lia))) in Hstep. discriminate.
  - rewrite (Hother _ _ (Hall a ltac:(lia))) in Hstep. injection Hstep as <-.
    destruct (IH ltac:(intros; apply Hall; lia)) as [-> ->]. auto.
Qed.

Lemma unslept_events_facts payload n : forall a,
  count_posts (unslept_events payload a n) = n /\
  sleeps (unslept_events payload a n) = [].
Proof.
  induction n as [|n IH]; intros a; [auto|].
  cbn [unslept_events count_posts sleeps].
  destruct (IH (S a)) as [-> ->]. auto.
Qed.

(** X7.  A response whose status is below 400 but not 200 (201, 204,
    a redirect) is not taken as success: the loop goes on at once,
    without sleeping.  When every attempt is answered so, the delivery
    makes [max_retries] requests back to back and raises
    [SpringIntegrationError]. *)
Theorem other_success_status_exhausts payload w :
  (forall k, Z.of_nat k < max_retries self ->
             is_other_status (net (requests w + k)) = true) ->
  fst (send_snapshot_batch net self payload w)
  = Raise (SpringIntegrationError SpringMaxRetriesExceeded) /\
  trace (snd (send_snapshot_batch net self payload w))
  = trace w ++ unslept_events payload 0 (Z.to_nat (max_retries self)) /\
  requests (snd (send_snapshot_batch net self payload w))
  = (requests w + Z.to_nat (max_retries self))%nat.
Proof.
  intros Hall.
  destruct (send_snapshot_batch_run net self payload w)
    as (evs & Htr & Hreq & _ & Hrun).
  destruct (run_unslept _ _ _ _ _ _ Hrun) as [-> Hr].
  { intros j Hj. apply Hall. lia. }
  rewrite Hr, Htr, Hreq.
  destruct (unslept_events_facts payload (Z.to_nat (max_retries self)) 0)
    as [-> _].
  auto.
Qed.

Lemma run_rate_limited payload base a n evs r :
  attempts_run net self payload base a n evs r ->
  (forall j, (a <= j < a + n)%nat -> is_rate_limited (net (base + j)) = true) ->
  evs = rate_limited_events payload a n /\
  r = Raise (SpringIntegrationError SpringMaxRetriesExceeded).
Proof.
  assert (Hlimited : forall attempt o,
             is_rate_limited o = true ->
             handle_outcome self attempt o = Continue (Some (2 ^ attempt))).
  { intros attempt [code body| |] Ho; try discriminate. cbn in Ho.
    apply Z.eqb_eq in Ho. subst code. reflexivity. }
  induction 1 as [a|a n ack' Hstep|a n e Hstep|a n sleep evs r Hstep Hrun IH];
    intros Hall.
  - auto.
  - rewrite (Hlimited _ _ (Hall a ltac:(lia))) in Hstep. discriminate.
  - rewrite (Hlimited _ _ (Hall a ltac:(lia))) in Hstep. discriminate.
  - rewrite (Hlimited _ _ (Hall a ltac:(lia))) in Hstep. injection Hstep as <-.
    destruct (IH ltac:(intros; apply Hall; lia)) as [-> ->]. auto.
Qed.

Lemma rate_limited_events_facts payload n : forall a,
  count_posts (rate_limited_events payload a n) = n /\
  sum_Z (sleeps (rate_limited_events payload a n))
  = 2 ^ Z.of_nat (a + n) - 2 ^ Z.of_nat a.
Proof.
  induction n as [|n IH]; intros a.
  - cbn. rewrite Nat.add_0_r. split; [reflexivity|lia].
  - cbn [rate_limited_events count_posts sleeps sum_Z].
    destruct (IH (S a)) as [-> ->]. split; [reflexivity|].
    replace (Z.of_nat (S a + n)) with (Z.of_nat (a + S n)) by lia.
    replace (Z.of_nat (S a)) with (Z.of_nat a + 1) by lia.
    rewrite Z.pow_add_r by lia. lia.
Qed.

(** X8.  When every attempt is answered by 429, the delivery makes
    [max_retries] requests, sleeps after each of them (after the last
    one as well), [2 ^ max_retries - 1] seconds in all, and then raises
    [SpringIntegrationError]. *)
Theorem rate_limited_throughout payload w :
  0 <= max_retries self ->
  (forall k, Z.of_nat k < max_retries self ->
             is_rate_limited (net (requests w + k)) = true) ->
  fst (send_snapshot_batch net self payload w)
  = Raise (SpringIntegrationError SpringMaxRetriesExceeded) /\
  trace (snd (send_snapshot_batch net self payload w))
  = trace w ++ rate_limited_events payload 0 (Z.to_nat (max_retries self)) /\
  sum_Z (sleeps (rate_limited_events payload 0 (Z.to_nat (max_retries self))))
  = 2 ^ max_retries self - 1.
Proof.
  intros Hmax Hall.
  destruct (send_snapshot_batch_run net self payload w)
    as (evs & Htr & _ & _ & Hrun).
  destruct (run_rate_limited _ _ _ _ _ _ Hrun) as [-> Hr].
  { intros j Hj. apply Hall. lia. }
  rewrite Hr, Htr.
  destruct (rate_limited_events_facts payload (Z.to_nat (max_retries self)) 0)
    as [_ ->].
  rewrite Nat.add_0_l, Z2Nat.id by lia. auto.
Qed.

Lemma run_sleep_total payload base a n evs r :
  attempts_run net self payload base a n evs r ->
  0 <= sum_Z (sleeps evs) <= 2 ^ Z.of_nat (a + n) - 2 ^ Z.of_nat a.
Proof.
  induction 1 as [a|a n ack' Hstep|a n e Hstep|a n sleep evs r Hstep Hrun IH].
  - cbn. rewrite Nat.add_0_r. lia.
  - cbn. assert (2 ^ Z.of_nat a <= 2 ^ Z.of_nat (a + S n))
      by (apply Z.pow_le_mono_r; lia). lia.
  - cbn. assert (2 ^ Z.of_nat a <= 2 ^ Z.of_nat (a + S n))
      by (apply Z.pow_le_mono_r; lia). lia.
  - cbn [sleeps]. rewrite sleeps_app, sum_Z_app.
    replace (Z.of_nat (S a + n)) with (Z.of_nat (a + S n)) in IH by lia.
    assert (Hdouble : 2 ^ Z.of_nat (S a) = 2 * 2 ^ Z.of_nat a).
    { replace (Z.of_nat (S a)) with (Z.of_nat a + 1) by lia.
      rewrite Z.pow_add_r by lia. lia. }
    assert (0 < 2 ^ Z.of_nat a) by (apply Z.pow_pos_nonneg; lia).
    destruct sleep as [seconds|]; cbn [sleep_events sleeps sum_Z].
    + apply handle_outcome_sleep in Hstep. subst seconds. lia.
    + lia.
Qed.

(** X9.  Whatever the endpoint answers, the time one delivery spends
    sleeping is below [2 ^ max_retries] seconds; with [max_retries] of
    zero or less the delivery makes no request and raises at once. *)
Theorem delivery_sleep_budget payload w evs :
  trace (snd (send_snapshot_batch net self payload w)) = trace w ++ evs ->
  0 <= sum_Z (sleeps evs) < 2 ^ Z.max 0 (max_retries self) /\
  (max_retries self <= 0 ->
   evs = [] /\
   fst (send_snapshot_batch net self payload w)
   = Raise (SpringIntegrationError SpringMaxRetriesExceeded)).
Proof.
  intros Htrace.
  destruct (send_snapshot_batch_run net self payload w)
    as (evs0 & Htr & _ & _ & Hrun).
  rewrite Htr in Htrace. apply app_inv_head in Htrace. subst evs0.
  pose proof (run_sleep_total _ _ _ _ _ _ Hrun) as Hsum.
  rewrite Nat.add_0_l in Hsum. change (2 ^ Z.of_nat 0) with 1 in Hsum.
  split.
  - replace (Z.max 0 (max_retries self))
      with (Z.of_nat (Z.to_nat (max_retries self))) by lia. lia.
  - intros Hle.
    replace (Z.to_nat (max_retries self)) with O in Hrun by lia.
    destruct (run_head net self _ _ _ _ _ _ Hrun) as [(_ & -> & ->)|[evs' ->]];
      [auto|].
    inversion Hrun.
Qed.
End DeliveryOutcomes.

(** ** Sequential delivery: requests made and requests built *)

Section SequentialOutcomes.
Variable net : nat -> NetOutcome.

Lemma batches_posts_bound self base n bs evs :
  batches_run net self base n bs evs ->
  (count_posts evs <= List.length bs * Z.to_nat (max_retries self))%nat.
Proof.
  induction 1 as [base n|base n b rest
                 |base n b rest payload seg ack evs Hn Hb Hrun Hrest IH
                 |base n b rest payload seg exn e Hn Hb Hrun He];
    cbn [count_posts List.length]; try lia.
  - rewrite count_posts_app. cbn [count_posts].
    pose proof (run_posts_le _ _ _ _ _ _ _ _ Hrun). lia.
  - rewrite count_posts_app.
    pose proof (run_posts_le _ _ _ _ _ _ _ _ Hrun).
    assert (count_posts [e] = O) by (destruct He as [-> | ->]; reflexivity).
    lia.
Qed.

(** X10.  One run of [_send_batches_to_spring] makes at most
    [len(batches) * max_retries] requests, and none for an empty list
    of batches. *)
Theorem delivery_request_bound a clock batches w evs :
  trace (_send_batches_to_spring net a clock batches w) = trace w ++ evs ->
  (count_posts evs
   <= List.length batches * Z.to_nat (max_retries (arg_spring_client a)))%nat /\
  (batches = [] -> evs = []).
Proof.
  intros Htrace.
  destruct (send_batches_run net a clock batches w) as (evs0 & Htr & _ & Hrun).
  rewrite Htr in Htrace. apply app_inv_head in Htrace. subst evs0.
  split; [exact (batches_posts_bound _ _ _ _ _ Hrun)|].
  intros ->. inversion Hrun. reflexivity.
Qed.

(** A delivery whose first request is answered by 200 with a valid
    body makes that one request. *)
Lemma send_snapshot_batch_accepted self payload w ack :
  1 <= max_retries self ->
  net (requests w) = Responded 200 (JsonAck ack) ->
  fst (send_snapshot_batch net self payload w) = Ok ack /\
  trace (snd (send_snapshot_batch net self payload w))
  = trace w ++ [Post payload 0] /\
  requests (snd (send_snapshot_batch net self payload w)) = S (requests w) /\
  _task_storage (snd (send_snapshot_batch net self payload w))
  = _task_storage w.
Proof.
  intros Hmax Hnet.
  destruct (send_snapshot_batch_run net self payload w)
    as (evs & Htr & Hreq & Hst & Hrun).
  destruct (Z.to_nat (max_retries self)) as [|m] eqn:Hm; [lia|].
  destruct (run_head net self _ _ _ _ _ _ Hrun) as [(? & _)|[evs' ->]];
    [discriminate|].
  apply run_step in Hrun. rewrite Nat.add_0_r, Hnet in Hrun. cbn in Hrun.
  destruct Hrun as [-> Hr].
  rewrite Hr, Htr, Hreq, Hst. cbn. repeat split. lia.
Qed.

Lemma send_loop_accepted a total clock : forall batches n w,
  1 <= n -> 1 <= total ->
  budget_ok (arg_max_cost_budget a) = true ->
  1 <= max_retries (arg_spring_client a) ->
  (forall i, exists ack, net i = Responded 200 (JsonAck ack)) ->
  trace (send_loop net a total clock (enumerate batches n) w)
  = trace w ++ accepted_events a total clock n batches /\
  requests (send_loop net a total clock (enumerate batches n) w)
  = (requests w + List.length batches)%nat.
Proof.
  induction batches as [|b rest IH]; intros n w Hn Htotal Hbudget Hmax Hnet.
  - cbn. rewrite app_nil_r. auto.
  - cbn [enumerate send_loop accepted_events List.length].
    change {| task_id := arg_task_id a; batch_number := n;
              total_batches := total; directory := arg_directory a;
              user_id := arg_user_id a; strategy := arg_strategy a;
              max_cost_budget := arg_max_cost_budget a;
              generated_at := clock n; entries := b |}
      with (batch_request a total clock n b).
    unfold SnapshotBatchRequest_new, SnapshotBatchRequest_valid.
    cbn [batch_request batch_number total_batches max_cost_budget].
    fold (budget_ok (arg_max_cost_budget a)). rewrite Hbudget.
    destruct (Z.leb_spec 1 n) as [_|?]; [|lia].
    destruct (Z.leb_spec 1 total) as [_|?]; [|lia].
    cbn [andb].
    fold (batch_request a total clock n b).
    set (w1 := emit (LogSending n) w).
    destruct (Hnet (requests w1)) as [ack Hack].
    destruct (send_snapshot_batch_accepted (arg_spring_client a)
                (batch_request a total clock n b) w1 ack Hmax Hack)
      as (Hr & Htr & Hreq & _).
    destruct (send_snapshot_batch net (arg_spring_client a)
                (batch_request a total clock n b) w1) as [r w2].
    cbn [fst snd] in Hr, Htr, Hreq. subst r.
    destruct (IH (n + 1) (emit (LogSent n) w2)) as [Htr' Hreq'];
      try assumption; [lia|].
    rewrite Htr', Hreq'. cbn [emit trace requests]. rewrite Htr, Hreq.
    subst w1. cbn [emit trace requests].
    rewrite <- !app_assoc. cbn [app]. split; [reflexivity|lia].
Qed.

(** X11.  Against an endpoint that answers every request by 200 with
    a valid body, with at least one attempt configured and a budget
    that is absent or not negative, the run sends every batch with
    exactly one request, in order and without sleeping: its trace is,
    batch after batch, the line that announces the batch, the request
    and the line that logs it as sent. *)
Theorem all_batches_accepted a clock batches w :
  budget_ok (arg_max_cost_budget a) = true ->
  1 <= max_retries (arg_spring_client a) ->
  (forall i, exists ack, net i = Responded 200 (JsonAck ack)) ->
  trace (_send_batches_to_spring net a clock batches w)
  = trace w ++ accepted_events a (Z.of_nat (List.length batches)) clock 1 batches /\
  requests (_send_batches_to_spring net a clock batches w)
  = (requests w + List.length batches)%nat.
Proof.
  intros Hbudget Hmax Hnet. unfold _send_batches_to_spring.
  destruct batches as [|b rest].
  - cbn. rewrite app_nil_r. auto.
  - apply send_loop_accepted; try assumption; [lia|].
    cbn [List.length]. lia.
Qed.

(** The requests built by the loop. *)
Lemma send_loop_payloads a total clock : forall batches n w,
  exists evs,
    trace (send_loop net a total clock (enumerate batches n) w) = trace w ++ evs /\
    forall p k, In (Post p k) evs ->
                p = batch_request a total clock (batch_number p) (entries p).
Proof.
  induction batches as [|b rest IH]; intros n w.
  - exists []. cbn. rewrite app_nil_r. split; [reflexivity|]. intros ? ? [].
  - cbn [enumerate send_loop].
    change {| task_id := arg_task_id a; batch_number := n;
              total_batches := total; directory := arg_directory a;
              user_id := arg_user_id a; strategy := arg_strategy a;
              max_cost_budget := arg_max_cost_budget a;
              generated_at := clock n; entries := b |}
      with (batch_request a total clock n b).
    set (request := batch_request a total clock n b).
    set (w1 := emit (LogSending n) w).
    unfold SnapshotBatchRequest_new.
    destruct (SnapshotBatchRequest_valid request).
    2:{ exists [LogSending n; LogUnexpected n]. cbn. rewrite <- app_assoc.
        split; [reflexivity|].
        intros p k [Hp|[Hp|[]]]; discriminate. }
    destruct (send_snapshot_batch_run net (arg_spring_client a) request w1)
      as (seg & Htr & _ & _ & Hrun).
    apply run_events in Hrun.
    assert (Hseg : forall p k, In (Post p k) seg ->
              p = batch_request a total clock (batch_number p) (entries p)).
    { intros p k Hin. rewrite List.Forall_forall in Hrun.
      destruct (Hrun _ Hin) as [[k' Hp]|[s Hp]]; [|discriminate].
      injection Hp as -> _. reflexivity. }
    destruct (send_snapshot_batch net (arg_spring_client a) request w1)
      as [r w2].
    cbn [fst snd] in Htr.
    destruct r as [ack|exn].
    + destruct (IH (n + 1) (emit (LogSent n) w2)) as (evs & Htr' & Hevs).
      exists (LogSending n :: seg ++ LogSent n :: evs).
      rewrite Htr'. cbn [emit trace]. rewrite Htr. subst w1. cbn [emit trace].
      rewrite <- !app_assoc. cbn [app]. split; [reflexivity|].
      intros p k [Hp|Hin]; [discriminate|].
      apply in_app_or in Hin as [Hin|[Hp|Hin]]; eauto. discriminate.
    + assert (Hlog : exists e,
                 failure_log n e /\
                 match exn with
                 | SpringIntegrationError _ => emit (LogSendFailed n) w2
                 | _ => emit (LogUnexpected n) w2
                 end = emit e w2).
      { destruct exn; eexists; (split; [|reflexivity]);
          unfold failure_log; auto. }
      destruct Hlog as (e & He & ->).
      exists (LogSending n :: seg ++ [e]).
      cbn [emit trace]. rewrite Htr. subst w1. cbn [emit trace].
      rewrite <- !app_assoc. cbn [app]. split; [reflexivity|].
      intros p k [Hp|Hin]; [discriminate|].
      apply in_app_or in Hin as [Hin|[Hp|[]]]; eauto.
      destruct He as [-> | ->]; discriminate.
Qed.

(** X12.  Every request of a run, retries included, carries the task
    id, directory, user id, strategy and budget of the run, the total
    number of batches, and the time read when its batch was announced:
    a batch that is sent again is sent as the identical request. *)
Theorem requests_carry_run_identity a clock batches w evs p k :
  trace (_send_batches_to_spring net a clock batches w) = trace w ++ evs ->
  In (Post p k) evs ->
  p = batch_request a (Z.of_nat (List.length batches)) clock
        (batch_number p) (entries p).
Proof.
  intros Htrace Hin. unfold _send_batches_to_spring in Htrace.
  destruct (send_loop_payloads a (Z.of_nat (List.length batches)) clock
              batches 1 w) as (evs0 & Htr & Hevs).
  rewrite Htr in Htrace. apply app_inv_head in Htrace. subst evs0.
  eauto.
Qed.
End SequentialOutcomes.

(** ** Rate limiting within a run *)

Section RateLimitedRun.
Variable net : nat -> NetOutcome.

(** A request of the delivery loop that is answered by 429: what the
    trace holds after it. *)
Lemma send_loop_rate_limited a total clock :
  forall batches n w pre p k post body,
  trace (send_loop net a total clock (enumerate batches n) w)
  = trace w ++ pre ++ Post p k :: post ->
  net (requests w + count_posts pre) = Responded 429 body ->
  0 <= k /\
  exists post',
    post = Sleep (2 ^ k) :: post' /\
    ((k < max_retries (arg_spring_client a) - 1 /\
      exists post'', post' = Post p (k + 1) :: post'') \/
     (k = max_retries (arg_spring_client a) - 1 /\
      post' = [LogSendFailed (batch_number p)])).
Proof.
  induction batches as [|b rest IH]; intros n w pre p k post body Htrace Hnet.
  - cbn in Htrace. rewrite <- (app_nil_r (trace w)) in Htrace at 1.
    apply app_inv_head in Htrace. destruct pre; discriminate.
  - cbn [enumerate send_loop] in Htrace.
    match type of Htrace with
    | context [SnapshotBatchRequest_new ?r] => set (request := r) in Htrace
    end.
    unfold SnapshotBatchRequest_new in Htrace.
    destruct (SnapshotBatchRequest_valid request).
    2:{ cbn [emit trace] in Htrace. rewrite <- app_assoc in Htrace.
        apply app_inv_head in Htrace. cbn [app] in Htrace.
        destruct pre as [|x [|y [|z pre]]]; discriminate. }
    destruct (send_snapshot_batch_run net (arg_spring_client a) request
                (emit (LogSending n) w))
      as (seg & Htr & Hreq & _ & Hrun).
    destruct (send_snapshot_batch net (arg_spring_client a) request
                (emit (LogSending n) w)) as [r w2].
    cbn [fst snd emit trace requests] in Htr, Hreq, Hrun.
    assert (Hseg : forall pre1 mid,
              pre = LogSending n :: pre1 ->
              seg = pre1 ++ Post p k :: mid ->
              p = request /\ 0 <= k /\
              exists mid',
                mid = Sleep (2 ^ k) :: mid' /\
                ((mid' = [] /\ k = max_retries (arg_spring_client a) - 1 /\
                  r = Raise (SpringIntegrationError SpringMaxRetriesExceeded)) \/
                 (k < max_retries (arg_spring_client a) - 1 /\
                  exists mid'', mid' = Post request (k + 1) :: mid''))).
    { intros pre1 mid Hpre Hmid.
      apply (run_rate_limited_at net (arg_spring_client a) request
               (requests w) seg r pre1 p k mid body Hrun Hmid).
      rewrite Hpre in Hnet. exact Hnet. }
    destruct r as [ack|exn].
    + destruct (send_loop_run net a total clock rest (n + 1)
                  (emit (LogSent n) w2)) as (evs' & Htr' & _ & _).
      rewrite Htr' in Htrace. cbn [emit trace] in Htrace.
      rewrite Htr in Htrace. rewrite <- !app_assoc in Htrace.
      apply app_inv_head in Htrace. cbn [app] in Htrace.
      destruct pre as [|x pre1]; [discriminate|].
      injection Htrace as <- Htrace. symmetry in Htrace.
      destruct (app_cons_split _ _ _ _ _ Htrace)
        as [(mid & Hmid & Hpost)|(mid & Hpre & Hmid)].
      * destruct (Hseg pre1 mid eq_refl Hmid)
          as (Hp & Hk & mid' & -> & [(_ & _ & Hr)|(Hlt & mid'' & ->)]);
          [discriminate|].
        split; [exact Hk|]. subst post p. eexists. split; [reflexivity|].
        left. split; [exact Hlt|]. eexists. reflexivity.
      * destruct mid as [|y mid']; [discriminate|].
        injection Hmid as <- Hevs.
        apply (IH (n + 1) (emit (LogSent n) w2) mid' p k post body).
        -- rewrite Htr', Hevs. reflexivity.
        -- cbn [emit requests]. rewrite Hreq.
           rewrite Hpre in Hnet. cbn [count_posts] in Hnet.
           rewrite count_posts_app in Hnet. cbn [count_posts] in Hnet.
           rewrite <- Hnet. f_equal. lia.
    + assert (Hfinal :
        exists e,
          trace (match exn with
                 | SpringIntegrationError _ => emit (LogSendFailed n) w2
                 | _ => emit (LogUnexpected n) w2
                 end) = trace w2 ++ [e] /\
          (forall q j, e <> Post q j) /\
          (exn = SpringIntegrationError SpringMaxRetriesExceeded ->
           e = LogSendFailed n)).
      { destruct exn; eexists; (split; [reflexivity|]);
          (split; [discriminate|]); try discriminate; reflexivity. }
      destruct Hfinal as (e & Hfinal & Hnot & Hmax).
      rewrite Hfinal, Htr in Htrace. rewrite <- !app_assoc in Htrace.
      apply app_inv_head in Htrace. cbn [app] in Htrace.
      destruct pre as [|x pre1]; [discriminate|].
      injection Htrace as <- Htrace. symmetry in Htrace.
      destruct (app_cons_split _ _ _ _ _ Htrace)
        as [(mid & Hmid & Hpost)|(mid & Hpre & Hmid)].
      * destruct (Hseg pre1 mid eq_refl Hmid)
          as (Hp & Hk & mid' & -> & [(-> & Hlast & Hr)|(Hlt & mid'' & ->)]).
        -- split; [exact Hk|]. injection Hr as ->.
           rewrite (Hmax eq_refl) in Hpost. subst post p.
           eexists. split; [reflexivity|]. right. split; [exact Hlast|].
           reflexivity.
        -- split; [exact Hk|]. subst post p. eexists. split; [reflexivity|].
           left. split; [exact Hlt|]. eexists. reflexivity.
      * destruct mid as [|y mid'].
        -- injection Hmid as He _. exfalso. exact (Hnot _ _ He).
        -- injection Hmid as _ Hnil. destruct mid'; discriminate.
Qed.

(** C5, as the code has it.  In a run of [_send_batches_to_spring], a
    request of attempt [k] that is answered by 429 is followed by a
    sleep of [2 ^ k] seconds, whatever [retryAfter] the body carries,
    and then by attempt [k + 1] with the identical request, hence for
    the same batch; unless [k] was the last configured attempt, in
    which case the batch is logged as failed after the sleep and the
    run ends there, no later batch being sent.  The request carries
    the number of batches of the run, and the batch numbers requested
    in the run never decrease and stay within [1 .. totalBatches]: a
    429 neither skips nor reorders a batch nor changes the batch
    count. *)
Theorem rate_limit_backoff a clock batches w pre p k post body :
  trace (_send_batches_to_spring net a clock batches w)
  = trace w ++ pre ++ Post p k :: post ->
  net (requests w + count_posts pre) = Responded 429 body ->
  0 <= k /\
  (exists post',
     post = Sleep (2 ^ k) :: post' /\
     ((k < max_retries (arg_spring_client a) - 1 /\
       exists post'', post' = Post p (k + 1) :: post'') \/
      (k = max_retries (arg_spring_client a) - 1 /\
       post' = [LogSendFailed (batch_number p)]))) /\
  total_batches p = Z.of_nat (List.length batches) /\
  StronglySorted Z.le (posted (pre ++ Post p k :: post)) /\
  Forall (fun n => 1 <= n <= Z.of_nat (List.length batches))
    (posted (pre ++ Post p k :: post)).
Proof.
  intros Htrace Hnet.
  destruct (send_loop_rate_limited a (Z.of_nat (List.length batches)) clock
              batches 1 w pre p k post body Htrace Hnet) as [Hk Hpost].
  split; [exact Hk|]. split; [exact Hpost|].
  destruct (send_loop_payloads net a (Z.of_nat (List.length batches)) clock
              batches 1 w) as (evs0 & Htr0 & Hpayload).
  destruct (send_batches_run net a clock batches w) as (evs & Htr & _ & Hrun).
  unfold _send_batches_to_spring in Htrace, Htr.
  rewrite Htr0 in Htrace. apply app_inv_head in Htrace.
  rewrite Htr0 in Htr. apply app_inv_head in Htr. subst evs0 evs.
  split.
  - assert (Hp : p = batch_request a (Z.of_nat (List.length batches)) clock
                       (batch_number p) (entries p)).
    { apply (Hpayload p k). apply in_elt. }
    rewrite Hp. reflexivity.
  - destruct (batches_posted net _ _ _ _ _ Hrun) as [Hrange Hsorted].
    split; [exact Hsorted|].
    eapply List.Forall_impl; [|exact Hrange]. cbn beta. lia.
Qed.
End RateLimitedRun.

(** One batch whose first request is answered by 429 with
    [retryAfter = 5] and whose second is accepted; and two batches
    against an endpoint that answers every request by 429, where the
    run ends after the third sleep and batch 2 is never sent. *)
Lemma rate_limit_backoff_witness :
  let p := batch_request args 1 clock 1 [entry 0] in
  let q := batch_request args 2 clock 1 [entry 0] in
  trace (_send_batches_to_spring rate_limited_once args clock [[entry 0]] world0)
  = trace world0 ++ [LogSending 1] ++ Post p 0 :: [Sleep 1; Post p 1; LogSent 1] /\
  rate_limited_once (requests world0 + count_posts [LogSending 1])
  = Responded 429 (JsonObject (Some "RATE_LIMITED") (Some 5)) /\
  (exists post', [Sleep 1; Post p 1; LogSent 1] = Sleep (2 ^ 0) :: post') /\
  total_batches p = 1 /\
  trace (_send_batches_to_spring Cases.throttled args clock Cases.two_batches
           world0)
  = trace world0 ++ [LogSending 1; Post q 0; Sleep 1; Post q 1; Sleep 2]
    ++ Post q 2 :: [Sleep 4; LogSendFailed 1] /\
  total_batches q = 2.
Proof.
  intros p q. split; [reflexivity|]. split; [reflexivity|].
  destruct (rate_limit_backoff rate_limited_once args clock [[entry 0]] world0
              [LogSending 1] p 0 [Sleep 1; Post p 1; LogSent 1]
              (JsonObject (Some "RATE_LIMITED") (Some 5)) eq_refl eq_refl)
    as (_ & (post' & Hpost & _) & Htotal & _).
  split; [exists post'; exact Hpost|]. split; [exact Htotal|].
  split; [reflexivity|].
  exact (proj1 (proj2 (proj2
           (rate_limit_backoff Cases.throttled args clock Cases.two_batches
              world0 [LogSending 1; Post q 0; Sleep 1; Post q 1; Sleep 2] q 2
              [Sleep 4; LogSendFailed 1] (JsonObject None None)
              eq_refl eq_refl)))).
Defined.

(** ** The [/organize] route: acknowledgement, errors, other tasks *)

Lemma batch_size_positive strategy : 0 < _get_batch_size strategy.
Proof. destruct strategy; reflexivity. Qed.

Lemma chunk_files_count {A} (files : list A) (B : Z) :
  0 < B ->
  exists batches,
    _chunk_files files B = Ok batches /\
    Z.of_nat (List.length batches)
    = (Z.of_nat (List.length files) + B - 1) / B /\
    nonempty batches = nonempty files.
Proof.
  intros HB. eexists. split; [apply chunk_files_ok; exact HB|].
  rewrite length_map. split.
  - rewrite range_up_length by lia. rewrite Z.sub_0_r.
    apply Z.max_r, Z.div_pos; lia.
  - destruct files as [|x files]; [reflexivity|].
    cbn [List.length range_up].
    destruct (Z.ltb_spec 0 (Z.of_nat (S (List.length files)))) as [_|?]; [|lia].
    reflexivity.
Qed.

Section RouteFacts.
Variable extract_pdf_keywords : string -> Res (list string).
Variable extract_image_highlights : string -> Res ImageHighlights.
Variable build_summary_text : string -> Res (option string * string).
Variable resolve_directory : string -> Res Directory.
Variable net : nat -> NetOutcome.

Local Abbreviation route :=
  (organize_folder extract_pdf_keywords extract_image_highlights
     build_summary_text resolve_directory net).
Local Abbreviation whole_task :=
  (run_task extract_pdf_keywords extract_image_highlights
     build_summary_text resolve_directory net).
Local Abbreviation collect_files :=
  (_collect_and_extract_files extract_pdf_keywords extract_image_highlights
     build_summary_text).

(** What the route returns and stores once the directory resolves. *)
Lemma organize_folder_resolved task_id now clock request client w dir :
  resolve_directory (path request) = Ok dir ->
  exists batches,
    _chunk_files (collect_files dir) (_get_batch_size (req_strategy request))
    = Ok batches /\
    Z.of_nat (List.length batches)
    = (Z.of_nat (List.length (collect_files dir))
       + _get_batch_size (req_strategy request) - 1)
      / _get_batch_size (req_strategy request) /\
    nonempty batches = nonempty (collect_files dir) /\
    route task_id now clock request client w
    = (Ok ({| taskId := task_id;
              resp_status := "PROCESSING";
              totalFiles := Z.of_nat (List.length (collect_files dir));
              totalBatches := Z.of_nat (List.length batches) |},
           _send_batches_to_spring net
             {| arg_task_id := task_id;
                arg_directory := dir_str dir;
                arg_user_id := "user_" ++ substring 0 12 task_id;
                arg_strategy := req_strategy request;
                arg_max_cost_budget := req_max_cost_budget request;
                arg_spring_client := client |}
             clock batches),
       {| requests := requests w;
          trace := trace w;
          _task_storage :=
            <[ task_id :=
                 {| status := "PROCESSING";
                    task_directory := dir_str dir;
                    total_files := Z.of_nat (List.length (collect_files dir));
                    task_total_batches := Z.of_nat (List.length batches);
                    created_at := now |} ]> (_task_storage w) |}).
Proof.
  intros Hdir.
  destruct (chunk_files_count (collect_files dir)
              (_get_batch_size (req_strategy request))
              (batch_size_positive _)) as (batches & Hchunk & Hcount & Hne).
  exists batches. split; [exact Hchunk|]. split; [exact Hcount|].
  split; [exact Hne|].
  unfold organize_folder. rewrite Hdir, Hchunk. reflexivity.
Qed.



(** X15.  A whole task, route and delivery together, changes the
    entry of no other task id in [_task_storage], whatever the
    directory holds and whatever the endpoint answers. *)
Theorem other_tasks_untouched task_id now clock request client w other :
  other <> task_id ->
  _task_storage (whole_task task_id now clock request client w) !! other
  = _task_storage w !! other.
Proof.
  intros Hother. unfold run_task.
  destruct (resolve_directory (path request)) as [dir|e] eqn:Hdir.
  - destruct (organize_folder_resolved task_id now clock request client w
                dir Hdir) as (batches & _ & _ & _ & ->).
    match goal with
    | |- context [_send_batches_to_spring net ?a clock batches ?w'] =>
        destruct (send_batches_run net a clock batches w') as (evs & _ & -> & _)
    end.
    cbn [_task_storage]. now rewrite lookup_insert_ne.
  - unfold organize_folder. rewrite Hdir. destruct e; reflexivity.
Qed.

End RouteFacts.

(** ** Client construction: base URL and trailing slashes *)

Lemma rstrip_slash_no_trailing s : ends_with_slash (rstrip_slash s) = false.
Proof.
  induction s as [|c s IH]; [reflexivity|]. cbn [rstrip_slash].
  destruct (rstrip_slash s) as [|d rest].
  - destruct (Ascii.eqb c "/") eqn:Hc; [reflexivity|]. cbn. exact Hc.
  - exact IH.
Qed.

Lemma rstrip_slash_slashes n : rstrip_slash (slashes n) = EmptyString.
Proof. induction n as [|n IH]; [reflexivity|]. cbn. now rewrite IH. Qed.

Lemma rstrip_slash_append s n : rstrip_slash (s ++ slashes n) = rstrip_slash s.
Proof.
  induction s as [|c s IH]; [apply rstrip_slash_slashes|].
  change (String c s ++ slashes n)%string with (String c (s ++ slashes n))%string.
  cbn [rstrip_slash]. now rewrite IH.
Qed.

Lemma rstrip_slash_split s :
  exists n, s = (rstrip_slash s ++ slashes n)%string.
Proof.
  induction s as [|c s [n IH]]; [exists O; reflexivity|].
  cbn [rstrip_slash]. destruct (rstrip_slash s) as [|d rest].
  - change (EmptyString ++ slashes n)%string with (slashes n) in IH.
    destruct (Ascii.eqb_spec c "/") as [->|_].
    + exists (S n). change (String "/" s = String "/" (slashes n)).
      now rewrite <- IH.
    + exists n. change (String c s = String c (slashes n)).
      now rewrite <- IH.
  - exists n.
    change (String c s = String c (String d rest ++ slashes n)%string).
    now rewrite <- IH.
Qed.

(** X17.  The base URL that a client keeps never ends with a slash
    and differs from the configured one by trailing slashes only; so
    the client, and the four URLs that it formats, are the same however
    many slashes the configured URL ends with. *)
Theorem client_urls_ignore_trailing_slashes url key timeout_arg retries n task :
  let self := SpringClient_init url key timeout_arg retries in
  let self' := SpringClient_init (url ++ slashes n) key timeout_arg retries in
  ends_with_slash (base_url self) = false /\
  (exists k, url = (base_url self ++ slashes k)%string) /\
  self' = self /\
  batch_url self' = batch_url self /\
  task_url self' task = task_url self task /\
  result_url self' task = result_url self task /\
  execution_result_url self' task = execution_result_url self task.
Proof.
  intros self self'.
  assert (Hsame : self' = self).
  { subst self self'. unfold SpringClient_init.
    now rewrite rstrip_slash_append. }
  split; [apply rstrip_slash_no_trailing|].
  split; [apply rstrip_slash_split|].
  rewrite Hsame. repeat split.
Qed.

(** ** The single-request calls and the status route *)

Section CallFacts.
Variable http : nat -> HttpRequest -> HttpOutcome.

Lemma request_once_frame label request w :
  requests (snd (request_once http label request w)) = S (requests w) /\
  trace (snd (request_once http label request w)) = trace w /\
  _task_storage (snd (request_once http label request w)) = _task_storage w.
Proof.
  unfold request_once.
  destruct (http (requests w) request) as [code [json|]| |];
    try destruct (code =? 200); auto.
Qed.

Lemma request_once_ok label request w json :
  fst (request_once http label request w) = Ok json
  <-> http (requests w) request = HttpResponded 200 (Some json).
Proof.
  unfold request_once.
  destruct (http (requests w) request) as [code [body|]| |];
    try (destruct (Z.eqb_spec code 200) as [->|Hcode]); cbn [fst];
    split; intros H; try discriminate; try congruence.
Qed.

Lemma request_once_timeout label request w :
  http (requests w) request = HttpTimedOut ->
  fst (request_once http label request w)
  = Raise (SpringIntegrationError SpringConnectionFailed).
Proof. unfold request_once. now intros ->. Qed.

(** X18.  [get_task_status], [get_organization_result] and
    [report_execution_result] each make exactly one request and never
    retry: each returns the JSON of the response exactly when the
    status is 200 and the body is JSON, and otherwise raises at once;
    a timeout raises [SpringIntegrationError]. *)
Theorem single_request_calls self task summary executed_at w :
  let calls :=
    [ (get_task_status http self task w, status_request self task);
      (get_organization_result http self task w,
       {| http_method := GET; http_url := result_url self task;
          http_headers := _build_headers self; http_json := None |});
      (report_execution_result http self task summary executed_at w,
       {| http_method := POST; http_url := execution_result_url self task;
          http_headers := _build_headers self;
          http_json :=
            Some (JObject [ ("taskId", JString task);
                            ("status", JString "SUCCESS");
                            ("executionSummary", summary);
                            ("executedAt", JString executed_at) ]) |}) ] in
  Forall
    (fun call : (Res Json * World) * HttpRequest =>
       requests (snd (fst call)) = S (requests w) /\
       trace (snd (fst call)) = trace w /\
       (forall json,
          fst (fst call) = Ok json
          <-> http (requests w) (snd call) = HttpResponded 200 (Some json)) /\
       (http (requests w) (snd call) = HttpTimedOut ->
        fst (fst call) = Raise (SpringIntegrationError SpringConnectionFailed)))
    calls.
Proof.
  intros calls. subst calls.
  repeat constructor; cbn [fst snd];
    try apply request_once_frame; try apply request_once_ok;
    try apply request_once_timeout.
Qed.

End CallFacts.

(** ** The [/reorganize/execute] route *)


(** ** [RabbitMQPublisher] *)

Lemma count_connects_app log1 log2 :
  count_connects (log1 ++ log2) = (count_connects log1 + count_connects log2)%nat.
Proof.
  induction log1 as [|c log1 IH]; [reflexivity|].
  destruct c; cbn; rewrite IH; reflexivity.
Qed.

Lemma closed_connections_app log1 log2 :
  closed_connections (log1 ++ log2)
  = closed_connections log1 ++ closed_connections log2.
Proof. unfold closed_connections. apply flat_map_app. Qed.

Lemma count_connects_messages chan messages :
  count_connects (flat_map (message_calls chan) messages) = O.
Proof. induction messages as [|m messages IH]; [reflexivity|exact IH]. Qed.

Section PublisherFacts.
Variable broker_ok : nat -> bool.

Lemma publish_on_ok chan topic body self log :
  (forall i, broker_ok i = true) ->
  publish_on broker_ok chan topic body self log
  = (Ok tt, self, log ++ message_calls chan (topic, body)).
Proof.
  intros Hok. unfold publish_on, broker_call. rewrite !Hok.
  now rewrite <- app_assoc.
Qed.

Lemma publish_all_connected chan messages : forall self log,
  (forall i, broker_ok i = true) ->
  pub_channel self = Some chan ->
  publish_all broker_ok messages self log
  = (Ok tt, self, log ++ flat_map (message_calls chan) messages).
Proof.
  induction messages as [|[topic body] messages IH]; intros self log Hok Hchan.
  - cbn. now rewrite app_nil_r.
  - cbn [publish_all flat_map]. unfold publisher_publish. rewrite Hchan.
    rewrite publish_on_ok by exact Hok. rewrite IH by assumption.
    now rewrite <- app_assoc.
Qed.

(** X22.  With a broker that accepts every call, publishing a
    non-empty list of messages on a fresh publisher connects once, for
    the first message, opens one channel, and then declares the
    exchange again for each message before publishing it on that
    channel; the publisher keeps the connection and the channel. *)
Theorem publisher_connects_once url message messages log :
  (forall i, broker_ok i = true) ->
  let conn := List.length log in
  let chan := S conn in
  let calls :=
    ConnectRobust url :: OpenChannel conn
    :: flat_map (message_calls chan) (message :: messages) in
  publish_all broker_ok (message :: messages) (Publisher_init url) log
  = (Ok tt,
     {| pub_url := url; pub_connection := Some conn; pub_channel := Some chan |},
     log ++ calls) /\
  count_connects calls = 1%nat.
Proof.
  intros Hok conn chan calls. subst calls. split.
  - destruct message as [topic body].
    cbn [publish_all]. unfold publisher_publish, publisher_connect, broker_call.
    cbn [Publisher_init pub_channel pub_url]. rewrite !Hok.
    cbn [pub_channel]. rewrite !length_app. cbn [List.length].
    rewrite !Nat.add_1_r. rewrite publish_on_ok by exact Hok.
    rewrite (publish_all_connected (S conn)) by (exact Hok || reflexivity).
    cbn [flat_map]. rewrite <- !app_assoc. reflexivity.
  - cbn [count_connects]. rewrite count_connects_messages. reflexivity.
Qed.

(** X23.  [close] closes the stored connection but clears neither
    field, so a publisher that is closed and then used again does not
    reconnect: its next [publish] declares the exchange on the channel
    of the closed connection, whatever the broker answers. *)
Theorem close_keeps_channel self conn chan topic body log :
  pub_connection self = Some conn ->
  pub_channel self = Some chan ->
  let log1 := log ++ [CloseConnection conn] in
  (exists r, publisher_close broker_ok self log = (r, self, log1)) /\
  (exists r calls,
     publisher_publish broker_ok topic body self log1 = (r, self, log1 ++ calls) /\
     (calls = message_calls chan (topic, body)
      \/ calls = [DeclareExchange chan "nebula_events" "topic" true]) /\
     count_connects (log1 ++ calls) = count_connects log).
Proof.
  intros Hconn Hchan log1. split.
  - unfold publisher_close, broker_call. rewrite Hconn.
    destruct (broker_ok (List.length log)); eexists; reflexivity.
  - unfold publisher_publish, publish_on, broker_call. rewrite Hchan.
    destruct (broker_ok (List.length log1)).
    + destruct (broker_ok (List.length (log1 ++ _))); eexists; eexists;
        (split; [rewrite <- app_assoc; reflexivity|]);
        (split; [left; reflexivity|]);
        subst log1; rewrite !count_connects_app; cbn; lia.
    + eexists; eexists. split; [reflexivity|]. split; [right; reflexivity|].
      subst log1; rewrite !count_connects_app; cbn; lia.
Qed.

(** X24.  When the connection is made but opening the channel fails,
    [publish] raises and the publisher keeps the connection without a
    channel; the next [publish] then connects anew, replacing the
    stored connection, so that a later [close] closes the second
    connection only: the first is never closed. *)
Theorem failed_channel_leaks_connection url topic body :
  broker_ok 0 = true ->
  broker_ok 1 = false ->
  (forall i, (1 < i)%nat -> broker_ok i = true) ->
  let self1 :=
    {| pub_url := url; pub_connection := Some O; pub_channel := None |} in
  let log1 := [ConnectRobust url; OpenChannel 0] in
  let self2 :=
    {| pub_url := url; pub_connection := Some 2%nat; pub_channel := Some 3%nat |} in
  let log2 :=
    log1 ++ [ConnectRobust url; OpenChannel 2] ++ message_calls 3 (topic, body) in
  publisher_publish broker_ok topic body (Publisher_init url) []
  = (Raise (OtherException "AMQPError"), self1, log1) /\
  publisher_publish broker_ok topic body self1 log1 = (Ok tt, self2, log2) /\
  publisher_close broker_ok self2 log2 = (Ok tt, self2, log2 ++ [CloseConnection 2]) /\
  closed_connections (log2 ++ [CloseConnection 2]) = [2%nat].
Proof.
  intros H0 H1 Hrest self1 log1 self2 log2.
  subst self1 log1 self2 log2.
  unfold publisher_publish, publisher_connect, publish_on, publisher_close,
    broker_call.
  cbn [Publisher_init pub_channel pub_url pub_connection List.length app].
  rewrite H0, H1.
  repeat (cbn [pub_channel pub_url pub_connection List.length app];
          rewrite ?Hrest by lia).
  repeat split.
Qed.
End PublisherFacts.

(** ** A task followed by a status query *)

Section TaskThenStatus.
Variable extract_pdf_keywords : string -> Res (list string).
Variable extract_image_highlights : string -> Res ImageHighlights.
Variable build_summary_text : string -> Res (option string * string).
Variable resolve_directory : string -> Res Directory.
Variable net : nat -> NetOutcome.
Variable http : nat -> HttpRequest -> HttpOutcome.

Local Abbreviation whole_task :=
  (run_task extract_pdf_keywords extract_image_highlights
     build_summary_text resolve_directory net).
Local Abbreviation collect_files :=
  (_collect_and_extract_files extract_pdf_keywords extract_image_highlights
     build_summary_text).

Lemma whole_task_storage task_id now clock request client w dir :
  resolve_directory (path request) = Ok dir ->
  let B := _get_batch_size (req_strategy request) in
  let N := Z.of_nat (List.length (collect_files dir)) in
  _task_storage (whole_task task_id now clock request client w)
  = <[ task_id := {| status := "PROCESSING"; task_directory := dir_str dir;
                     total_files := N; task_total_batches := (N + B - 1) / B;
                     created_at := now |} ]> (_task_storage w).
Proof.
  intros Hdir B N. unfold run_task.
  destruct (organize_folder_resolved extract_pdf_keywords
              extract_image_highlights build_summary_text resolve_directory
              net task_id now clock request client w dir Hdir)
    as (batches & _ & Hcount & _ & ->).
  fold N in Hcount |- *. fold B in Hcount. rewrite Hcount.
  match goal with
  | |- context [_send_batches_to_spring net ?a clock batches ?w'] =>
      destruct (send_batches_run net a clock batches w') as (evs & _ & -> & _)
  end.
  reflexivity.
Qed.

End TaskThenStatus.

(** ** The page size sent for a value within the range *)

Lemma SFcompare_refl x : Js.isNaN x = false -> SFcompare x x = Some Eq.
Proof.
  destruct x as [[]|[]| |[] m e]; try discriminate; intros _;
    cbn [SFcompare]; try reflexivity;
    rewrite Z.compare_refl;
    change (Pos.compare_cont Eq m m) with (Pos.compare m m);
    rewrite Pos.compare_refl; reflexivity.
Qed.

(** X25.  A page size that lies within 10 and 500 is sent as it is by
    both calls: the value in the request compares equal to the
    argument. *)
Theorem page_size_in_range_unchanged path baseUrl (x : Js.number) :
  Js.in_range Js.n10 Js.n500 x = true ->
  SFcompare (page_size (inspectAndOrganizeFolder path baseUrl (Some x))) x
  = Some Eq /\
  SFcompare (page_size (inspectAndOrganizeWithGeneration path baseUrl (Some x))) x
  = Some Eq.
Proof.
  intros Hrange. unfold Js.in_range, Js.le in Hrange.
  apply andb_prop in Hrange as [Hlo Hhi].
  assert (Hx : Js.isNaN x = false).
  { destruct x as [?|?| |? ? ?]; try reflexivity. discriminate. }
  unfold inspectAndOrganizeFolder, inspectAndOrganizeWithGeneration.
  cbn [page_size with_default]. rewrite (valid_page_size_value x Hx).
  assert (Hnot : SFltb Js.n500 x = false).
  { unfold SFltb, SFleb in *. rewrite (SFcompare_antisym x Js.n500).
    destruct (SFcompare x Js.n500) as [[]|]; cbn; congruence. }
  rewrite Hnot.
  assert (Hvalue : SFcompare (if SFltb Js.n10 x then x else Js.n10) x = Some Eq).
  { destruct (SFltb Js.n10 x) eqn:Hlt; [apply SFcompare_refl, Hx|].
    unfold SFltb, SFleb in *.
    destruct (SFcompare Js.n10 x) as [[]|]; congruence. }
  split; exact Hvalue.
Qed.

(** ** The handlers of the component *)

Section Handlers.
Import Component.
Variable api : FetchRequest -> Settled OrganizedFilesResponse.
Variable batch_api : BatchFetchRequest -> Settled BatchProcessResponse.

(** X26.  With a path that is empty or made of white space only, both
    handlers send no request and set one state, which differs from the
    previous one in its error only: the success box of an earlier run
    stays on display, beside the error box. *)
Theorem blank_path_sets_error_only folderPath state :
  trims_to_empty folderPath = true ->
  let s := path_missing state in
  handleOrganize api folderPath state = (s, [SetState s]) /\
  handleOrganizeBatch batch_api folderPath state = (s, [SetState s]) /\
  loading s = loading state /\
  shows_success s = shows_success state /\
  shows_error s = true.
Proof.
  intros Hblank s. unfold handleOrganize, handleOrganizeBatch.
  rewrite Hblank. repeat split.
Qed.

(** X27.  With any other path each handler sends exactly one request,
    to the default base URL and with the path as typed, not trimmed;
    the request of [handleOrganize] carries the default page size 100,
    which lies within the range. *)
Theorem handlers_send_one_request folderPath state :
  trims_to_empty folderPath = false ->
  let request :=
    {| endpoint := "http://localhost:8000/api/folders/inspect-and-organize";
       page_size := Js.n100;
       body_path := folderPath |} in
  List.filter is_request (snd (handleOrganize api folderPath state))
  = [Fetch request] /\
  page_size_in_bounds request = true /\
  List.filter is_request (snd (handleOrganizeBatch batch_api folderPath state))
  = [FetchBatch
       {| batch_endpoint :=
            "http://localhost:8000/api/folders/inspect-and-organize/batch";
          batch_body_path := folderPath |}].
Proof.
  intros Hblank request. unfold handleOrganize, handleOrganizeBatch.
  rewrite Hblank. split; [reflexivity|]. split; [reflexivity|].
  destruct (batch_api _); reflexivity.
Qed.

(** X28.  With a path that is not blank, each handler first sets the
    loading state, which drops any earlier result, and ends in a state
    that is not loading and shows at most one of the two boxes: success
    holds exactly when there is no error, and exactly when there is a
    result.  [handleOrganize] succeeds exactly when the call resolves
    with status [success]; [handleOrganizeBatch] succeeds whenever the
    call resolves. *)
Theorem handlers_end_in_one_outcome folderPath state :
  trims_to_empty folderPath = false ->
  let settled (run : OrganizeState * list UiEvent) :=
    head (snd run) = Some (SetState started) /\
    loading (fst run) = false /\
    (success (fst run) = true <-> error (fst run) = None) /\
    (success (fst run) = true <-> result (fst run) <> None) /\
    shows_error (fst run) && shows_success (fst run) = false in
  settled (handleOrganize api folderPath state) /\
  settled (handleOrganizeBatch batch_api folderPath state) /\
  (success (fst (handleOrganize api folderPath state)) = true
   <-> exists r,
         api (inspectAndOrganizeFolder folderPath None None) = Resolved r /\
         response_status r = "success") /\
  (success (fst (handleOrganizeBatch batch_api folderPath state)) = true
   <-> exists r,
         batch_api (inspectAndOrganizeBatch folderPath None) = Resolved r).
Proof.
  intros Hblank settled. subst settled. cbv beta.
  unfold handleOrganize, handleOrganizeBatch. rewrite Hblank.
  repeat split;
    try (destruct (api _) as [r|err];
         [destruct (String.eqb_spec (response_status r) "success")|]);
    try destruct (batch_api _) as [r'|err'];
    cbn [fst snd head loading success error result failed shows_error
           shows_success truthy andb];
    try reflexivity; try congruence; try discriminate; eauto;
    try (rewrite andb_false_r; reflexivity);
    try (intros (r0 & Hr & Hs); congruence);
    try (intros (r0 & Hr); congruence).
Qed.
End Handlers.

(** ** The further properties at concrete scenarios *)

(** A 429 and then an acceptance: the delivery returns at its second
    request. *)
Lemma delivery_returns_first_acceptance_witness :
  fst (send_snapshot_batch rate_limited_once client payload world0) = Ok ack /\
  requests (snd (send_snapshot_batch rate_limited_once client payload world0))
  = (requests world0 + 2)%nat /\
  exists pre,
    trace (snd (send_snapshot_batch rate_limited_once client payload world0))
    = trace world0 ++ pre ++ [Post payload (Z.of_nat 1)] /\
    count_posts pre = 1%nat.
Proof.
  apply (delivery_returns_first_acceptance rate_limited_once client payload
           world0 1 ack).
  - reflexivity.
  - intros [|j] Hj; [reflexivity|lia].
  - reflexivity.
Defined.

(** Every request answered by 201: three requests, no sleep. *)
Lemma other_success_status_exhausts_witness :
  fst (send_snapshot_batch Cases.created client payload world0)
  = Raise (SpringIntegrationError SpringMaxRetriesExceeded) /\
  trace (snd (send_snapshot_batch Cases.created client payload world0))
  = trace world0 ++ unslept_events payload 0 (Z.to_nat (max_retries client)) /\
  requests (snd (send_snapshot_batch Cases.created client payload world0))
  = (requests world0 + Z.to_nat (max_retries client))%nat.
Proof.
  apply (other_success_status_exhausts Cases.created client payload world0).
  intros k Hk. reflexivity.
Defined.

(** Every request answered by 429: sleeps of 1, 2 and 4 seconds. *)
Lemma rate_limited_throughout_witness :
  fst (send_snapshot_batch Cases.throttled client payload world0)
  = Raise (SpringIntegrationError SpringMaxRetriesExceeded) /\
  trace (snd (send_snapshot_batch Cases.throttled client payload world0))
  = trace world0
    ++ rate_limited_events payload 0 (Z.to_nat (max_retries client)) /\
  sum_Z (sleeps (rate_limited_events payload 0 (Z.to_nat (max_retries client))))
  = 2 ^ max_retries client - 1.
Proof.
  apply (rate_limited_throughout Cases.throttled client payload world0).
  - vm_compute. discriminate.
  - intros k Hk. reflexivity.
Defined.

Lemma delivery_sleep_budget_witness :
  trace (snd (send_snapshot_batch rate_limited_once client payload world0))
  = trace world0 ++ [Post payload 0; Sleep 1; Post payload 1] /\
  0 <= sum_Z (sleeps [Post payload 0; Sleep 1; Post payload 1])
    < 2 ^ Z.max 0 (max_retries client).
Proof.
  split; [reflexivity|].
  exact (proj1 (delivery_sleep_budget rate_limited_once client payload world0
                  [Post payload 0; Sleep 1; Post payload 1] eq_refl)).
Defined.

Lemma delivery_request_bound_witness :
  (count_posts
     (trace (_send_batches_to_spring accepting args clock Cases.two_batches
               world0))
   <= List.length Cases.two_batches
      * Z.to_nat (max_retries (arg_spring_client args)))%nat.
Proof.
  exact (proj1 (delivery_request_bound accepting args clock Cases.two_batches
                  world0
                  (trace (_send_batches_to_spring accepting args clock
                            Cases.two_batches world0))
                  eq_refl)).
Defined.

Lemma all_batches_accepted_witness :
  trace (_send_batches_to_spring accepting args clock Cases.two_batches world0)
  = trace world0
    ++ accepted_events args (Z.of_nat (List.length Cases.two_batches)) clock 1
         Cases.two_batches /\
  requests (_send_batches_to_spring accepting args clock Cases.two_batches world0)
  = (requests world0 + List.length Cases.two_batches)%nat.
Proof.
  apply (all_batches_accepted accepting args clock Cases.two_batches world0).
  - reflexivity.
  - vm_compute. discriminate.
  - intros i. exists ack. reflexivity.
Defined.

Lemma requests_carry_run_identity_witness :
  let p := batch_request args 2 clock 2 [entry 1] in
  In (Post p 0)
     (trace (_send_batches_to_spring accepting args clock Cases.two_batches
               world0)) /\
  p = batch_request args (Z.of_nat (List.length Cases.two_batches)) clock
        (batch_number p) (entries p).
Proof.
  intros p.
  assert (Hin : In (Post p 0)
                  (trace (_send_batches_to_spring accepting args clock
                            Cases.two_batches world0))).
  { vm_compute. tauto. }
  split; [exact Hin|].
  exact (requests_carry_run_identity accepting args clock Cases.two_batches
           world0 _ p 0 eq_refl Hin).
Defined.


Lemma other_tasks_untouched_witness :
  _task_storage (run_task pdf_raises image_ok sheet_ok resolve rejecting
                   "task-1" 0 clock request client world0) !! "task-2"
  = _task_storage world0 !! "task-2".
Proof.
  apply (other_tasks_untouched pdf_raises image_ok sheet_ok resolve rejecting
           "task-1" 0 clock request client world0 "task-2").
  discriminate.
Defined.



Lemma publisher_connects_once_witness :
  publish_all Cases.broker_up [("files", "a"); ("files", "b")]
    (Publisher_init "amqp://localhost/") []
  = (Ok tt, Cases.connected,
     [ ConnectRobust "amqp://localhost/"; OpenChannel 0;
       DeclareExchange 1 "nebula_events" "topic" true;
       PublishMessage 1 "files" "a" "application/json" true;
       DeclareExchange 1 "nebula_events" "topic" true;
       PublishMessage 1 "files" "b" "application/json" true ]).
Proof.
  exact (proj1 (publisher_connects_once Cases.broker_up "amqp://localhost/"
                  ("files", "a") [("files", "b")] []
                  (fun i => eq_refl))).
Defined.

Lemma close_keeps_channel_witness :
  exists r calls,
    publisher_publish Cases.broker_up "files" "a" Cases.connected
      ([] ++ [CloseConnection 0])
    = (r, Cases.connected, ([] ++ [CloseConnection 0]) ++ calls) /\
    (calls = message_calls 1 ("files", "a")
     \/ calls = [DeclareExchange 1 "nebula_events" "topic" true]) /\
    count_connects (([] ++ [CloseConnection 0]) ++ calls) = count_connects [].
Proof.
  exact (proj2 (close_keeps_channel Cases.broker_up Cases.connected 0 1
                  "files" "a" [] eq_refl eq_refl)).
Defined.

Lemma failed_channel_leaks_connection_witness :
  publisher_publish Cases.channel_refused "files" "a"
    (Publisher_init "amqp://localhost/") []
  = (Raise (OtherException "AMQPError"),
     {| pub_url := "amqp://localhost/"; pub_connection := Some O;
        pub_channel := None |},
     [ConnectRobust "amqp://localhost/"; OpenChannel 0]).
Proof.
  refine (proj1 (failed_channel_leaks_connection Cases.channel_refused
                   "amqp://localhost/" "files" "a" eq_refl eq_refl _)).
  intros [|[|i]] Hi; [lia|lia|reflexivity].
Defined.

Lemma page_size_in_range_unchanged_witness :
  Js.in_range Js.n10 Js.n500 Js.n100 = true /\
  SFcompare (page_size (inspectAndOrganizeFolder "/data" None (Some Js.n100)))
    Js.n100 = Some Eq.
Proof.
  split; [reflexivity|].
  exact (proj1 (page_size_in_range_unchanged "/data" None Js.n100 eq_refl)).
Defined.

Lemma blank_path_sets_error_only_witness :
  Component.trims_to_empty "  " = true /\
  Component.handleOrganize Cases.organized "  " Component.initial_state
  = (Component.path_missing Component.initial_state,
     [Component.SetState (Component.path_missing Component.initial_state)]).
Proof.
  split; [reflexivity|].
  exact (proj1 (blank_path_sets_error_only Cases.organized Cases.batched "  "
                  Component.initial_state eq_refl)).
Defined.

Lemma handlers_send_one_request_witness :
  Component.trims_to_empty " /data" = false /\
  List.filter Component.is_request
    (snd (Component.handleOrganize Cases.organized " /data"
            Component.initial_state))
  = [Component.Fetch
       {| endpoint := "http://localhost:8000/api/folders/inspect-and-organize";
          page_size := Js.n100;
          body_path := " /data" |}].
Proof.
  split; [reflexivity|].
  exact (proj1 (handlers_send_one_request Cases.organized Cases.batched " /data"
                  Component.initial_state eq_refl)).
Defined.

Lemma handlers_end_in_one_outcome_witness :
  Component.success
    (fst (Component.handleOrganize Cases.organized "/data"
            Component.initial_state)) = true
  <-> exists r,
        Cases.organized (inspectAndOrganizeFolder "/data" None None)
        = Component.Resolved r /\
        Component.response_status r = "success".
Proof.
  exact (proj1 (proj2 (proj2 (handlers_end_in_one_outcome Cases.organized
                                Cases.batched "/data" Component.initial_state
                                eq_refl)))).
Defined.
